(** * WiFiManager-IDF: connection/portal state machine, scan filter,
      captive DNS responder and parameter registry

    A shallow embedding of the parts of [WiFiManager.cpp] (ESP-IDF
    WiFiManager component) that the specification's testable properties
    talk about, and the proofs that settle them.

    Conventions
    - C++ fixed-width integers are [Z] with the wrap-around written out
      ([wrap_s32], [wrap_s64], [wrap_u32]); octets are [Byte.byte].
    - A member function that only touches the Manager's fields is a function
      [WiFiManager -> WiFiManager]; one that also calls into the platform
      (callbacks, sockets, the HTTP server, the scheduler) lives in the
      [Op] monad, which threads the Manager and appends the platform calls
      to a log.
    - What another execution context decides (the clock, the event being
      delivered, the datagram received, when the DNS task exits) is an
      explicit argument.
    - [WM_LOGx] calls are not modelled. *)

From Stdlib Require Import ZArith List Bool Lia Permutation Sorted.
From Stdlib Require Import Strings.Byte.
Import ListNotations.
Open Scope Z_scope.

(** * Machine integers *)

Module MachineInt.

(** [uint32_t]: reduction modulo 2^32. *)
Definition wrap_u32 (z : Z) : Z := z mod 2 ^ 32.

(** [int] (32 bits, two's complement). *)
Definition wrap_s32 (z : Z) : Z := (z + 2 ^ 31) mod 2 ^ 32 - 2 ^ 31.

(** [int64_t] (two's complement). *)
Definition wrap_s64 (z : Z) : Z := (z + 2 ^ 63) mod 2 ^ 64 - 2 ^ 63.

Definition INT_MIN : Z := - 2 ^ 31.
Definition INT_MAX : Z := 2 ^ 31 - 1.

(** [uint8_t] value of an octet. *)
Definition u8 (b : byte) : Z := Z.of_N (Byte.to_N b).

(** [int8_t] value of an octet. *)
Definition s8 (b : byte) : Z := if u8 b <? 128 then u8 b else u8 b - 256.

(** The octet a C++ conversion to [uint8_t] / [int8_t] stores. *)
Definition to_byte (z : Z) : byte :=
  match Byte.of_N (Z.to_N (z mod 256)) with
  | Some b => b
  | None => x00
  end.

End MachineInt.
Import MachineInt.

(** * wm_config.h: states and connection results *)

Inductive wm_state_t : Set :=
  | WM_STATE_INIT
  | WM_STATE_TRY_STA
  | WM_STATE_RUN_STA
  | WM_STATE_START_PORTAL
  | WM_STATE_RUN_PORTAL
  | WM_STATE_PORTAL_ABORT
  | WM_STATE_PORTAL_TIMEOUT.

Inductive wl_status_t : Set :=
  | WL_IDLE_STATUS
  | WL_NO_SSID_AVAIL
  | WL_SCAN_COMPLETED
  | WL_CONNECTED
  | WL_CONNECT_FAILED
  | WL_CONNECTION_LOST
  | WL_WRONG_PASSWORD
  | WL_DISCONNECTED.

Definition wm_state_eqb (a b : wm_state_t) : bool :=
  match a, b with
  | WM_STATE_INIT, WM_STATE_INIT
  | WM_STATE_TRY_STA, WM_STATE_TRY_STA
  | WM_STATE_RUN_STA, WM_STATE_RUN_STA
  | WM_STATE_START_PORTAL, WM_STATE_START_PORTAL
  | WM_STATE_RUN_PORTAL, WM_STATE_RUN_PORTAL
  | WM_STATE_PORTAL_ABORT, WM_STATE_PORTAL_ABORT
  | WM_STATE_PORTAL_TIMEOUT, WM_STATE_PORTAL_TIMEOUT => true
  | _, _ => false
  end.

Lemma wm_state_eqb_eq a b : wm_state_eqb a b = true <-> a = b.
Proof. destruct a, b; simpl; split; intros H; congruence. Qed.

(** * Records of the platform that the Manager stores *)

(** [wifi_ap_record_t], the fields the component reads: the SSID buffer
    (a NUL-terminated C string in a [uint8_t] array), the [int8_t] signal
    strength, the primary channel and the authentication mode. *)
Record wifi_ap_record_t : Set := mk_ap {
  ssid : list byte;
  rssi : byte;
  primary : Z;
  authmode : Z
}.

(** [WiFiManagerParameter] (WiFiManagerParameter.h). *)
Record WiFiManagerParameter : Set := mk_param {
  _id : list byte;
  _placeholder : list byte;
  _label : list byte;
  _value : list byte;
  _customHTML : list byte;
  _length : Z;
  _type : Z
}.

(** Opaque platform handles, peer addresses and application callbacks,
    identified by a number. *)
Definition handle := Z.
Definition sockaddr := Z.
Definition callback := nat.

(** * The Manager (WiFiManager.h, private members)

    The fields read or written by the modelled member functions.  Strings
    for the access point, static IP blocks, UI customisation, the
    interface handles and the other three callbacks are left out: no
    modelled function touches them. *)
Record WiFiManager : Type := mkWM {
  _state : wm_state_t;
  _connectTimeout : Z;          (* uint32_t, microseconds *)
  _configPortalTimeout : Z;     (* uint32_t, microseconds *)
  _configPortalBlocking : bool;
  _minimumQuality : Z;          (* int *)
  _removeDuplicateAPs : bool;
  _rawScanResults : list wifi_ap_record_t;
  _params : list WiFiManagerParameter;
  _saveConfigCallback : option callback;
  _httpServer : option handle;
  _lastConxResult : wl_status_t;
  _portalAbortResult : bool;
  _configPortalStart : Z;       (* int64_t *)
  _connectStart : Z;            (* int64_t *)
  _dnsTaskHandle : option handle;
  _dnsSocket : Z;               (* int *)
  _dnsRunning : bool;
  _cleanupInProgress : bool
}.

Definition set_state (v : wm_state_t) (m : WiFiManager) : WiFiManager :=
  mkWM v (_connectTimeout m) (_configPortalTimeout m) (_configPortalBlocking m)
    (_minimumQuality m) (_removeDuplicateAPs m) (_rawScanResults m) (_params m)
    (_saveConfigCallback m) (_httpServer m) (_lastConxResult m)
    (_portalAbortResult m) (_configPortalStart m) (_connectStart m)
    (_dnsTaskHandle m) (_dnsSocket m) (_dnsRunning m) (_cleanupInProgress m).

Definition set_connectTimeout (v : Z) (m : WiFiManager) : WiFiManager :=
  mkWM (_state m) v (_configPortalTimeout m) (_configPortalBlocking m)
    (_minimumQuality m) (_removeDuplicateAPs m) (_rawScanResults m) (_params m)
    (_saveConfigCallback m) (_httpServer m) (_lastConxResult m)
    (_portalAbortResult m) (_configPortalStart m) (_connectStart m)
    (_dnsTaskHandle m) (_dnsSocket m) (_dnsRunning m) (_cleanupInProgress m).

Definition set_configPortalTimeout (v : Z) (m : WiFiManager) : WiFiManager :=
  mkWM (_state m) (_connectTimeout m) v (_configPortalBlocking m)
    (_minimumQuality m) (_removeDuplicateAPs m) (_rawScanResults m) (_params m)
    (_saveConfigCallback m) (_httpServer m) (_lastConxResult m)
    (_portalAbortResult m) (_configPortalStart m) (_connectStart m)
    (_dnsTaskHandle m) (_dnsSocket m) (_dnsRunning m) (_cleanupInProgress m).

Definition set_minimumQuality (v : Z) (m : WiFiManager) : WiFiManager :=
  mkWM (_state m) (_connectTimeout m) (_configPortalTimeout m) (_configPortalBlocking m)
    v (_removeDuplicateAPs m) (_rawScanResults m) (_params m)
    (_saveConfigCallback m) (_httpServer m) (_lastConxResult m)
    (_portalAbortResult m) (_configPortalStart m) (_connectStart m)
    (_dnsTaskHandle m) (_dnsSocket m) (_dnsRunning m) (_cleanupInProgress m).

Definition set_removeDuplicateAPs (v : bool) (m : WiFiManager) : WiFiManager :=
  mkWM (_state m) (_connectTimeout m) (_configPortalTimeout m) (_configPortalBlocking m)
    (_minimumQuality m) v (_rawScanResults m) (_params m)
    (_saveConfigCallback m) (_httpServer m) (_lastConxResult m)
    (_portalAbortResult m) (_configPortalStart m) (_connectStart m)
    (_dnsTaskHandle m) (_dnsSocket m) (_dnsRunning m) (_cleanupInProgress m).

Definition set_rawScanResults (v : list wifi_ap_record_t) (m : WiFiManager) : WiFiManager :=
  mkWM (_state m) (_connectTimeout m) (_configPortalTimeout m) (_configPortalBlocking m)
    (_minimumQuality m) (_removeDuplicateAPs m) v (_params m)
    (_saveConfigCallback m) (_httpServer m) (_lastConxResult m)
    (_portalAbortResult m) (_configPortalStart m) (_connectStart m)
    (_dnsTaskHandle m) (_dnsSocket m) (_dnsRunning m) (_cleanupInProgress m).

Definition set_params (v : list WiFiManagerParameter) (m : WiFiManager) : WiFiManager :=
  mkWM (_state m) (_connectTimeout m) (_configPortalTimeout m) (_configPortalBlocking m)
    (_minimumQuality m) (_removeDuplicateAPs m) (_rawScanResults m) v
    (_saveConfigCallback m) (_httpServer m) (_lastConxResult m)
    (_portalAbortResult m) (_configPortalStart m) (_connectStart m)
    (_dnsTaskHandle m) (_dnsSocket m) (_dnsRunning m) (_cleanupInProgress m).

Definition set_saveConfigCallback (v : option callback) (m : WiFiManager) : WiFiManager :=
  mkWM (_state m) (_connectTimeout m) (_configPortalTimeout m) (_configPortalBlocking m)
    (_minimumQuality m) (_removeDuplicateAPs m) (_rawScanResults m) (_params m)
    v (_httpServer m) (_lastConxResult m)
    (_portalAbortResult m) (_configPortalStart m) (_connectStart m)
    (_dnsTaskHandle m) (_dnsSocket m) (_dnsRunning m) (_cleanupInProgress m).

Definition set_httpServer (v : option handle) (m : WiFiManager) : WiFiManager :=
  mkWM (_state m) (_connectTimeout m) (_configPortalTimeout m) (_configPortalBlocking m)
    (_minimumQuality m) (_removeDuplicateAPs m) (_rawScanResults m) (_params m)
    (_saveConfigCallback m) v (_lastConxResult m)
    (_portalAbortResult m) (_configPortalStart m) (_connectStart m)
    (_dnsTaskHandle m) (_dnsSocket m) (_dnsRunning m) (_cleanupInProgress m).

Definition set_lastConxResult (v : wl_status_t) (m : WiFiManager) : WiFiManager :=
  mkWM (_state m) (_connectTimeout m) (_configPortalTimeout m) (_configPortalBlocking m)
    (_minimumQuality m) (_removeDuplicateAPs m) (_rawScanResults m) (_params m)
    (_saveConfigCallback m) (_httpServer m) v
    (_portalAbortResult m) (_configPortalStart m) (_connectStart m)
    (_dnsTaskHandle m) (_dnsSocket m) (_dnsRunning m) (_cleanupInProgress m).

Definition set_portalAbortResult (v : bool) (m : WiFiManager) : WiFiManager :=
  mkWM (_state m) (_connectTimeout m) (_configPortalTimeout m) (_configPortalBlocking m)
    (_minimumQuality m) (_removeDuplicateAPs m) (_rawScanResults m) (_params m)
    (_saveConfigCallback m) (_httpServer m) (_lastConxResult m)
    v (_configPortalStart m) (_connectStart m)
    (_dnsTaskHandle m) (_dnsSocket m) (_dnsRunning m) (_cleanupInProgress m).

Definition set_connectStart (v : Z) (m : WiFiManager) : WiFiManager :=
  mkWM (_state m) (_connectTimeout m) (_configPortalTimeout m) (_configPortalBlocking m)
    (_minimumQuality m) (_removeDuplicateAPs m) (_rawScanResults m) (_params m)
    (_saveConfigCallback m) (_httpServer m) (_lastConxResult m)
    (_portalAbortResult m) (_configPortalStart m) v
    (_dnsTaskHandle m) (_dnsSocket m) (_dnsRunning m) (_cleanupInProgress m).

Definition set_dnsTaskHandle (v : option handle) (m : WiFiManager) : WiFiManager :=
  mkWM (_state m) (_connectTimeout m) (_configPortalTimeout m) (_configPortalBlocking m)
    (_minimumQuality m) (_removeDuplicateAPs m) (_rawScanResults m) (_params m)
    (_saveConfigCallback m) (_httpServer m) (_lastConxResult m)
    (_portalAbortResult m) (_configPortalStart m) (_connectStart m)
    v (_dnsSocket m) (_dnsRunning m) (_cleanupInProgress m).

Definition set_dnsSocket (v : Z) (m : WiFiManager) : WiFiManager :=
  mkWM (_state m) (_connectTimeout m) (_configPortalTimeout m) (_configPortalBlocking m)
    (_minimumQuality m) (_removeDuplicateAPs m) (_rawScanResults m) (_params m)
    (_saveConfigCallback m) (_httpServer m) (_lastConxResult m)
    (_portalAbortResult m) (_configPortalStart m) (_connectStart m)
    (_dnsTaskHandle m) v (_dnsRunning m) (_cleanupInProgress m).

Definition set_dnsRunning (v : bool) (m : WiFiManager) : WiFiManager :=
  mkWM (_state m) (_connectTimeout m) (_configPortalTimeout m) (_configPortalBlocking m)
    (_minimumQuality m) (_removeDuplicateAPs m) (_rawScanResults m) (_params m)
    (_saveConfigCallback m) (_httpServer m) (_lastConxResult m)
    (_portalAbortResult m) (_configPortalStart m) (_connectStart m)
    (_dnsTaskHandle m) (_dnsSocket m) v (_cleanupInProgress m).

Definition set_cleanupInProgress (v : bool) (m : WiFiManager) : WiFiManager :=
  mkWM (_state m) (_connectTimeout m) (_configPortalTimeout m) (_configPortalBlocking m)
    (_minimumQuality m) (_removeDuplicateAPs m) (_rawScanResults m) (_params m)
    (_saveConfigCallback m) (_httpServer m) (_lastConxResult m)
    (_portalAbortResult m) (_configPortalStart m) (_connectStart m)
    (_dnsTaskHandle m) (_dnsSocket m) (_dnsRunning m) v.

(** * Platform calls and the [Op] monad *)

(** The calls into the platform that the modelled functions make. *)
Inductive effect : Type :=
  | call_saveConfigCallback (cb : callback)
  | httpd_stop (h : handle)
  | close (fd : Z)
  | vTaskDelay_ms (ms : Z)
  | vTaskDelete (h : handle)
  | sendto (fd : Z) (payload : list byte) (dest : sockaddr).

(** A member function with platform calls: result, Manager afterwards, and
    the calls made, in order. *)
Definition Op (A : Type) : Type := WiFiManager -> A * WiFiManager * list effect.

Definition ret {A} (a : A) : Op A := fun m => (a, m, []).

Definition bind {A B} (c : Op A) (k : A -> Op B) : Op B :=
  fun m =>
    let '(a, m1, l1) := c m in
    let '(b, m2, l2) := k a m1 in
    (b, m2, l1 ++ l2).

Definition get {A} (field : WiFiManager -> A) : Op A := fun m => (field m, m, []).
Definition modify (f : WiFiManager -> WiFiManager) : Op unit := fun m => (tt, f m, []).
Definition emit (e : effect) : Op unit := fun m => (tt, m, [e]).

Declare Scope op_scope.
Delimit Scope op_scope with op.
Notation "x <- c ;; k" := (bind c (fun x => k))
  (at level 61, c at next level, right associativity) : op_scope.
Notation "c ;; k" := (bind c (fun _ => k))
  (at level 61, right associativity) : op_scope.

Definition result_of {A} (r : A * WiFiManager * list effect) : A := fst (fst r).
Definition manager_of {A} (r : A * WiFiManager * list effect) : WiFiManager := snd (fst r).
Definition calls_of {A} (r : A * WiFiManager * list effect) : list effect := snd r.

(** * The tick: [updateState] and [process] *)

(** [esp_timer_get_time() - start]: both operands are [int64_t]. *)
Definition elapsed (now start : Z) : Z := wrap_s64 (now - start).

(** [WiFiManager::updateState].  [now] is what [esp_timer_get_time()]
    returns; the [uint32_t] timeout is promoted to [int64_t] for the
    comparison, which keeps its value. *)
Definition updateState (now : Z) (m : WiFiManager) : WiFiManager :=
  match _state m with
  | WM_STATE_TRY_STA =>
      if elapsed now (_connectStart m) >? _connectTimeout m
      then set_state WM_STATE_START_PORTAL (set_lastConxResult WL_CONNECT_FAILED m)
      else m
  | WM_STATE_RUN_PORTAL =>
      if (_configPortalTimeout m >? 0)
         && (elapsed now (_configPortalStart m) >? _configPortalTimeout m)
      then set_state WM_STATE_PORTAL_TIMEOUT m
      else m
  | _ => m
  end.

(** [WiFiManager::process]. *)
Definition process (now : Z) : Op bool :=
  (modify (updateState now) ;;
   s <- get _state ;;
   ret (wm_state_eqb s WM_STATE_TRY_STA || wm_state_eqb s WM_STATE_RUN_PORTAL))%op.

(** Repeated ticks from the application loop, one clock reading per call;
    the results of the calls, in order. *)
Fixpoint process_loop (clock : list Z) : Op (list bool) :=
  match clock with
  | [] => ret []
  | now :: later =>
      (b <- process now ;;
       bs <- process_loop later ;;
       ret (b :: bs))%op
  end.

(** [setConfigPortalTimeout] / [setConnectTimeout]: the 64-bit product is
    stored into a [uint32_t] member. *)
Definition setConfigPortalTimeout (seconds : Z) (m : WiFiManager) : WiFiManager :=
  set_configPortalTimeout (wrap_u32 (seconds * 1000000)) m.

Definition setConnectTimeout (seconds : Z) (m : WiFiManager) : WiFiManager :=
  set_connectTimeout (wrap_u32 (seconds * 1000000)) m.

(** * Build configuration

    [sdkconfig.h] is generated from Kconfig and is not part of the
    repository; the values the component reads from it are taken as a
    parameter. *)
Record sdkconfig : Set := mk_sdkconfig {
  CONFIG_WM_MAX_CUSTOM_PARAMS : Z;
  CONFIG_WM_DEFAULT_CONNECT_TIMEOUT : Z;
  CONFIG_WM_DEFAULT_PORTAL_TIMEOUT : Z;
  CONFIG_WM_MIN_SIGNAL_QUALITY : Z;
  CONFIG_WM_REMOVE_DUP_APS : bool
}.

(** wm_config.h *)
Definition WM_MAX_CUSTOM_PARAMS (cfg : sdkconfig) : Z := CONFIG_WM_MAX_CUSTOM_PARAMS cfg.
Definition WM_DEFAULT_CONNECT_TIMEOUT (cfg : sdkconfig) : Z :=
  CONFIG_WM_DEFAULT_CONNECT_TIMEOUT cfg.
Definition WM_DEFAULT_PORTAL_TIMEOUT (cfg : sdkconfig) : Z :=
  CONFIG_WM_DEFAULT_PORTAL_TIMEOUT cfg.
Definition WM_MIN_QUALITY (cfg : sdkconfig) : Z := CONFIG_WM_MIN_SIGNAL_QUALITY cfg.

(** [WiFiManager::WiFiManager()]: the member initialiser list. *)
Definition WiFiManager_new (cfg : sdkconfig) : WiFiManager :=
  {| _state := WM_STATE_INIT;
     _connectTimeout := wrap_u32 (WM_DEFAULT_CONNECT_TIMEOUT cfg * 1000000);
     _configPortalTimeout := wrap_u32 (WM_DEFAULT_PORTAL_TIMEOUT cfg * 1000000);
     _configPortalBlocking := true;
     _minimumQuality := WM_MIN_QUALITY cfg;
     _removeDuplicateAPs := CONFIG_WM_REMOVE_DUP_APS cfg;
     _rawScanResults := [];
     _params := [];
     _saveConfigCallback := None;
     _httpServer := None;
     _lastConxResult := WL_IDLE_STATUS;
     _portalAbortResult := false;
     _configPortalStart := 0;
     _connectStart := 0;
     _dnsTaskHandle := None;
     _dnsSocket := -1;
     _dnsRunning := false;
     _cleanupInProgress := false |}.

(** [setSaveConfigCallback]; an empty [std::function] is [None]. *)
Definition setSaveConfigCallback (cb : option callback) (m : WiFiManager) : WiFiManager :=
  set_saveConfigCallback cb m.

Definition setMinimumSignalQuality (percent : Z) (m : WiFiManager) : WiFiManager :=
  set_minimumQuality percent m.

Definition setRemoveDuplicateAPs (remove : bool) (m : WiFiManager) : WiFiManager :=
  set_removeDuplicateAPs remove m.

(** * Network events

    The event identifiers and [wifi_err_reason_t] come from ESP-IDF headers
    that are not part of the repository.  An event is the tagged union of
    its identifier and the payload the handler reads; the disconnect
    reason stays a number, and the values of the enumerators the handler
    names are a parameter. *)
Inductive wifi_event : Type :=
  | WIFI_EVENT_STA_START
  | WIFI_EVENT_STA_CONNECTED
  | WIFI_EVENT_STA_DISCONNECTED (reason : Z)
  | WIFI_EVENT_AP_START
  | WIFI_EVENT_AP_STOP
  | WIFI_EVENT_AP_STACONNECTED
  | WIFI_EVENT_AP_STADISCONNECTED
  | WIFI_EVENT_unhandled (event_id : Z).

Inductive ip_event : Type :=
  | IP_EVENT_STA_GOT_IP
  | IP_EVENT_STA_LOST_IP
  | IP_EVENT_AP_STAIPASSIGNED
  | IP_EVENT_unhandled (event_id : Z).

Record wifi_err_reason_values : Set := mk_reasons {
  WIFI_REASON_NO_AP_FOUND : Z;
  WIFI_REASON_NO_AP_FOUND_W_COMPATIBLE_SECURITY : Z;
  WIFI_REASON_NO_AP_FOUND_IN_AUTHMODE_THRESHOLD : Z;
  WIFI_REASON_NO_AP_FOUND_IN_RSSI_THRESHOLD : Z;
  WIFI_REASON_AUTH_EXPIRE : Z;
  WIFI_REASON_AUTH_LEAVE : Z;
  WIFI_REASON_4WAY_HANDSHAKE_TIMEOUT : Z;
  WIFI_REASON_GROUP_KEY_UPDATE_TIMEOUT : Z;
  WIFI_REASON_802_1X_AUTH_FAILED : Z
}.

(** The reasons grouped under the first and under the second block of
    [case] labels in [wifiEventHandler]. *)
Definition reasons_no_ap (R : wifi_err_reason_values) : list Z :=
  [ WIFI_REASON_NO_AP_FOUND R;
    WIFI_REASON_NO_AP_FOUND_W_COMPATIBLE_SECURITY R;
    WIFI_REASON_NO_AP_FOUND_IN_AUTHMODE_THRESHOLD R;
    WIFI_REASON_NO_AP_FOUND_IN_RSSI_THRESHOLD R ].

Definition reasons_auth (R : wifi_err_reason_values) : list Z :=
  [ WIFI_REASON_AUTH_EXPIRE R;
    WIFI_REASON_AUTH_LEAVE R;
    WIFI_REASON_4WAY_HANDSHAKE_TIMEOUT R;
    WIFI_REASON_GROUP_KEY_UPDATE_TIMEOUT R;
    WIFI_REASON_802_1X_AUTH_FAILED R ].

Definition case_of (labels : list Z) (v : Z) : bool := existsb (Z.eqb v) labels.

(** The inner [switch (disconnected->reason)] of [wifiEventHandler]. *)
Definition disconnect_reason_result (R : wifi_err_reason_values) (reason : Z) : wl_status_t :=
  if case_of (reasons_no_ap R) reason then WL_NO_SSID_AVAIL
  else if case_of (reasons_auth R) reason then WL_WRONG_PASSWORD
  else WL_CONNECT_FAILED.

(** [WiFiManager::wifiEventHandler], on the Manager that [arg] points to
    (the handler is registered with [this]). *)
Definition wifiEventHandler (R : wifi_err_reason_values) (ev : wifi_event) : Op unit :=
  match ev with
  | WIFI_EVENT_STA_DISCONNECTED reason =>
      (modify (set_lastConxResult (disconnect_reason_result R reason)) ;;
       s <- get _state ;;
       if wm_state_eqb s WM_STATE_TRY_STA
       then modify (set_state WM_STATE_START_PORTAL)
       else ret tt)%op
  | _ => ret tt
  end.

(** [WiFiManager::ipEventHandler]. *)
Definition ipEventHandler (ev : ip_event) : Op unit :=
  match ev with
  | IP_EVENT_STA_GOT_IP =>
      (modify (set_lastConxResult WL_CONNECTED) ;;
       modify (set_state WM_STATE_RUN_STA) ;;
       cb <- get _saveConfigCallback ;;
       match cb with
       | Some f => emit (call_saveConfigCallback f)
       | None => ret tt
       end)%op
  | IP_EVENT_STA_LOST_IP => modify (set_lastConxResult WL_CONNECTION_LOST)
  | _ => ret tt
  end.

(** The two portal routes that write the state: the tail of
    [handleWifiSave] (reached once the submitted credentials were handed to
    the driver; [now] is its clock reading) and [handleExit].  Only their
    writes to the Manager's state-machine fields are modelled. *)
Definition handleWifiSave_tail (now : Z) : Op unit :=
  (modify (set_state WM_STATE_TRY_STA) ;;
   modify (set_connectStart now))%op.

Definition handleExit_tail : Op unit :=
  (modify (set_state WM_STATE_PORTAL_ABORT) ;;
   modify (set_portalAbortResult true))%op.

(** What other execution contexts can do to the Manager while the
    application thread sleeps. *)
Inductive async_event : Type :=
  | WifiEvent (ev : wifi_event)
  | IpEvent (ev : ip_event)
  | HttpWifiSave (now : Z)
  | HttpExit.

Definition deliver (R : wifi_err_reason_values) (ev : async_event) : Op unit :=
  match ev with
  | WifiEvent e => wifiEventHandler R e
  | IpEvent e => ipEventHandler e
  | HttpWifiSave now => handleWifiSave_tail now
  | HttpExit => handleExit_tail
  end.

Fixpoint deliver_all (R : wifi_err_reason_values) (evs : list async_event) : Op unit :=
  match evs with
  | [] => ret tt
  | ev :: rest => (deliver R ev ;; deliver_all R rest)%op
  end.

(** * The blocking wait of [startConfigPortalInternal]

    One pass of the [while] loop: the clock reading [updateState] takes,
    what is delivered during [vTaskDelay], and the clock reading of the
    loop's own timeout check. *)
Record loop_iteration : Type := mk_iteration {
  t_update : Z;
  delivered : list async_event;
  t_check : Z
}.

(** The statements after the loop: the function's return value. *)
Definition configPortal_result : Op (option bool) :=
  (s <- get _state ;; ret (Some (wm_state_eqb s WM_STATE_RUN_STA)))%op.

(** The loop over the passes observed; [None] when it is still waiting
    after the last of them. *)
Fixpoint configPortal_wait (R : wifi_err_reason_values) (passes : list loop_iteration)
  : Op (option bool) :=
  fun m =>
    if wm_state_eqb (_state m) WM_STATE_RUN_PORTAL || wm_state_eqb (_state m) WM_STATE_TRY_STA
    then
      match passes with
      | [] => (None, m, [])
      | it :: rest =>
          (modify (updateState (t_update it)) ;;
           emit (vTaskDelay_ms 100) ;;
           deliver_all R (delivered it) ;;
           tmo <- get _configPortalTimeout ;;
           start <- get _configPortalStart ;;
           if (tmo >? 0) && (elapsed (t_check it) start >? tmo)
           then (modify (set_state WM_STATE_PORTAL_TIMEOUT) ;; configPortal_result)
           else configPortal_wait R rest)%op m
      end
    else configPortal_result m.

(** * Captive DNS responder *)

Definition DNS_MAX_PACKET_SIZE : Z := 512.
Definition sizeof_dns_header_t : Z := 12.
Definition DNS_FLAG_RESPONSE : Z := 0x8000.
Definition DNS_FLAG_AA : Z := 0x0400.

(** A [uint16_t] of the packed header read through [ntohs], and the two
    octets [htons] stores. *)
Definition ntohs_at (buffer : list byte) (offset : nat) : Z :=
  u8 (nth offset buffer x00) * 256 + u8 (nth (S offset) buffer x00).

Definition htons_bytes (v : Z) : list byte := [to_byte (v / 256); to_byte v].

(** The header after the four assignments: identification kept, flags
    or-ed with QR and AA, answer count copied from the question count,
    authority and additional counts zeroed. *)
Definition dns_response_header (buffer : list byte) : list byte :=
  firstn 2 buffer
  ++ htons_bytes (Z.lor (Z.lor (ntohs_at buffer 2) DNS_FLAG_RESPONSE) DNS_FLAG_AA)
  ++ [nth 4 buffer x00; nth 5 buffer x00]
  ++ [nth 4 buffer x00; nth 5 buffer x00]
  ++ [x00; x00]
  ++ [x00; x00].

(** The sixteen octets written after the copy of the packet: a name
    pointer to offset 12, type A, class IN, TTL 60, length 4,
    192.168.4.1. *)
Definition dns_answer_record : list byte :=
  [ xc0; x0c;  x00; x01;  x00; x01;  x00; x00; x00; x3c;  x00; x04;
    xc0; xa8; x04; x01 ].

(** The body of [if (len >= sizeof(dns_header_t))]: [buffer] holds the
    [len] octets received. *)
Definition dns_build_response (buffer : list byte) : list byte :=
  let len := Z.of_nat (length buffer) in
  let response := dns_response_header buffer ++ skipn 12 buffer in
  if len + 16 <? DNS_MAX_PACKET_SIZE
  then response ++ dns_answer_record
  else response.

(** What [recvfrom] hands to one pass of the receive loop: a datagram and
    the address it came from, or an error. *)
Inductive recv_result : Type :=
  | recv_datagram (client_addr : sockaddr) (payload : list byte)
  | recv_error (would_block : bool).

(** One pass of the [while (manager->_dnsRunning)] loop of
    [dnsServerTask]; the result tells whether the loop goes on ([false]
    after the [break]).  [recvfrom] is given room for
    [sizeof(buffer) - 1] octets and cuts a longer datagram. *)
Definition dnsServerTask_pass (r : recv_result) : Op bool :=
  match r with
  | recv_datagram client_addr payload =>
      let buffer := firstn 511 payload in
      let len := Z.of_nat (length buffer) in
      ((if (len >? 0) && (len >=? sizeof_dns_header_t)
        then (fd <- get _dnsSocket ;;
              emit (sendto fd (dns_build_response buffer) client_addr))
        else ret tt) ;;
       emit (vTaskDelay_ms 10) ;;
       ret true)%op
  | recv_error would_block =>
      if would_block
      then (emit (vTaskDelay_ms 10) ;; ret true)%op
      else ret false
  end.

(** The [cleanup:] label of [dnsServerTask]; the task then deletes
    itself. *)
Definition dnsServerTask_cleanup : Op unit :=
  (fd <- get _dnsSocket ;;
   (if fd >=? 0
    then (emit (close fd) ;; modify (set_dnsSocket (-1)))
    else ret tt) ;;
   modify (set_dnsTaskHandle None))%op.

(** * Server teardown *)

(** [WiFiManager::stopHTTPServer]: the handle is cleared whatever
    [httpd_stop] returns. *)
Definition stopHTTPServer : Op unit :=
  (h <- get _httpServer ;;
   match h with
   | Some srv => (emit (httpd_stop srv) ;; modify (set_httpServer None))
   | None => ret tt
   end)%op.

(** The wait loop of [stopDNSServer], [while (_dnsTaskHandle && timeout-- > 0)].
    The DNS task runs in its own context: [exit_during] says during which
    delay, counted from 0, it reaches its [cleanup:] label ([None]: not
    while this loop runs). *)
Fixpoint stopDNSServer_wait (timeout : nat) (exit_during : option nat) : Op unit :=
  fun m =>
    match _dnsTaskHandle m, timeout with
    | Some _, S timeout' =>
        (emit (vTaskDelay_ms 100) ;;
         match exit_during with
         | Some O => (dnsServerTask_cleanup ;; stopDNSServer_wait timeout' None)
         | Some (S k) => stopDNSServer_wait timeout' (Some k)
         | None => stopDNSServer_wait timeout' None
         end)%op m
    | _, _ => (tt, m, [])
    end.

(** [WiFiManager::stopDNSServer]. *)
Definition stopDNSServer (exit_during : option nat) : Op unit :=
  (running <- get _dnsRunning ;;
   if negb running then ret tt
   else
     modify (set_dnsRunning false) ;;
     fd <- get _dnsSocket ;;
     (if fd >=? 0
      then (emit (close fd) ;; modify (set_dnsSocket (-1)))
      else ret tt) ;;
     stopDNSServer_wait 50 exit_during ;;
     h <- get _dnsTaskHandle ;;
     match h with
     | Some task => (emit (vTaskDelete task) ;; modify (set_dnsTaskHandle None))
     | None => ret tt
     end)%op.

(** [WiFiManager::stopServers]; the mutex is held throughout. *)
Definition stopServers (exit_during : option nat) : Op unit :=
  (busy <- get _cleanupInProgress ;;
   if negb busy then
     modify (set_cleanupInProgress true) ;;
     stopHTTPServer ;;
     stopDNSServer exit_during ;;
     modify (set_cleanupInProgress false)
   else ret tt)%op.

(** * Parameter registry *)

(** [WiFiManager::addParameter]; a null pointer is [None].  The
    comparison is made in [size_t] (32 bits on the target), to which the
    configured [int] is converted. *)
Definition addParameter (cfg : sdkconfig) (parameter : option WiFiManagerParameter)
    (m : WiFiManager) : WiFiManager :=
  match parameter with
  | Some p =>
      if Z.of_nat (length (_params m)) <? wrap_u32 (WM_MAX_CUSTOM_PARAMS cfg)
      then set_params (_params m ++ [p]) m
      else m
  | None => m
  end.

(** A run of registrations. *)
Definition addParameters (cfg : sdkconfig) (ps : list (option WiFiManagerParameter))
    (m : WiFiManager) : WiFiManager :=
  fold_left (fun acc p => addParameter cfg p acc) ps m.

(** * Scan filter *)

(** The C string held in a buffer: the octets before the first NUL. *)
Fixpoint c_str (buffer : list byte) : list byte :=
  match buffer with
  | [] => []
  | b :: rest => if Byte.eqb b x00 then [] else b :: c_str rest
  end.

Definition strlen (buffer : list byte) : Z := Z.of_nat (length (c_str buffer)).

Fixpoint bytes_eqb (a b : list byte) : bool :=
  match a, b with
  | [], [] => true
  | x :: a', y :: b' => Byte.eqb x y && bytes_eqb a' b'
  | _, _ => false
  end.

(** [strcmp(a, b) == 0]. *)
Definition strcmp_is_0 (a b : list byte) : bool := bytes_eqb (c_str a) (c_str b).

(** [WiFiManager::isDuplicateSSID]. *)
Definition isDuplicateSSID (name : list byte) (results : list wifi_ap_record_t) : bool :=
  existsb (fun ap => strcmp_is_0 (ssid ap) name) results.

(** [WiFiManager::calculateSignalQuality]; [int] arithmetic. *)
Definition calculateSignalQuality (rssi : Z) : Z :=
  let quality := wrap_s32 (2 * wrap_s32 (rssi + 100)) in
  let quality := if quality >? 100 then 100 else quality in
  let quality := if quality <? 0 then 0 else quality in
  quality.

(** The loop over [filtered] that [filterScanResults] runs on a duplicate:
    the first entry of the same name is overwritten when the new record is
    stronger, and the loop stops there. *)
Fixpoint keep_stronger (ap : wifi_ap_record_t) (filtered : list wifi_ap_record_t)
  : list wifi_ap_record_t :=
  match filtered with
  | [] => []
  | existing :: rest =>
      if strcmp_is_0 (ssid existing) (ssid ap)
      then (if s8 (rssi ap) >? s8 (rssi existing) then ap else existing) :: rest
      else existing :: keep_stronger ap rest
  end.

(** The body of the loop over [_rawScanResults]. *)
Definition filter_one (m : WiFiManager) (filtered : list wifi_ap_record_t)
    (ap : wifi_ap_record_t) : list wifi_ap_record_t :=
  if strlen (ssid ap) =? 0 then filtered
  else if (_minimumQuality m >? 0)
          && (calculateSignalQuality (s8 (rssi ap)) <? _minimumQuality m)
  then filtered
  else if _removeDuplicateAPs m && isDuplicateSSID (ssid ap) filtered
  then keep_stronger ap filtered
  else filtered ++ [ap].

Definition filter_pass (m : WiFiManager) (raw : list wifi_ap_record_t)
  : list wifi_ap_record_t :=
  fold_left (filter_one m) raw [].

(** [std::sort] with the comparator [a.rssi > b.rssi].  The standard fixes
    the result only up to the order of records of equal strength; this
    insertion sort leaves such records in the order of the input, as the
    library's insertion sort does on the short ranges a scan gives, and
    [sorted_by_signal] is all that the proofs below use of it. *)
Fixpoint insert_by_signal (ap : wifi_ap_record_t) (l : list wifi_ap_record_t)
  : list wifi_ap_record_t :=
  match l with
  | [] => [ap]
  | x :: rest =>
      if s8 (rssi ap) >=? s8 (rssi x) then ap :: l else x :: insert_by_signal ap rest
  end.

Definition sort_by_signal (l : list wifi_ap_record_t) : list wifi_ap_record_t :=
  fold_right insert_by_signal [] l.

(** What [std::sort] guarantees of its output [l'] for the input [l]. *)
Definition sorted_by_signal (l l' : list wifi_ap_record_t) : Prop :=
  Permutation l l' /\
  StronglySorted (fun a b => s8 (rssi a) >= s8 (rssi b)) l'.

(** [WiFiManager::filterScanResults]. *)
Definition filterScanResults (m : WiFiManager) : WiFiManager :=
  match _rawScanResults m with
  | [] => m
  | _ => set_rawScanResults (sort_by_signal (filter_pass m (_rawScanResults m))) m
  end.

(** The application thread and the other contexts interleaved in
    non-blocking mode: a tick, or something delivered between ticks. *)
Inductive step : Type :=
  | Tick (now : Z)
  | Async (ev : async_event).

Definition do_step (R : wifi_err_reason_values) (st : step) : Op unit :=
  match st with
  | Tick now => (process now ;; ret tt)%op
  | Async ev => deliver R ev
  end.

Fixpoint run (R : wifi_err_reason_values) (schedule : list step) : Op unit :=
  match schedule with
  | [] => ret tt
  | st :: rest => (do_step R st ;; run R rest)%op
  end.

(** States in which the machine has finished, and states in which it is
    at work. *)
Definition is_terminal (s : wm_state_t) : bool :=
  match s with
  | WM_STATE_RUN_STA | WM_STATE_PORTAL_ABORT | WM_STATE_PORTAL_TIMEOUT => true
  | _ => false
  end.

Definition is_active (s : wm_state_t) : bool :=
  match s with
  | WM_STATE_TRY_STA | WM_STATE_RUN_PORTAL => true
  | _ => false
  end.

(** The two guards of [updateState]. *)
Definition connect_timed_out (now : Z) (m : WiFiManager) : bool :=
  elapsed now (_connectStart m) >? _connectTimeout m.

Definition portal_timed_out (now : Z) (m : WiFiManager) : bool :=
  (_configPortalTimeout m >? 0)
  && (elapsed now (_configPortalStart m) >? _configPortalTimeout m).

(** The condition of the blocking wait loop. *)
Definition in_wait_loop (m : WiFiManager) : bool :=
  wm_state_eqb (_state m) WM_STATE_RUN_PORTAL || wm_state_eqb (_state m) WM_STATE_TRY_STA.

(** What no delivery changes: the portal timeout, the portal start marker
    and the blocking flag; and no delivery produces [PORTAL_TIMEOUT]. *)
Definition portal_clock_kept (m m' : WiFiManager) : Prop :=
  _configPortalTimeout m' = _configPortalTimeout m /\
  _configPortalStart m' = _configPortalStart m /\
  (_state m' = WM_STATE_PORTAL_TIMEOUT -> _state m = WM_STATE_PORTAL_TIMEOUT).

(** * Properties stated of the embedding *)

(** The specification's formula. *)
Definition clamp (v lo hi : Z) : Z := Z.max lo (Z.min v hi).
Definition spec_quality (rssi : Z) : Z := clamp (2 * (rssi + 100)) 0 100.

(** The values of [rssi] for which neither [rssi + 100] nor its double
    leaves the range of [int]. *)
Definition quality_in_range (rssi : Z) : Prop :=
  - 2 ^ 30 - 100 <= rssi <= 2 ^ 30 - 101.

(** The name, strength and quality of a scan record as the filter reads
    them. *)
Definition name (ap : wifi_ap_record_t) : list byte := c_str (ssid ap).
Definition strength (ap : wifi_ap_record_t) : Z := s8 (rssi ap).
Definition quality (ap : wifi_ap_record_t) : Z := calculateSignalQuality (strength ap).

(** The record survives the first two stages of the loop body. *)
Definition passes (m : WiFiManager) (ap : wifi_ap_record_t) : bool :=
  negb (strlen (ssid ap) =? 0)
  && negb ((_minimumQuality m >? 0) && (quality ap <? _minimumQuality m)).

(** The invariant of the filtering loop: [seen] are the raw records
    already visited, [acc] is [filtered]. *)
Record filter_inv (m : WiFiManager) (seen acc : list wifi_ap_record_t) : Prop := {
  inv_named : forall e, In e acc -> name e <> [];
  inv_quality : forall e, In e acc -> _minimumQuality m <= quality e;
  inv_from_raw : forall e, In e acc -> In e seen;
  inv_unique : _removeDuplicateAPs m = true -> NoDup (map name acc);
  inv_strongest :
    forall r, In r seen -> passes m r = true ->
      exists e, In e acc /\ name e = name r /\ strength r <= strength e
}.

(** What the filter guarantees: [raw] is the scan as received, [out] the
    list stored afterwards. *)
Record filtered_as_specified (m : WiFiManager) (raw out : list wifi_ap_record_t)
  : Prop := {
  out_named : forall e, In e out -> strlen (ssid e) <> 0;
  out_quality : forall e, In e out -> _minimumQuality m <= quality e;
  out_sorted : StronglySorted (fun a b => strength a >= strength b) out;
  out_from_raw : forall e, In e out -> In e raw;
  out_has_strongest :
    forall e r, In e out -> In r raw -> name r = name e ->
      exists e', In e' out /\ name e' = name e /\ strength r <= strength e';
  out_unique :
    _removeDuplicateAPs m = true ->
    NoDup (map name out) /\
    forall e r, In e out -> In r raw -> name r = name e -> strength r <= strength e;
  out_complete :
    forall r, In r raw -> name r <> [] -> _minimumQuality m <= quality r ->
      exists e, In e out /\ name e = name r /\ strength r <= strength e;
  out_all_kept :
    _removeDuplicateAPs m = false ->
    Permutation (filter (passes m) raw) out
}.

(** The claim's reading of the answer section: [n] answer records follow
    the copy of the received packet. *)
Definition appends_answers (n : nat) (buffer response : list byte) : Prop :=
  skipn (length buffer) response = concat (repeat dns_answer_record n).

(** Fields of an answer record laid out as [dns_answer_record] is. *)
Definition answer_type (rr : list byte) : Z := ntohs_at rr 2.
Definition answer_class (rr : list byte) : Z := ntohs_at rr 4.
Definition answer_ttl (rr : list byte) : Z := ntohs_at rr 6 * 65536 + ntohs_at rr 8.
Definition answer_rdlength (rr : list byte) : Z := ntohs_at rr 10.
Definition answer_address (rr : list byte) : list Z := map u8 (skipn 12 rr).

(** The socket is open only while the responder is marked running; it
    holds of a new Manager and after every teardown. *)
Definition dns_socket_owned (m : WiFiManager) : Prop :=
  _dnsRunning m = false -> _dnsSocket m < 0.

(** * Values for the examples

    [esp_idf_reasons] lists the enumerator values of ESP-IDF 5.x
    ([esp_wifi_types_generic.h]); [example_cfg] is a build configuration
    with twenty parameters, a 30-second connect timeout, a 180-second
    portal timeout, a minimum quality of 8 and duplicate removal on. *)
Definition esp_idf_reasons : wifi_err_reason_values :=
  {| WIFI_REASON_NO_AP_FOUND := 201;
     WIFI_REASON_NO_AP_FOUND_W_COMPATIBLE_SECURITY := 210;
     WIFI_REASON_NO_AP_FOUND_IN_AUTHMODE_THRESHOLD := 211;
     WIFI_REASON_NO_AP_FOUND_IN_RSSI_THRESHOLD := 212;
     WIFI_REASON_AUTH_EXPIRE := 2;
     WIFI_REASON_AUTH_LEAVE := 3;
     WIFI_REASON_4WAY_HANDSHAKE_TIMEOUT := 15;
     WIFI_REASON_GROUP_KEY_UPDATE_TIMEOUT := 16;
     WIFI_REASON_802_1X_AUTH_FAILED := 23 |}.

Definition example_cfg : sdkconfig :=
  {| CONFIG_WM_MAX_CUSTOM_PARAMS := 20;
     CONFIG_WM_DEFAULT_CONNECT_TIMEOUT := 30;
     CONFIG_WM_DEFAULT_PORTAL_TIMEOUT := 180;
     CONFIG_WM_MIN_SIGNAL_QUALITY := 8;
     CONFIG_WM_REMOVE_DUP_APS := true |}.

(** A freshly constructed Manager, and the same put into a given state. *)
Definition fresh : WiFiManager := WiFiManager_new example_cfg.
Definition fresh_in (s : wm_state_t) : WiFiManager := set_state s fresh.

(** A Manager whose portal is up: HTTP server started, DNS task running
    with its socket open. *)
Definition portal_running : WiFiManager :=
  set_dnsSocket 54
    (set_dnsRunning true
       (set_dnsTaskHandle (Some 2)
          (set_httpServer (Some 1) (fresh_in WM_STATE_RUN_PORTAL)))).

(** Two distinct parameter objects carrying the identifier ["server"]. *)
Definition server_param : WiFiManagerParameter :=
  {| _id := [x73; x65; x72; x76; x65; x72];
     _placeholder := []; _label := []; _value := []; _customHTML := [];
     _length := 40; _type := 0 |}.

Definition server_param_again : WiFiManagerParameter :=
  {| _id := [x73; x65; x72; x76; x65; x72];
     _placeholder := []; _label := []; _value := [x31]; _customHTML := [];
     _length := 16; _type := 0 |}.

(** A query for the name [x], type A, class IN, with one question; the
    same with a second question for [y]. *)
Definition one_question_query : list byte :=
  [ x12; x34;  x01; x00;  x00; x01;  x00; x00;  x00; x00;  x00; x00;
    x01; x78; x00;  x00; x01;  x00; x01 ].

Definition two_question_query : list byte :=
  [ x12; x34;  x01; x00;  x00; x02;  x00; x00;  x00; x00;  x00; x00;
    x01; x78; x00;  x00; x01;  x00; x01;
    x01; x79; x00;  x00; x01;  x00; x01 ].

(** A scan with two access points named HomeNet (the first buffer with
    octets left over after the terminator), a hidden network, one below
    the default minimum quality and one more. *)
Definition ap_home_far : wifi_ap_record_t :=
  {| ssid := [x48; x6f; x6d; x65; x4e; x65; x74; x00; x7a; x7a];
     rssi := to_byte (-60); primary := 1; authmode := 3 |}.

Definition ap_home_near : wifi_ap_record_t :=
  {| ssid := [x48; x6f; x6d; x65; x4e; x65; x74; x00];
     rssi := to_byte (-50); primary := 6; authmode := 3 |}.

Definition ap_hidden : wifi_ap_record_t :=
  {| ssid := [x00]; rssi := to_byte (-40); primary := 11; authmode := 3 |}.

Definition ap_weak : wifi_ap_record_t :=
  {| ssid := [x57; x65; x61; x6b; x00];
     rssi := to_byte (-97); primary := 1; authmode := 0 |}.

Definition ap_cafe : wifi_ap_record_t :=
  {| ssid := [x43; x61; x66; x65; x00];
     rssi := to_byte (-70); primary := 3; authmode := 0 |}.

Definition example_scan : list wifi_ap_record_t :=
  [ap_home_far; ap_hidden; ap_home_near; ap_weak; ap_cafe].

(** * More of the Manager: status getters, DNS start, connect wait *)

(** [WiFiManager::isConfigPortalActive] and [isWebPortalActive]. *)
Definition isConfigPortalActive (m : WiFiManager) : bool :=
  wm_state_eqb (_state m) WM_STATE_RUN_PORTAL.

Definition isWebPortalActive (m : WiFiManager) : bool :=
  match _httpServer m with Some _ => true | None => false end.

(** [WiFiManager::startDNSServer].  [created] is what [xTaskCreate] does:
    the handle it stores on [pdPASS], [None] when it fails (the handle is
    then left as it was). *)
Definition startDNSServer (created : option handle) : Op bool :=
  (running <- get _dnsRunning ;;
   if running then ret true
   else
     modify (set_dnsRunning true) ;;
     match created with
     | Some task => (modify (set_dnsTaskHandle (Some task)) ;; ret true)
     | None => (modify (set_dnsRunning false) ;; ret false)
     end)%op.

(** The start of [dnsServerTask], up to its receive loop: [fd] is what
    [socket] returns and [bound] whether [bind] succeeds.  The result tells
    whether the task enters the loop; otherwise it has gone through
    [cleanup:]. *)
Definition dnsServerTask_start (fd : Z) (bound : bool) : Op bool :=
  (modify (set_dnsSocket fd) ;;
   if fd <? 0 then (dnsServerTask_cleanup ;; ret false)
   else if bound then ret true
   else (dnsServerTask_cleanup ;; ret false))%op.

(** The fields of the Manager that no server start or stop touches. *)
Definition servers_frame (m m' : WiFiManager) : Prop :=
  _state m' = _state m /\
  _connectTimeout m' = _connectTimeout m /\
  _configPortalTimeout m' = _configPortalTimeout m /\
  _configPortalBlocking m' = _configPortalBlocking m /\
  _minimumQuality m' = _minimumQuality m /\
  _removeDuplicateAPs m' = _removeDuplicateAPs m /\
  _rawScanResults m' = _rawScanResults m /\
  _params m' = _params m /\
  _saveConfigCallback m' = _saveConfigCallback m /\
  _lastConxResult m' = _lastConxResult m /\
  _portalAbortResult m' = _portalAbortResult m /\
  _configPortalStart m' = _configPortalStart m /\
  _connectStart m' = _connectStart m.

(** The connect wait of [autoConnect] (lines 191-213), entered once the
    saved credentials were handed to the driver at clock reading [now].
    The loop over the passes observed tells whether it was left ([false]:
    still waiting after the last pass). *)
Fixpoint autoConnect_wait_loop (R : wifi_err_reason_values) (passes : list loop_iteration)
  : Op bool :=
  fun m =>
    if wm_state_eqb (_state m) WM_STATE_TRY_STA
    then
      match passes with
      | [] => (false, m, [])
      | it :: rest =>
          (modify (updateState (t_update it)) ;;
           emit (vTaskDelay_ms 100) ;;
           deliver_all R (delivered it) ;;
           start <- get _connectStart ;;
           tmo <- get _connectTimeout ;;
           if elapsed (t_check it) start >? tmo
           then ret true
           else autoConnect_wait_loop R rest)%op m
      end
    else (true, m, []).

(** How the connect wait ends: [autoConnect] returns, goes on to start the
    configuration portal, or is still waiting. *)
Inductive wait_outcome : Type :=
  | returned (result : bool)
  | falls_through
  | still_waiting.

Definition autoConnect_wait (R : wifi_err_reason_values) (now : Z)
    (passes : list loop_iteration) : Op wait_outcome :=
  (modify (set_state WM_STATE_TRY_STA) ;;
   modify (set_connectStart now) ;;
   blocking <- get _configPortalBlocking ;;
   if blocking
   then
     left <- autoConnect_wait_loop R passes ;;
     if left
     then
       s <- get _state ;;
       if wm_state_eqb s WM_STATE_RUN_STA then ret (returned true) else ret falls_through
     else ret still_waiting
   else ret (returned true))%op.

(** Events of the network stack, as opposed to portal requests. *)
Definition is_network_event (ev : async_event) : bool :=
  match ev with
  | WifiEvent _ | IpEvent _ => true
  | HttpWifiSave _ | HttpExit => false
  end.

(** How often a list of platform calls closes the descriptor [fd]. *)
Definition is_close (fd : Z) (e : effect) : bool :=
  match e with
  | close fd' => fd' =? fd
  | _ => false
  end.

Definition closes_of (fd : Z) (calls : list effect) : nat :=
  length (filter (is_close fd) calls).

(** The calls of the wait in [stopDNSServer] for a task that is alive when
    the wait starts: the delays slept, then the forced deletion when the
    task has not exited within fifty of them. *)
Definition stop_wait_calls (task : handle) (exit_during : option nat) : list effect :=
  match exit_during with
  | Some n =>
      if (n <? 50)%nat
      then repeat (vTaskDelay_ms 100) (S n)
      else repeat (vTaskDelay_ms 100) 50 ++ [vTaskDelete task]
  | None => repeat (vTaskDelay_ms 100) 50 ++ [vTaskDelete task]
  end.

(** An operation that leaves the fields of [servers_frame] alone. *)
Definition keeps_frame {A} (c : Op A) : Prop :=
  forall m, servers_frame m (manager_of (c m)).

(** * WiFiManagerParameter.cpp *)

(** A [const char*] argument: null, or the buffer it points to.  The
    [std::string] built from it holds the C string of the buffer. *)
Definition string_of (p : option (list byte)) : list byte :=
  match p with
  | Some buffer => c_str buffer
  | None => []
  end.

(** [static_cast<int>] of a [size_t] length. *)
Definition int_of_size (n : nat) : Z := wrap_s32 (Z.of_nat n).

(** [WiFiManagerParameter::init], as run by the six-argument
    constructor. *)
Definition WiFiManagerParameter_init
    (id placeholder defaultValue : option (list byte)) (len : Z)
    (custom : option (list byte)) (type : Z) : WiFiManagerParameter :=
  {| _id := string_of id;
     _placeholder := string_of placeholder;
     _label := string_of placeholder;
     _value := string_of defaultValue;
     _customHTML := string_of custom;
     _length := Z.max len (int_of_size (length (string_of defaultValue)));
     _type := type |}.

(** The constructor for a custom HTML fragment; [WMP_TYPE_TEXT] is 0. *)
Definition WiFiManagerParameter_custom (customHtml : option (list byte))
  : WiFiManagerParameter :=
  {| _id := []; _placeholder := []; _label := []; _value := [];
     _customHTML := string_of customHtml;
     _length := 0;
     _type := 0 |}.

Definition set_value (v : list byte) (p : WiFiManagerParameter) : WiFiManagerParameter :=
  {| _id := _id p; _placeholder := _placeholder p; _label := _label p;
     _value := v; _customHTML := _customHTML p;
     _length := _length p; _type := _type p |}.

Definition set_length (n : Z) (p : WiFiManagerParameter) : WiFiManagerParameter :=
  {| _id := _id p; _placeholder := _placeholder p; _label := _label p;
     _value := _value p; _customHTML := _customHTML p;
     _length := n; _type := _type p |}.

(** The closing lines of the setters: "update length if necessary". *)
Definition grow_length (p : WiFiManagerParameter) : WiFiManagerParameter :=
  if int_of_size (length (_value p)) >? _length p
  then set_length (int_of_size (length (_value p))) p
  else p.

(** [setValue(const char* value, int length = -1)]. *)
Definition setValue (value : option (list byte)) (len : Z) (p : WiFiManagerParameter)
  : WiFiManagerParameter :=
  match value with
  | None => set_value [] p
  | Some buffer =>
      let p' :=
        if len >=? 0
        then set_value
               (firstn (Z.to_nat (Z.min len (int_of_size (length (c_str buffer)))))
                  (c_str buffer)) p
        else set_value (c_str buffer) p in
      grow_length p'
  end.

(** [setValue(const std::string& value)]: through [c_str()] and
    [length()]. *)
Definition setValue_string (value : list byte) (p : WiFiManagerParameter)
  : WiFiManagerParameter :=
  setValue (Some value) (int_of_size (length value)) p.

(** [setValue(std::string_view value)]. *)
Definition setValue_view (value : list byte) (p : WiFiManagerParameter)
  : WiFiManagerParameter :=
  grow_length (set_value value p).

(** The value fits the recorded length. *)
Definition value_fits (p : WiFiManagerParameter) : Prop :=
  Z.of_nat (length (_value p)) <= _length p.

(** * The form handler: [handleWifiSave] *)

(** ** The C library calls it makes *)

(** An array write [b[k] = v], inside the array. *)
Fixpoint store (k : nat) (v : byte) (b : list byte) {struct b} : list byte :=
  match b, k with
  | [], _ => []
  | _ :: rest, O => v :: rest
  | x :: rest, S k' => x :: store k' v rest
  end.

(** [strncpy(dst, src, n)]: the characters of the C string [src], at most
    [n], then NULs up to [n] octets written. *)
Definition strncpy (dst src : list byte) (n : nat) : list byte :=
  let copied := firstn n (c_str src) in
  copied ++ repeat x00 (n - length copied) ++ skipn n dst.

Fixpoint starts_with (needle s : list byte) : bool :=
  match needle, s with
  | [], _ => true
  | x :: needle', y :: s' => Byte.eqb x y && starts_with needle' s'
  | _ :: _, [] => false
  end.

(** [strstr(s, needle)] on the characters of a C string: the rest of [s]
    from the first occurrence of [needle], or [None] for a null
    pointer. *)
Fixpoint strstr (s needle : list byte) : option (list byte) :=
  match s with
  | [] => if starts_with needle [] then Some [] else None
  | _ :: rest => if starts_with needle s then Some s else strstr rest needle
  end.

(** [strchr(s, c)] as the offset of the first [c]. *)
Fixpoint strchr (s : list byte) (c : byte) : option nat :=
  match s with
  | [] => None
  | x :: rest => if Byte.eqb x c then Some O else option_map S (strchr rest c)
  end.

(** [isspace] in the C locale. *)
Definition isspace (c : byte) : bool :=
  (u8 c =? 32) || ((9 <=? u8 c) && (u8 c <=? 13)).

(** The value of a character as a digit, up to base 36. *)
Definition digit_of (c : byte) : option Z :=
  if (48 <=? u8 c) && (u8 c <=? 57) then Some (u8 c - 48)
  else if (65 <=? u8 c) && (u8 c <=? 90) then Some (u8 c - 55)
  else if (97 <=? u8 c) && (u8 c <=? 122) then Some (u8 c - 87)
  else None.

Fixpoint strtol_digits (base acc : Z) (s : list byte) : Z :=
  match s with
  | [] => acc
  | c :: rest =>
      match digit_of c with
      | Some d => if d <? base then strtol_digits base (acc * base + d) rest else acc
      | None => acc
      end
  end.

Fixpoint skip_spaces (s : list byte) : list byte :=
  match s with
  | [] => []
  | c :: rest => if isspace c then skip_spaces rest else s
  end.

Definition LONG_MAX : Z := 2 ^ 31 - 1.
Definition LONG_MIN : Z := - 2 ^ 31.

(** [strtol(nptr, NULL, 16)]: white space, an optional sign, an optional
    [0x], then hexadecimal digits; 0 when there is none; the value is
    held to the range of [long]. *)
Definition strtol_16 (nptr : list byte) : Z :=
  let s := skip_spaces (c_str nptr) in
  let '(negative, s) :=
    match s with
    | c :: rest =>
        if Byte.eqb c x2d then (true, rest)
        else if Byte.eqb c x2b then (false, rest)
        else (false, s)
    | [] => (false, s)
    end in
  let s :=
    match s with
    | z :: x :: rest =>
        if Byte.eqb z x30 && (Byte.eqb x x78 || Byte.eqb x x58) then rest else s
    | _ => s
    end in
  let v := strtol_digits 16 0 s in
  if negative then Z.max (- v) LONG_MIN else Z.min v LONG_MAX.

(** ** URL decoding *)

(** The decoding loop, written three times over in the handler (for the
    SSID, the password and a parameter value): it rewrites the array in
    place, reading at [i] and writing at [j <= i], while [i <= len].
    [+] becomes a space; [%] with [i + 2 <= len] is replaced by the
    octet [strtol] reads from the next two characters; anything else is
    copied.  Every pass advances [i], so [S len - i] passes are enough;
    [fuel] counts them. *)
Fixpoint url_decode_loop (fuel len i j : nat) (b : list byte) : list byte :=
  match fuel with
  | O => b
  | S fuel' =>
      if (i <=? len)%nat then
        if Byte.eqb (nth i b x00) x2b then
          url_decode_loop fuel' len (S i) (S j) (store j x20 b)
        else if Byte.eqb (nth i b x00) x25 && (i + 2 <=? len)%nat then
          let hex := [nth (i + 1) b x00; nth (i + 2) b x00; x00] in
          url_decode_loop fuel' len (S (i + 2)) (S j)
            (store j (to_byte (strtol_16 hex)) b)
        else
          url_decode_loop fuel' len (S i) (S j) (store j (nth i b x00) b)
      else b
  end.

Definition url_decode (len : nat) (b : list byte) : list byte :=
  url_decode_loop (S len) len 0 0 b.

(** ** Reading the fields *)

(** [end ? (end - start) : strlen(start)], for [end = strchr(start, '&')]. *)
Definition field_length (start : list byte) : nat :=
  match strchr start x26 with
  | Some offset => offset
  | None => length start
  end.

(** The SSID and password blocks: [param] is what [strstr] returned for
    the two-character key, [size] the size of the zeroed array.  The
    result is the array after the decoding loop. *)
Definition read_credential (size : nat) (param : option (list byte)) : list byte :=
  match param with
  | Some at_key =>
      let start := skipn 2 at_key in
      let len := field_length start in
      let len := if (len <? size - 1)%nat then len else (size - 1)%nat in
      let buffer := store len x00 (strncpy (repeat x00 size) start len) in
      url_decode len buffer
  | None => repeat x00 size
  end.

(** The body of the loop over [_params]. *)
Definition update_parameter (body : list byte) (param : WiFiManagerParameter)
  : WiFiManagerParameter :=
  let param_key := c_str (_id param) ++ [x3d] in
  match strstr body param_key with
  | Some at_key =>
      let param_start := skipn (length param_key) at_key in
      let len := field_length param_start in
      if (0 <? len)%nat && (len <? 256)%nat then
        let param_value := strncpy (repeat x00 256) param_start len in
        setValue (Some (url_decode len param_value)) (-1) param
      else param
  | None => param
  end.

(** ** The handler *)

Definition ESP_OK : Z := 0.
Definition ESP_FAIL : Z := -1.

(** What [httpd_req_recv] did: stored octets in [buf] and returned their
    number, returned [HTTPD_SOCK_ERR_TIMEOUT], or returned another
    negative code. *)
Inductive http_recv : Type :=
  | http_body (octets : list byte)
  | http_timeout
  | http_error.

(** The sizes of the two arrays of the driver's station configuration
    (declared by the Wi-Fi driver's headers). *)
Record sta_config_layout : Type := {
  sizeof_sta_ssid : nat;
  sizeof_sta_password : nat
}.

(** What the handler is handed by its environment: the request body as
    received, the return codes of the driver and server calls, and the
    reading of the clock. *)
Record wifisave_request : Type := {
  received : http_recv;
  set_mode_ret : Z;
  set_config_ret : Z;
  connect_ret : Z;
  clock_reading : Z;
  send_ret : Z
}.

Inductive portal_page : Type :=
  | page_ssid_required
  | page_connecting.

(** The calls the handler makes to the HTTP server, the Wi-Fi driver and
    the scheduler.  The station configuration is given by the content of
    its two arrays. *)
Inductive portal_call : Type :=
  | httpd_resp_send_408
  | httpd_resp_send_500
  | httpd_resp_set_type_html
  | httpd_resp_send (page : portal_page)
  | esp_wifi_set_mode_APSTA
  | esp_wifi_set_config_STA (sta_ssid sta_password : list byte)
  | esp_wifi_disconnect
  | esp_wifi_connect
  | vTaskDelay (ms : Z).

(** The station configuration the handler builds from the two decoded
    arrays. *)
Definition sta_config (layout : sta_config_layout) (ssid password : list byte)
  : portal_call :=
  esp_wifi_set_config_STA
    (strncpy (repeat x00 (sizeof_sta_ssid layout)) ssid (sizeof_sta_ssid layout - 1))
    (if strlen password >? 0
     then strncpy (repeat x00 (sizeof_sta_password layout)) password
            (sizeof_sta_password layout - 1)
     else repeat x00 (sizeof_sta_password layout)).

(** [WiFiManager::handleWifiSave]: the handler's return code, the
    Manager after it, and the calls made, in order.  [buf] holds 1024
    octets, of which at most 1023 are received.  The same parameter
    object registered twice is updated twice from the same body, to the
    same effect as once. *)
Definition handleWifiSave (layout : sta_config_layout) (req : wifisave_request)
    (m : WiFiManager) : Z * WiFiManager * list portal_call :=
  match received req with
  | http_timeout => (ESP_FAIL, m, [httpd_resp_send_408])
  | http_error => (ESP_FAIL, m, [])
  | http_body octets =>
      let buf := firstn 1023 octets in
      if (length buf <=? 0)%nat then (ESP_FAIL, m, [])
      else
        let body := c_str buf in
        let ssid_param := strstr body [x73; x3d] in
        let pass_param := strstr body [x70; x3d] in
        let m := set_params (map (update_parameter body) (_params m)) m in
        let ssid := read_credential 33 ssid_param in
        let password := read_credential 65 pass_param in
        if strlen ssid =? 0 then
          (ESP_OK, m, [httpd_resp_set_type_html; httpd_resp_send page_ssid_required])
        else if negb (set_mode_ret req =? ESP_OK) then
          (ESP_FAIL, m, [esp_wifi_set_mode_APSTA; httpd_resp_send_500])
        else if negb (set_config_ret req =? ESP_OK) then
          (ESP_FAIL, m,
           [esp_wifi_set_mode_APSTA; vTaskDelay 500;
            sta_config layout ssid password; httpd_resp_send_500])
        else
          let m := set_connectStart (clock_reading req) (set_state WM_STATE_TRY_STA m) in
          let calls :=
            [esp_wifi_set_mode_APSTA; vTaskDelay 500;
             sta_config layout ssid password;
             esp_wifi_disconnect; esp_wifi_connect;
             httpd_resp_set_type_html; httpd_resp_send page_connecting] in
          if negb (send_ret req =? ESP_OK) then (send_ret req, m, calls)
          else (ESP_OK, m, calls ++ [vTaskDelay 1000])
  end.

(** ** The encoding a browser submits *)

(** [application/x-www-form-urlencoded]: letters, digits and [*-._] as
    they are, a space as [+], any other octet as [%] and two hexadecimal
    digits. *)
Definition is_unreserved (c : byte) : bool :=
  ((48 <=? u8 c) && (u8 c <=? 57)) || ((65 <=? u8 c) && (u8 c <=? 90))
  || ((97 <=? u8 c) && (u8 c <=? 122))
  || (u8 c =? 42) || (u8 c =? 45) || (u8 c =? 46) || (u8 c =? 95).

Definition hex_digit (n : Z) : byte :=
  nth (Z.to_nat n)
    [x30; x31; x32; x33; x34; x35; x36; x37; x38; x39; x41; x42; x43; x44; x45; x46] x30.

Definition urlencode_octet (c : byte) : list byte :=
  if Byte.eqb c x20 then [x2b]
  else if is_unreserved c then [c]
  else [x25; hex_digit (u8 c / 16); hex_digit (u8 c mod 16)].

Definition form_urlencode (s : list byte) : list byte := flat_map urlencode_octet s.

(** What the loop computes, read off the characters from [i] to [len]
    (the terminator included). *)
Fixpoint url_decoded (src : list byte) : list byte :=
  match src with
  | [] => []
  | c :: rest =>
      if Byte.eqb c x2b then x20 :: url_decoded rest
      else
        match rest with
        | h1 :: h2 :: rest' =>
            if Byte.eqb c x25
            then to_byte (strtol_16 [h1; h2; x00]) :: url_decoded rest'
            else c :: url_decoded rest
        | _ => c :: url_decoded rest
        end
  end.

Definition is_response (c : portal_call) : bool :=
  match c with
  | httpd_resp_send_408 | httpd_resp_send_500 | httpd_resp_send _ => true
  | _ => false
  end.

Definition is_connect (c : portal_call) : bool :=
  match c with
  | esp_wifi_connect => true
  | _ => false
  end.

(** A submitted form: its fields, by name and value, in the order of the
    body; the body a browser makes of them. *)
Definition form_field : Type := (list byte * list byte)%type.

Definition field_text (f : form_field) : list byte :=
  fst f ++ x3d :: form_urlencode (snd f).

Fixpoint form_body (fields : list form_field) : list byte :=
  match fields with
  | [] => []
  | f :: rest =>
      field_text f ++
      match rest with
      | [] => []
      | _ :: _ => x26 :: form_body rest
      end
  end.

(** The characters a field name is made of: any but [=], [&] and NUL. *)
Definition name_ok (name : list byte) : Prop :=
  Forall (fun c => c <> x3d /\ c <> x26 /\ c <> x00) name.

(** [id] is the end of [name]. *)
Fixpoint ends_with (id name : list byte) : bool :=
  bytes_eqb id name ||
  match name with
  | [] => false
  | _ :: name' => ends_with id name'
  end.

(** The value of the first field whose name ends with [id]. *)
Fixpoint find_field (id : list byte) (fields : list form_field) : option (list byte) :=
  match fields with
  | [] => None
  | f :: rest => if ends_with id (fst f) then Some (snd f) else find_field id rest
  end.

(** The characters the loop has still to read: from [i] to [len]. *)
Definition unread (len i : nat) (b : list byte) : list byte :=
  firstn (S len - i) (skipn i b).

Definition plus_to_space (c : byte) : byte := if Byte.eqb c x2b then x20 else c.

(** What follows a field in the body. *)
Definition after_field (rest : list form_field) : list byte :=
  match rest with
  | [] => []
  | _ :: _ => x26 :: form_body rest
  end.

(** The content of a zeroed array of [size] octets that holds [text]. *)
Definition array_of (size : nat) (text : list byte) : list byte :=
  text ++ repeat x00 (size - length text).

(** A parameter [ip], and a form whose field [server_ip] precedes the
    field [ip]; a form with the portal's own fields [s] and [p]. *)
Definition ip_param : WiFiManagerParameter :=
  {| _id := [x69; x70];
     _placeholder := []; _label := []; _value := []; _customHTML := [];
     _length := 15; _type := 0 |}.

Definition two_address_fields : list form_field :=
  [ ([x73; x65; x72; x76; x65; x72; x5f; x69; x70],
     [x31; x30; x2e; x30; x2e; x30; x2e; x31]);
    ([x69; x70],
     [x31; x30; x2e; x30; x2e; x30; x2e; x32]) ].

Definition credential_fields : list form_field :=
  [ ([x73], [x4d; x79; x20; x4e; x65; x74]);
    ([x70], [x70; x26; x73; x3d; x31]) ].

Definition esp_idf_layout : sta_config_layout :=
  {| sizeof_sta_ssid := 32; sizeof_sta_password := 64 |}.

Definition credential_request : wifisave_request :=
  {| received := http_body (form_body credential_fields);
     set_mode_ret := ESP_OK;
     set_config_ret := ESP_OK;
     connect_ret := ESP_OK;
     clock_reading := 1000;
     send_ret := ESP_OK |}.

(** * wm_wifi.c: the second classification of disconnect reasons *)

(** The reasons [wm_map_disconnect_reason] names beyond those of
    [wifiEventHandler]; their values come from the driver's headers. *)
Record wifi_err_reason_more : Set := mk_more_reasons {
  WIFI_REASON_UNSPECIFIED : Z;
  WIFI_REASON_ASSOC_EXPIRE : Z;
  WIFI_REASON_ASSOC_TOOMANY : Z;
  WIFI_REASON_NOT_AUTHED : Z;
  WIFI_REASON_NOT_ASSOCED : Z;
  WIFI_REASON_ASSOC_LEAVE : Z;
  WIFI_REASON_ASSOC_NOT_AUTHED : Z;
  WIFI_REASON_DISASSOC_PWRCAP_BAD : Z;
  WIFI_REASON_DISASSOC_SUPCHAN_BAD : Z;
  WIFI_REASON_BSS_TRANSITION_DISASSOC : Z;
  WIFI_REASON_IE_INVALID : Z;
  WIFI_REASON_MIC_FAILURE : Z;
  WIFI_REASON_IE_IN_4WAY_DIFFERS : Z;
  WIFI_REASON_GROUP_CIPHER_INVALID : Z;
  WIFI_REASON_PAIRWISE_CIPHER_INVALID : Z;
  WIFI_REASON_AKMP_INVALID : Z;
  WIFI_REASON_UNSUPP_RSN_IE_VERSION : Z;
  WIFI_REASON_INVALID_RSN_IE_CAP : Z;
  WIFI_REASON_CIPHER_SUITE_REJECTED : Z;
  WIFI_REASON_INVALID_PMKID : Z;
  WIFI_REASON_BEACON_TIMEOUT : Z;
  WIFI_REASON_AP_TSF_RESET : Z;
  WIFI_REASON_ROAMING : Z
}.

(** The second block of [case] labels of [wm_map_disconnect_reason], in
    the order of the source. *)
Definition map_reasons_auth (R : wifi_err_reason_values) (M : wifi_err_reason_more)
  : list Z :=
  [ WIFI_REASON_AUTH_EXPIRE R;
    WIFI_REASON_AUTH_LEAVE R;
    WIFI_REASON_ASSOC_EXPIRE M;
    WIFI_REASON_ASSOC_TOOMANY M;
    WIFI_REASON_NOT_AUTHED M;
    WIFI_REASON_NOT_ASSOCED M;
    WIFI_REASON_ASSOC_LEAVE M;
    WIFI_REASON_ASSOC_NOT_AUTHED M;
    WIFI_REASON_DISASSOC_PWRCAP_BAD M;
    WIFI_REASON_DISASSOC_SUPCHAN_BAD M;
    WIFI_REASON_BSS_TRANSITION_DISASSOC M;
    WIFI_REASON_IE_INVALID M;
    WIFI_REASON_MIC_FAILURE M;
    WIFI_REASON_4WAY_HANDSHAKE_TIMEOUT R;
    WIFI_REASON_GROUP_KEY_UPDATE_TIMEOUT R;
    WIFI_REASON_IE_IN_4WAY_DIFFERS M;
    WIFI_REASON_GROUP_CIPHER_INVALID M;
    WIFI_REASON_PAIRWISE_CIPHER_INVALID M;
    WIFI_REASON_AKMP_INVALID M;
    WIFI_REASON_UNSUPP_RSN_IE_VERSION M;
    WIFI_REASON_INVALID_RSN_IE_CAP M;
    WIFI_REASON_802_1X_AUTH_FAILED R;
    WIFI_REASON_CIPHER_SUITE_REJECTED M;
    WIFI_REASON_INVALID_PMKID M;
    WIFI_REASON_BEACON_TIMEOUT M;
    WIFI_REASON_AP_TSF_RESET M;
    WIFI_REASON_ROAMING M ].

(** [wm_map_disconnect_reason]; [WIFI_REASON_UNSPECIFIED] shares the
    [default] label. *)
Definition wm_map_disconnect_reason
    (R : wifi_err_reason_values) (M : wifi_err_reason_more) (reason : Z) : wl_status_t :=
  if case_of (reasons_no_ap R) reason then WL_NO_SSID_AVAIL
  else if case_of (map_reasons_auth R M) reason then WL_WRONG_PASSWORD
  else WL_CONNECT_FAILED.


(** The reasons on which the two classifications part. *)
Definition reasons_only_mapped (M : wifi_err_reason_more) : list Z :=
  [ WIFI_REASON_ASSOC_EXPIRE M;
    WIFI_REASON_ASSOC_TOOMANY M;
    WIFI_REASON_NOT_AUTHED M;
    WIFI_REASON_NOT_ASSOCED M;
    WIFI_REASON_ASSOC_LEAVE M;
    WIFI_REASON_ASSOC_NOT_AUTHED M;
    WIFI_REASON_DISASSOC_PWRCAP_BAD M;
    WIFI_REASON_DISASSOC_SUPCHAN_BAD M;
    WIFI_REASON_BSS_TRANSITION_DISASSOC M;
    WIFI_REASON_IE_INVALID M;
    WIFI_REASON_MIC_FAILURE M;
    WIFI_REASON_IE_IN_4WAY_DIFFERS M;
    WIFI_REASON_GROUP_CIPHER_INVALID M;
    WIFI_REASON_PAIRWISE_CIPHER_INVALID M;
    WIFI_REASON_AKMP_INVALID M;
    WIFI_REASON_UNSUPP_RSN_IE_VERSION M;
    WIFI_REASON_INVALID_RSN_IE_CAP M;
    WIFI_REASON_CIPHER_SUITE_REJECTED M;
    WIFI_REASON_INVALID_PMKID M;
    WIFI_REASON_BEACON_TIMEOUT M;
    WIFI_REASON_AP_TSF_RESET M;
    WIFI_REASON_ROAMING M ].

(** The labels of the switch of [wm_map_disconnect_reason] are pairwise
    distinct, as the language requires of [case] labels; they are listed
    here with those that [wifiEventHandler] names first. *)
Definition labels_distinct (R : wifi_err_reason_values) (M : wifi_err_reason_more) : Prop :=
  NoDup (WIFI_REASON_UNSPECIFIED M
         :: reasons_no_ap R ++ reasons_auth R ++ reasons_only_mapped M).

Definition esp_idf_more_reasons : wifi_err_reason_more :=
  {| WIFI_REASON_UNSPECIFIED := 1;
     WIFI_REASON_ASSOC_EXPIRE := 4;
     WIFI_REASON_ASSOC_TOOMANY := 5;
     WIFI_REASON_NOT_AUTHED := 6;
     WIFI_REASON_NOT_ASSOCED := 7;
     WIFI_REASON_ASSOC_LEAVE := 8;
     WIFI_REASON_ASSOC_NOT_AUTHED := 9;
     WIFI_REASON_DISASSOC_PWRCAP_BAD := 10;
     WIFI_REASON_DISASSOC_SUPCHAN_BAD := 11;
     WIFI_REASON_BSS_TRANSITION_DISASSOC := 12;
     WIFI_REASON_IE_INVALID := 13;
     WIFI_REASON_MIC_FAILURE := 14;
     WIFI_REASON_IE_IN_4WAY_DIFFERS := 17;
     WIFI_REASON_GROUP_CIPHER_INVALID := 18;
     WIFI_REASON_PAIRWISE_CIPHER_INVALID := 19;
     WIFI_REASON_AKMP_INVALID := 20;
     WIFI_REASON_UNSUPP_RSN_IE_VERSION := 21;
     WIFI_REASON_INVALID_RSN_IE_CAP := 22;
     WIFI_REASON_CIPHER_SUITE_REJECTED := 24;
     WIFI_REASON_INVALID_PMKID := 53;
     WIFI_REASON_BEACON_TIMEOUT := 200;
     WIFI_REASON_AP_TSF_RESET := 206;
     WIFI_REASON_ROAMING := 207 |}.

(** * wm.js: the percentage shown for a network *)

(** [getSignalPercentage(rssi)], on the integers (the scan response
    carries [rssi] as an integer, on which the arithmetic of JavaScript
    numbers is exact). *)
Definition getSignalPercentage (rssi : Z) : Z :=
  if rssi <=? -100 then 0
  else if rssi >=? -50 then 100
  else 2 * (rssi + 100).

(** * wm_dns.c: the responder that parses the questions *)

(** The [for] loop of [parse_dns_name] that copies a label: [n] counts
    the passes left of [i < len]; [name] holds the characters written so
    far, so that [name_pos] is its length. *)
Fixpoint copy_label (packet : list byte) (packet_len name_len : Z) (n : nat)
    (pos : Z) (name : list byte) : Z * list byte :=
  match n with
  | O => (pos, name)
  | S n' =>
      if (pos <? packet_len) && (Z.of_nat (length name) <? name_len - 2)
      then copy_label packet packet_len name_len n' (pos + 1)
             (name ++ [nth (Z.to_nat pos) packet x00])
      else (pos, name)
  end.

(** What [parse_dns_name] hands back: its return value and the C string
    it leaves in [name] (the characters written, up to the terminator it
    writes or to a zero octet copied from a label before that).
    [parse_unfinished] stands for a loop that has not ended within the
    passes counted. *)
Inductive parse_outcome : Type :=
  | name_parsed (name_end : Z) (name : list byte)
  | parse_unfinished.

(** The [while] loop of [parse_dns_name]; [fuel] counts its passes. *)
Fixpoint parse_dns_name_loop (fuel : nat) (packet : list byte) (packet_len name_len : Z)
    (offset pos : Z) (jumped : bool) (jump_count : Z) (name : list byte)
  : parse_outcome :=
  match fuel with
  | O => parse_unfinished
  | S fuel' =>
      if (pos <? packet_len) && (jump_count <? 10) then
        let len := u8 (nth (Z.to_nat pos) packet x00) in
        if Z.land len 0xC0 =? 0xC0 then
          let offset := if jumped then offset else pos + 2 in
          let pos :=
            Z.lor (Z.shiftl (Z.land len 0x3F) 8)
                  (u8 (nth (Z.to_nat (pos + 1)) packet x00)) in
          parse_dns_name_loop fuel' packet packet_len name_len
            offset pos true (jump_count + 1) name
        else if len =? 0 then
          let name_pos := Z.of_nat (length name) in
          name_parsed (if jumped then offset else pos + 1)
            (if (name_pos >? 0) && (name_pos <? name_len - 1)
             then c_str (firstn (Z.to_nat (name_pos - 1)) name)
             else [])
        else
          let '(pos, name) :=
            copy_label packet packet_len name_len (Z.to_nat len) (pos + 1) name in
          let name :=
            if Z.of_nat (length name) <? name_len - 1 then name ++ [x2e] else name in
          parse_dns_name_loop fuel' packet packet_len name_len
            offset pos jumped jump_count name
      else name_parsed (-1) []
  end.

(** Passes that are always enough: a pass either follows a pointer, at
    most ten times, or moves [pos] forward. *)
Definition parse_passes (packet_len : Z) : nat := S (Z.to_nat (11 * packet_len + 10)).

(** [parse_dns_name(packet, packet_len, offset, name, name_len)]. *)
Definition parse_dns_name (packet : list byte) (packet_len offset name_len : Z)
  : parse_outcome :=
  parse_dns_name_loop (parse_passes packet_len) packet packet_len name_len
    offset offset false 0 [].

(** The address of the access point as it lies in memory. *)
Definition ip4_addr_t : Type := (byte * byte * byte * byte)%type.

(** The sixteen octets of an answer: a pointer to offset 12, type A,
    class IN, TTL 60, length 4, the address. *)
Definition dns_answer (s_ap_ip : ip4_addr_t) : list byte :=
  let '(a, b, c, d) := s_ap_ip in
  [ xc0; x0c;  x00; x01;  x00; x01;  x00; x00; x00; x3c;  x00; x04;  a; b; c; d ].

(** The [for] loop of [create_dns_response] over the questions: [n]
    counts the passes left of [i < questions]; [response] holds the
    octets written so far, so that [pos] is its length.  [None] when a
    name has not been parsed within the passes counted. *)
Fixpoint answer_questions (n : nat) (query : list byte) (query_len response_max_len : Z)
    (s_ap_ip : ip4_addr_t) (question_pos : Z) (response : list byte)
  : option (list byte) :=
  match n with
  | O => Some response
  | S n' =>
      if Z.of_nat (length response) <? response_max_len - 16 then
        match parse_dns_name query query_len question_pos 256 with
        | parse_unfinished => None
        | name_parsed name_end _ =>
            if name_end <? 0 then
              answer_questions n' query query_len response_max_len s_ap_ip
                question_pos response
            else if name_end + 4 >? query_len then
              answer_questions n' query query_len response_max_len s_ap_ip
                question_pos response
            else
              let qtype := ntohs_at query (Z.to_nat name_end) in
              let qclass := ntohs_at query (Z.to_nat (name_end + 2)) in
              let response :=
                if (qtype =? 1) && (qclass =? 1)
                then response ++ dns_answer s_ap_ip
                else response in
              answer_questions n' query query_len response_max_len s_ap_ip
                (name_end + 4) response
        end
      else Some response
  end.

(** What [create_dns_response] does: returns -1, or fills [response]
    and returns its length. *)
Inductive dns_reply : Type :=
  | no_reply
  | reply (response : list byte)
  | reply_unfinished.

(** [create_dns_response(query, query_len, response, response_max_len)];
    [query] is the receive buffer, of which [query_len] octets were
    received.  The first comparison is made in [size_t]. *)
Definition create_dns_response (query : list byte) (query_len response_max_len : Z)
    (s_ap_ip : ip4_addr_t) : dns_reply :=
  if wrap_u32 query_len <? sizeof_dns_header_t then no_reply
  else if query_len >? response_max_len then no_reply
  else
    let response :=
      dns_response_header query ++ skipn 12 (firstn (Z.to_nat query_len) query) in
    let questions := ntohs_at query 4 in
    match answer_questions (Z.to_nat questions) query query_len response_max_len
            s_ap_ip sizeof_dns_header_t response with
    | Some response => reply response
    | None => reply_unfinished
    end.

(** A name as a query carries it: each label behind its length, a zero
    octet at the end; and as it is written, with dots. *)
Fixpoint encode_name (labels : list (list byte)) : list byte :=
  match labels with
  | [] => [x00]
  | l :: rest => to_byte (Z.of_nat (length l)) :: l ++ encode_name rest
  end.

Fixpoint dotted (labels : list (list byte)) : list byte :=
  match labels with
  | [] => []
  | l :: rest =>
      match rest with
      | [] => l
      | _ :: _ => l ++ x2e :: dotted rest
      end
  end.

(** Labels that stand for themselves: not empty, and short enough for
    the length octet not to read as a pointer. *)
Definition labels_ok (labels : list (list byte)) : Prop :=
  Forall (fun l => (0 < length l < 192)%nat) labels.

(** The measure that bounds the passes of [parse_dns_name_loop]. *)
Definition passes_left (packet_len pos jump_count : Z) : Z :=
  (10 - jump_count) * (packet_len + 1) + Z.max 0 (packet_len - pos).

(** [www.example.com], a header with one question, and the query for its
    address. *)
Definition www_example_com : list (list byte) :=
  [ [x77; x77; x77];
    [x65; x78; x61; x6d; x70; x6c; x65];
    [x63; x6f; x6d] ].

Definition one_question_header : list byte :=
  [ xab; xcd;  x01; x00;  x00; x01;  x00; x00;  x00; x00;  x00; x00 ].

Definition portal_ip : ip4_addr_t := (xc0, xa8, x04, x01).

(** The characters the loop has written when it reaches the end of a
    name: each label and a dot. *)
Definition labels_with_dots (labels : list (list byte)) : list byte :=
  concat (map (fun l => l ++ [x2e]) labels).

(** The response [create_dns_response] builds when it appends [k]
    answers. *)
Definition dns_response_with (k : nat) (query : list byte) (query_len : Z)
    (s_ap_ip : ip4_addr_t) : list byte :=
  dns_response_header query
  ++ skipn 12 (firstn (Z.to_nat query_len) query)
  ++ concat (repeat (dns_answer s_ap_ip) k).

(** * The two socket blocks, statement by statement

    [stopDNSServer] and the [cleanup:] label of [dnsServerTask] each run
    [if (_dnsSocket >= 0) { close(_dnsSocket); _dnsSocket = -1; }] on the
    same Manager, the former under the mutex, the latter under none.
    Each statement reads the field when it runs. *)
Inductive block_pc : Type :=
  | at_test
  | at_close
  | at_clear
  | block_done.

(** One statement of the block: where the context goes on, the Manager
    after it, and the call made. *)
Definition block_step (pc : block_pc) (m : WiFiManager)
  : block_pc * WiFiManager * list effect :=
  match pc with
  | at_test => (if _dnsSocket m >=? 0 then at_close else block_done, m, [])
  | at_close => (at_clear, m, [close (_dnsSocket m)])
  | at_clear => (block_done, set_dnsSocket (-1) m, [])
  | block_done => (block_done, m, [])
  end.

Inductive context : Type :=
  | in_stopDNSServer
  | in_dnsServerTask.

(** Where the two contexts are in their blocks, the Manager they share,
    and the calls made so far. *)
Record race : Type := mk_race {
  stop_at : block_pc;
  task_at : block_pc;
  shared : WiFiManager;
  made : list effect
}.

Definition race_step (st : race) (who : context) : race :=
  match who with
  | in_stopDNSServer =>
      let '(pc, m, calls) := block_step (stop_at st) (shared st) in
      mk_race pc (task_at st) m (made st ++ calls)
  | in_dnsServerTask =>
      let '(pc, m, calls) := block_step (task_at st) (shared st) in
      mk_race (stop_at st) pc m (made st ++ calls)
  end.

(** The statements run in the order of [schedule]. *)
Definition interleave (schedule : list context) (st : race) : race :=
  fold_left race_step schedule st.

Definition socket_blocks (m : WiFiManager) (schedule : list context) : race :=
  interleave schedule (mk_race at_test at_test m []).

(** How many of the first four statements are [stopDNSServer]'s. *)
Definition stop_steps (schedule : list context) : nat :=
  length (filter (fun who => match who with in_stopDNSServer => true | _ => false end)
            schedule).

Definition at_clear_count (pc : block_pc) : nat :=
  match pc with at_clear => 1 | _ => 0 end.

Definition past_close (pc : block_pc) : nat :=
  match pc with at_clear | block_done => 1 | _ => 0 end.

(** What holds at every point of every interleaving for a socket [fd]
    that was open at the start. *)
Definition race_inv (fd : Z) (st : race) : Prop :=
  (_dnsSocket (shared st) = fd /\
   stop_at st <> block_done /\ task_at st <> block_done /\
   closes_of fd (made st) = (at_clear_count (stop_at st) + at_clear_count (task_at st))%nat)
  \/
  (_dnsSocket (shared st) = -1 /\
   (1 <= closes_of fd (made st) <= past_close (stop_at st) + past_close (task_at st))%nat).

(** * Facts about machine integers *)

Lemma wrap_s32_id z : INT_MIN <= z <= INT_MAX -> wrap_s32 z = z.
Proof.
  unfold wrap_s32, INT_MIN, INT_MAX. intros H.
  rewrite Z.mod_small by lia. lia.
Qed.

Lemma wrap_s32_range z : INT_MIN <= wrap_s32 z <= INT_MAX.
Proof.
  unfold wrap_s32, INT_MIN, INT_MAX.
  pose proof (Z.mod_pos_bound (z + 2 ^ 31) (2 ^ 32) ltac:(lia)). lia.
Qed.

Lemma wrap_s64_id z : - 2 ^ 63 <= z < 2 ^ 63 -> wrap_s64 z = z.
Proof.
  unfold wrap_s64. intros H. rewrite Z.mod_small by lia. lia.
Qed.

Lemma wrap_u32_id z : 0 <= z < 2 ^ 32 -> wrap_u32 z = z.
Proof. unfold wrap_u32. intros H. now rewrite Z.mod_small. Qed.

Lemma u8_range b : 0 <= u8 b < 256.
Proof. unfold u8. pose proof (Byte.to_N_bounded b) as H. lia. Qed.

Lemma s8_range b : -128 <= s8 b <= 127.
Proof.
  unfold s8. pose proof (u8_range b).
  destruct (u8 b <? 128) eqn:E; [apply Z.ltb_lt in E | apply Z.ltb_ge in E]; lia.
Qed.

(** The clock is microseconds since boot and a start marker is an earlier
    reading of it, so the difference is the time that has passed. *)
Lemma elapsed_exact now start :
  0 <= start <= now -> now < 2 ^ 63 -> elapsed now start = now - start.
Proof. intros H1 H2. unfold elapsed. apply wrap_s64_id. lia. Qed.

(** * The tick *)

Ltac op_simpl :=
  repeat progress
    (simpl in *;
     cbv beta iota delta
       [bind ret get modify emit manager_of result_of calls_of] in *).

(** Case analysis on the conditions a definition branches on. *)
Ltac branches :=
  repeat match goal with
         | |- context [if ?b then _ else _] => destruct b eqn:?
         | |- context [match ?x with Some _ => _ | None => _ end] => destruct x eqn:?
         end.

Lemma is_active_spec s :
  is_active s = wm_state_eqb s WM_STATE_TRY_STA || wm_state_eqb s WM_STATE_RUN_PORTAL.
Proof. now destruct s. Qed.

Lemma process_unfold now m :
  process now m = (is_active (_state (updateState now m)), updateState now m, []).
Proof. unfold process. op_simpl. now rewrite is_active_spec. Qed.

(** C2. [process()] runs [updateState] once and returns [true] exactly
    when the state after that update is [TRY_STA] or [RUN_PORTAL]; in the
    terminal states [RUN_STA], [PORTAL_ABORT] and [PORTAL_TIMEOUT] it
    returns [false].  It makes no platform call. *)
Theorem process_reports_activity (now : Z) (m : WiFiManager) :
  let r := process now m in
  manager_of r = updateState now m /\
  (result_of r = true <->
     _state (manager_of r) = WM_STATE_TRY_STA \/
     _state (manager_of r) = WM_STATE_RUN_PORTAL) /\
  result_of r && is_terminal (_state (manager_of r)) = false /\
  calls_of r = [].
Proof.
  cbv zeta. rewrite process_unfold. unfold manager_of, result_of, calls_of. simpl.
  repeat split.
  - destruct (_state (updateState now m)); simpl; intros H; auto; discriminate.
  - destruct (_state (updateState now m)); simpl; intros [H|H]; auto; discriminate.
  - destruct (_state (updateState now m)); reflexivity.
Qed.

Lemma updateState_other now m :
  _state m <> WM_STATE_TRY_STA -> _state m <> WM_STATE_RUN_PORTAL ->
  updateState now m = m.
Proof. unfold updateState. destruct (_state m); congruence. Qed.

Lemma process_loop_START_PORTAL clock : forall m,
  _state m = WM_STATE_START_PORTAL ->
  process_loop clock m = (repeat false (length clock), m, []).
Proof.
  induction clock as [|now later IH]; intros m Hs; simpl.
  - reflexivity.
  - unfold bind. rewrite process_unfold.
    rewrite updateState_other by (rewrite Hs; discriminate).
    rewrite IH by assumption. rewrite Hs. reflexivity.
Qed.

(** C10. [updateState] moves [TRY_STA] to [START_PORTAL] when the connect
    timeout has elapsed and [RUN_PORTAL] to [PORTAL_TIMEOUT] when a
    positive portal timeout has elapsed; in every other case the Manager
    comes back unchanged, field for field.  Hence any number of
    [process()] calls on a Manager in [START_PORTAL] return [false], make
    no platform call and leave the Manager as it was: ticking does not
    start the portal. *)
Theorem updateState_frame (now : Z) (m : WiFiManager) :
  (_state m = WM_STATE_TRY_STA -> connect_timed_out now m = true ->
     updateState now m
     = set_state WM_STATE_START_PORTAL (set_lastConxResult WL_CONNECT_FAILED m)) /\
  (_state m = WM_STATE_RUN_PORTAL -> portal_timed_out now m = true ->
     updateState now m = set_state WM_STATE_PORTAL_TIMEOUT m) /\
  (~ (_state m = WM_STATE_TRY_STA /\ connect_timed_out now m = true) ->
   ~ (_state m = WM_STATE_RUN_PORTAL /\ portal_timed_out now m = true) ->
     updateState now m = m) /\
  (_state m = WM_STATE_START_PORTAL ->
     forall clock : list Z,
       process_loop clock m = (repeat false (length clock), m, [])).
Proof.
  unfold connect_timed_out, portal_timed_out.
  split; [|split; [|split]].
  - intros Hs Ht. unfold updateState. rewrite Hs, Ht. reflexivity.
  - intros Hs Ht. unfold updateState. rewrite Hs, Ht. reflexivity.
  - intros H1 H2. unfold updateState.
    destruct (_state m) eqn:Hs; try reflexivity.
    + destruct (elapsed now (_connectStart m) >? _connectTimeout m); [|reflexivity].
      exfalso. apply H1. now split.
    + destruct ((_configPortalTimeout m >? 0)
                && (elapsed now (_configPortalStart m) >? _configPortalTimeout m));
        [|reflexivity].
      exfalso. apply H2. now split.
  - intros Hs clock. now apply process_loop_START_PORTAL.
Qed.

Lemma updateState_frame_witness :
  process_loop [0; 100000; 999999999999] (fresh_in WM_STATE_START_PORTAL)
  = ([false; false; false], fresh_in WM_STATE_START_PORTAL, []).
Proof.
  apply (proj2 (proj2 (proj2 (updateState_frame 0 (fresh_in WM_STATE_START_PORTAL))))).
  reflexivity.
Defined.

(** * Events *)

Lemma manager_of_bind {A B} (c : Op A) (k : A -> Op B) m :
  manager_of (bind c k m) = manager_of (k (result_of (c m)) (manager_of (c m))).
Proof.
  unfold bind, manager_of, result_of.
  destruct (c m) as [[a m1] l1]. simpl.
  destruct (k a m1) as [[b m2] l2]. reflexivity.
Qed.

Lemma wifiEventHandler_quiet R ev m :
  calls_of (wifiEventHandler R ev m) = [] /\
  (_state (manager_of (wifiEventHandler R ev m)) = _state m \/
   _state m = WM_STATE_TRY_STA /\
   _state (manager_of (wifiEventHandler R ev m)) = WM_STATE_START_PORTAL).
Proof.
  destruct ev; op_simpl; auto.
  destruct (wm_state_eqb (_state m) WM_STATE_TRY_STA) eqn:E; simpl; auto.
  apply wm_state_eqb_eq in E. auto.
Qed.

Lemma ipEventHandler_GOT_IP m :
  ipEventHandler IP_EVENT_STA_GOT_IP m
  = (tt,
     set_state WM_STATE_RUN_STA (set_lastConxResult WL_CONNECTED m),
     match _saveConfigCallback m with
     | Some f => [call_saveConfigCallback f]
     | None => []
     end).
Proof. unfold ipEventHandler. op_simpl. now destruct (_saveConfigCallback m). Qed.

Lemma ipEventHandler_other ev m :
  ev <> IP_EVENT_STA_GOT_IP ->
  calls_of (ipEventHandler ev m) = [] /\
  _state (manager_of (ipEventHandler ev m)) = _state m.
Proof. destruct ev; op_simpl; auto. congruence. Qed.

Lemma updateState_state now m :
  _state (updateState now m) = _state m \/
  _state (updateState now m) = WM_STATE_START_PORTAL \/
  _state (updateState now m) = WM_STATE_PORTAL_TIMEOUT.
Proof.
  unfold updateState. destruct (_state m) eqn:Hs; auto.
  - destruct (_ >? _); simpl; auto.
  - destruct (_ && _); simpl; auto.
Qed.

(** C1. Of everything the network stack delivers and of the tick, only
    [IP_EVENT_STA_GOT_IP] puts the machine into [RUN_STA] or calls the
    save-config callback: a WiFi event (connect and disconnect included),
    a tick and any other IP event make no platform call and do not produce
    [RUN_STA] from another state, while [IP_EVENT_STA_GOT_IP] always sets
    the state to [RUN_STA] and the last result to [WL_CONNECTED], and calls
    the save-config callback once when one is registered and makes no call
    otherwise. *)
Theorem got_ip_is_sole_trigger (R : wifi_err_reason_values) (m : WiFiManager) :
  (forall ev : wifi_event,
     let r := wifiEventHandler R ev m in
     calls_of r = [] /\
     (_state (manager_of r) = WM_STATE_RUN_STA -> _state m = WM_STATE_RUN_STA)) /\
  (forall now : Z,
     let r := process now m in
     calls_of r = [] /\
     (_state (manager_of r) = WM_STATE_RUN_STA -> _state m = WM_STATE_RUN_STA)) /\
  (forall ev : ip_event, ev <> IP_EVENT_STA_GOT_IP ->
     let r := ipEventHandler ev m in
     calls_of r = [] /\
     (_state (manager_of r) = WM_STATE_RUN_STA -> _state m = WM_STATE_RUN_STA)) /\
  (let r := ipEventHandler IP_EVENT_STA_GOT_IP m in
   _state (manager_of r) = WM_STATE_RUN_STA /\
   _lastConxResult (manager_of r) = WL_CONNECTED /\
   calls_of r = match _saveConfigCallback m with
                | Some f => [call_saveConfigCallback f]
                | None => []
                end).
Proof.
  split; [|split; [|split]]; cbv zeta.
  - intros ev. destruct (wifiEventHandler_quiet R ev m) as [Hc Hs].
    split; [exact Hc|]. intros H.
    destruct Hs as [Hs|[_ Hs]]; congruence.
  - intros now. rewrite process_unfold. unfold calls_of, manager_of. simpl.
    split; [reflexivity|]. intros H.
    destruct (updateState_state now m) as [Hs|[Hs|Hs]]; congruence.
  - intros ev Hev. destruct (ipEventHandler_other ev m Hev) as [Hc Hs].
    split; [exact Hc|]. congruence.
  - rewrite ipEventHandler_GOT_IP. unfold calls_of, manager_of. simpl. auto.
Qed.

Lemma got_ip_is_sole_trigger_witness :
  let m := setSaveConfigCallback (Some 7%nat) (fresh_in WM_STATE_TRY_STA) in
  (let r := ipEventHandler IP_EVENT_STA_LOST_IP m in
   calls_of r = [] /\
   (_state (manager_of r) = WM_STATE_RUN_STA -> _state m = WM_STATE_RUN_STA)) /\
  calls_of (ipEventHandler IP_EVENT_STA_GOT_IP m) = [call_saveConfigCallback 7%nat].
Proof.
  cbv zeta. split.
  - apply (proj1 (proj2 (proj2
      (got_ip_is_sole_trigger esp_idf_reasons
         (setSaveConfigCallback (Some 7%nat) (fresh_in WM_STATE_TRY_STA)))))).
    discriminate.
  - apply (proj2 (proj2 (proj2
      (got_ip_is_sole_trigger esp_idf_reasons
         (setSaveConfigCallback (Some 7%nat) (fresh_in WM_STATE_TRY_STA)))))).
Defined.

(** A station disconnect during a connection attempt sends the machine
    to [START_PORTAL] at once, whatever the reason; in any other state the
    disconnect only records its result. *)
Theorem disconnect_during_TRY_STA
    (R : wifi_err_reason_values) (m : WiFiManager) (reason : Z) :
  let m' := manager_of (wifiEventHandler R (WIFI_EVENT_STA_DISCONNECTED reason) m) in
  _state m' = (if wm_state_eqb (_state m) WM_STATE_TRY_STA
               then WM_STATE_START_PORTAL
               else _state m).
Proof.
  cbv zeta. unfold wifiEventHandler. op_simpl.
  destruct (wm_state_eqb (_state m) WM_STATE_TRY_STA); reflexivity.
Qed.

(** * Disconnect reasons *)

Lemma case_of_In labels v : case_of labels v = true <-> In v labels.
Proof.
  unfold case_of. rewrite existsb_exists. split.
  - intros [x [Hx E]]. apply Z.eqb_eq in E. now subst.
  - intros H. exists v. split; [assumption | apply Z.eqb_refl].
Qed.

Lemma case_of_not_In labels v : ~ In v labels -> case_of labels v = false.
Proof.
  intros H. destruct (case_of labels v) eqn:E; [|reflexivity].
  apply case_of_In in E. contradiction.
Qed.

(** C4. On every station-disconnect event the handler stores the result
    of a fixed table applied to the reason: the four no-AP-found reasons
    give [WL_NO_SSID_AVAIL], the five authentication reasons give
    [WL_WRONG_PASSWORD], and every reason in neither list gives
    [WL_CONNECT_FAILED].  The stored result therefore always lies in
    {[WL_NO_SSID_AVAIL], [WL_WRONG_PASSWORD], [WL_CONNECTION_LOST],
    [WL_CONNECT_FAILED]}; of these, [WL_CONNECTION_LOST] is never the
    outcome of a disconnect. *)
Theorem disconnect_reason_classified
    (R : wifi_err_reason_values) (m : WiFiManager) (reason : Z) :
  let r := wifiEventHandler R (WIFI_EVENT_STA_DISCONNECTED reason) m in
  _lastConxResult (manager_of r) = disconnect_reason_result R reason /\
  In (disconnect_reason_result R reason)
     [WL_NO_SSID_AVAIL; WL_WRONG_PASSWORD; WL_CONNECTION_LOST; WL_CONNECT_FAILED] /\
  disconnect_reason_result R reason <> WL_CONNECTION_LOST /\
  (In reason (reasons_no_ap R) ->
     disconnect_reason_result R reason = WL_NO_SSID_AVAIL) /\
  (~ In reason (reasons_no_ap R) -> In reason (reasons_auth R) ->
     disconnect_reason_result R reason = WL_WRONG_PASSWORD) /\
  (~ In reason (reasons_no_ap R) -> ~ In reason (reasons_auth R) ->
     disconnect_reason_result R reason = WL_CONNECT_FAILED).
Proof.
  cbv zeta. split; [|split; [|split; [|split; [|split]]]].
  - unfold wifiEventHandler. op_simpl.
    destruct (wm_state_eqb (_state m) WM_STATE_TRY_STA); reflexivity.
  - unfold disconnect_reason_result.
    destruct (case_of (reasons_no_ap R) reason);
      [|destruct (case_of (reasons_auth R) reason)]; simpl; auto.
  - unfold disconnect_reason_result.
    destruct (case_of (reasons_no_ap R) reason);
      [|destruct (case_of (reasons_auth R) reason)]; discriminate.
  - intros H. apply case_of_In in H.
    unfold disconnect_reason_result. now rewrite H.
  - intros H1 H2. apply case_of_not_In in H1. apply case_of_In in H2.
    unfold disconnect_reason_result. now rewrite H1, H2.
  - intros H1 H2. apply case_of_not_In in H1. apply case_of_not_In in H2.
    unfold disconnect_reason_result. now rewrite H1, H2.
Qed.

Lemma disconnect_reason_classified_witness :
  disconnect_reason_result esp_idf_reasons 1 = WL_CONNECT_FAILED /\
  disconnect_reason_result esp_idf_reasons 201 = WL_NO_SSID_AVAIL /\
  disconnect_reason_result esp_idf_reasons 15 = WL_WRONG_PASSWORD.
Proof.
  split; [|split].
  - apply (proj2 (proj2 (proj2 (proj2 (proj2
      (disconnect_reason_classified esp_idf_reasons fresh 1)))))).
    + simpl. intuition discriminate.
    + simpl. intuition discriminate.
  - apply (proj1 (proj2 (proj2 (proj2
      (disconnect_reason_classified esp_idf_reasons fresh 201))))).
    simpl. auto.
  - apply (proj1 (proj2 (proj2 (proj2 (proj2
      (disconnect_reason_classified esp_idf_reasons fresh 15)))))).
    + simpl. intuition discriminate.
    + simpl. auto.
Defined.

(** * Portal timeout *)

Lemma portal_clock_kept_refl m : portal_clock_kept m m.
Proof. unfold portal_clock_kept. auto. Qed.

Lemma portal_clock_kept_trans m1 m2 m3 :
  portal_clock_kept m1 m2 -> portal_clock_kept m2 m3 -> portal_clock_kept m1 m3.
Proof. unfold portal_clock_kept. intuition congruence. Qed.

Lemma deliver_keeps R ev m : portal_clock_kept m (manager_of (deliver R ev m)).
Proof.
  unfold portal_clock_kept.
  destruct ev as [e|e|now|]; [destruct e|destruct e| |]; op_simpl;
    branches; simpl; repeat split; intros; congruence.
Qed.

Lemma deliver_all_keeps R evs : forall m,
  portal_clock_kept m (manager_of (deliver_all R evs m)).
Proof.
  induction evs as [|ev rest IH]; intros m; simpl.
  - apply portal_clock_kept_refl.
  - rewrite manager_of_bind.
    eapply portal_clock_kept_trans; [apply deliver_keeps | apply IH].
Qed.

Lemma updateState_fields now m :
  _configPortalTimeout (updateState now m) = _configPortalTimeout m /\
  _configPortalStart (updateState now m) = _configPortalStart m.
Proof.
  unfold updateState. destruct (_state m); auto.
  - destruct (_ >? _); auto.
  - destruct (_ && _); auto.
Qed.

Lemma updateState_zero_timeout now m :
  _configPortalTimeout m = 0 -> portal_clock_kept m (updateState now m).
Proof.
  intros H0. destruct (updateState_fields now m) as [H1 H2].
  repeat split; auto.
  unfold updateState. rewrite H0.
  destruct (_state m) eqn:Hs; simpl; try congruence.
  destruct (_ >? _); simpl; congruence.
Qed.

Lemma run_zero_timeout R schedule : forall m,
  _configPortalTimeout m = 0 ->
  portal_clock_kept m (manager_of (run R schedule m)).
Proof.
  induction schedule as [|st rest IH]; intros m H0; simpl.
  - apply portal_clock_kept_refl.
  - rewrite manager_of_bind. destruct st as [now|ev]; simpl.
    + assert (Hk : portal_clock_kept m (manager_of ((process now;; ret tt)%op m))).
      { rewrite manager_of_bind. rewrite process_unfold. op_simpl.
        now apply updateState_zero_timeout. }
      eapply portal_clock_kept_trans; [exact Hk|].
      apply IH. destruct Hk as [Hk _]. congruence.
    + pose proof (deliver_keeps R ev m) as Hk.
      eapply portal_clock_kept_trans; [exact Hk|].
      apply IH. destruct Hk as [Hk _]. congruence.
Qed.

Lemma configPortal_wait_nil R m : manager_of (configPortal_wait R [] m) = m.
Proof. simpl. destruct (_ || _); reflexivity. Qed.

Lemma configPortal_wait_cons R it rest m :
  in_wait_loop m = true ->
  manager_of (configPortal_wait R (it :: rest) m)
  = let m2 := manager_of (deliver_all R (delivered it) (updateState (t_update it) m)) in
    if portal_timed_out (t_check it) m2
    then set_state WM_STATE_PORTAL_TIMEOUT m2
    else manager_of (configPortal_wait R rest m2).
Proof.
  unfold in_wait_loop, portal_timed_out. intros H. simpl. rewrite H.
  cbv beta iota delta [bind ret get modify emit manager_of result_of calls_of].
  simpl.
  destruct (deliver_all R (delivered it) (updateState (t_update it) m)) as [[u m2] l].
  simpl.
  destruct ((_configPortalTimeout m2 >? 0)
            && (elapsed (t_check it) (_configPortalStart m2) >? _configPortalTimeout m2)).
  - reflexivity.
  - destruct (configPortal_wait R rest m2) as [[b m3] l3]. reflexivity.
Qed.

Lemma configPortal_wait_skip R passes m :
  in_wait_loop m = false -> manager_of (configPortal_wait R passes m) = m.
Proof.
  unfold in_wait_loop. intros H. destruct passes; simpl; rewrite H; reflexivity.
Qed.

Lemma configPortal_wait_zero_timeout R passes : forall m,
  _configPortalTimeout m = 0 ->
  portal_clock_kept m (manager_of (configPortal_wait R passes m)).
Proof.
  induction passes as [|it rest IH]; intros m H0.
  - rewrite configPortal_wait_nil. apply portal_clock_kept_refl.
  - destruct (in_wait_loop m) eqn:Hl.
    + rewrite configPortal_wait_cons by assumption. cbv zeta.
      pose proof (updateState_zero_timeout (t_update it) m H0) as K1.
      pose proof (deliver_all_keeps R (delivered it) (updateState (t_update it) m)) as K2.
      pose proof (portal_clock_kept_trans _ _ _ K1 K2) as K.
      assert (Hz : _configPortalTimeout
                     (manager_of (deliver_all R (delivered it)
                                    (updateState (t_update it) m))) = 0)
        by (destruct K as [K _]; congruence).
      unfold portal_timed_out. rewrite Hz. simpl.
      eapply portal_clock_kept_trans; [exact K | now apply IH].
    + rewrite configPortal_wait_skip by assumption. apply portal_clock_kept_refl.
Qed.

Lemma portal_timed_out_spec now m :
  0 <= _configPortalStart m <= now -> now < 2 ^ 63 ->
  (portal_timed_out now m = true <->
   _configPortalTimeout m > 0 /\ now - _configPortalStart m > _configPortalTimeout m).
Proof.
  intros H1 H2. unfold portal_timed_out.
  rewrite elapsed_exact by assumption.
  rewrite andb_true_iff, !Z.gtb_ltb, !Z.ltb_lt. lia.
Qed.

Lemma updateState_RUN_PORTAL now m :
  _state m = WM_STATE_RUN_PORTAL ->
  (_state (updateState now m) = WM_STATE_PORTAL_TIMEOUT <-> portal_timed_out now m = true).
Proof.
  intros Hs. unfold updateState, portal_timed_out. rewrite Hs.
  destruct (_ && _); simpl; [tauto|]. rewrite Hs. split; discriminate.
Qed.

(** C3. With a portal timeout of zero the machine never enters
    [PORTAL_TIMEOUT]: not through any interleaving of ticks, network events
    and portal requests, and not through any number of passes of the
    blocking wait loop, whatever the clock readings.  With a positive
    portal timeout, a machine in [RUN_PORTAL] is moved to [PORTAL_TIMEOUT]
    by a tick exactly when the time since the portal start marker exceeds
    the timeout, and by a pass of the blocking wait loop exactly when it
    does so at the loop's own check. *)
Theorem portal_timeout_policy (R : wifi_err_reason_values) (m : WiFiManager) :
  (_configPortalTimeout m = 0 -> _state m <> WM_STATE_PORTAL_TIMEOUT ->
     (forall schedule : list step,
        _state (manager_of (run R schedule m)) <> WM_STATE_PORTAL_TIMEOUT) /\
     (forall passes : list loop_iteration,
        _state (manager_of (configPortal_wait R passes m)) <> WM_STATE_PORTAL_TIMEOUT)) /\
  (_configPortalTimeout m > 0 -> _state m = WM_STATE_RUN_PORTAL ->
     (forall now : Z,
        0 <= _configPortalStart m <= now -> now < 2 ^ 63 ->
        (_state (updateState now m) = WM_STATE_PORTAL_TIMEOUT <->
         now - _configPortalStart m > _configPortalTimeout m)) /\
     (forall it : loop_iteration,
        0 <= _configPortalStart m <= t_update it ->
        t_update it <= t_check it -> t_check it < 2 ^ 63 ->
        (_state (manager_of (configPortal_wait R [it] m)) = WM_STATE_PORTAL_TIMEOUT <->
         t_check it - _configPortalStart m > _configPortalTimeout m))).
Proof.
  split.
  - intros H0 Hs. split.
    + intros schedule H.
      destruct (run_zero_timeout R schedule m H0) as [_ [_ K]]. auto.
    + intros passes H.
      destruct (configPortal_wait_zero_timeout R passes m H0) as [_ [_ K]]. auto.
  - intros Hpos Hs. split.
    + intros now H1 H2.
      rewrite updateState_RUN_PORTAL by assumption.
      rewrite portal_timed_out_spec by assumption. tauto.
    + intros it H1 H2 H3.
      assert (Hl : in_wait_loop m = true) by (unfold in_wait_loop; now rewrite Hs).
      rewrite configPortal_wait_cons by assumption. cbv zeta.
      set (m1 := updateState (t_update it) m).
      destruct (updateState_fields (t_update it) m) as [F1 F2]. fold m1 in F1, F2.
      destruct (deliver_all_keeps R (delivered it) m1) as [G1 [G2 G3]].
      set (m2 := manager_of (deliver_all R (delivered it) m1)) in *.
      assert (T2 : portal_timed_out (t_check it) m2 = true <->
                   t_check it - _configPortalStart m > _configPortalTimeout m).
      { rewrite portal_timed_out_spec by lia.
        rewrite G1, G2, F1, F2. tauto. }
      destruct (portal_timed_out (t_check it) m2) eqn:E.
      * simpl. tauto.
      * rewrite configPortal_wait_nil. split.
        -- intros H. apply G3 in H. unfold m1 in H.
           apply (updateState_RUN_PORTAL (t_update it) m Hs) in H.
           apply portal_timed_out_spec in H; [|lia|lia]. lia.
        -- intros H. apply T2 in H. discriminate.
Qed.

Lemma portal_timeout_policy_witness :
  (forall passes : list loop_iteration,
     _state (manager_of (configPortal_wait esp_idf_reasons passes
                           (setConfigPortalTimeout 0 (fresh_in WM_STATE_RUN_PORTAL))))
     <> WM_STATE_PORTAL_TIMEOUT) /\
  (_state (updateState 180000001 (fresh_in WM_STATE_RUN_PORTAL)) = WM_STATE_PORTAL_TIMEOUT <->
   180000001 - 0 > 180000000).
Proof.
  split.
  - apply (proj1 (portal_timeout_policy esp_idf_reasons
             (setConfigPortalTimeout 0 (fresh_in WM_STATE_RUN_PORTAL))));
      [reflexivity | discriminate].
  - apply (proj1 (proj2 (portal_timeout_policy esp_idf_reasons
             (fresh_in WM_STATE_RUN_PORTAL)) ltac:(reflexivity) ltac:(reflexivity)));
      [vm_compute; split; discriminate | reflexivity].
Defined.

(** The timeout setters keep the low 32 bits of the microsecond count:
    the value is exact up to 4294 seconds, and beyond that it wraps, down
    to zero ("never") at 67108864 seconds. *)
Theorem setConfigPortalTimeout_truncates :
  (forall seconds m, 0 <= seconds <= 4294 ->
     _configPortalTimeout (setConfigPortalTimeout seconds m) = seconds * 1000000) /\
  (forall m, _configPortalTimeout (setConfigPortalTimeout 4295 m) = 32704) /\
  (forall m, _configPortalTimeout (setConfigPortalTimeout 4500 m) = 205032704) /\
  (forall m, _configPortalTimeout (setConfigPortalTimeout 67108864 m) = 0).
Proof.
  repeat split; try reflexivity.
  intros seconds m H. unfold setConfigPortalTimeout. simpl. apply wrap_u32_id. lia.
Qed.

Lemma setConfigPortalTimeout_truncates_witness :
  _configPortalTimeout (setConfigPortalTimeout 180 fresh) = 180 * 1000000.
Proof.
  apply (proj1 setConfigPortalTimeout_truncates 180 fresh). lia.
Defined.

(** * Signal quality *)

Lemma calculateSignalQuality_exact rssi :
  quality_in_range rssi -> calculateSignalQuality rssi = spec_quality rssi.
Proof.
  unfold quality_in_range, calculateSignalQuality, spec_quality, clamp. intros H.
  rewrite (wrap_s32_id (rssi + 100)) by (unfold INT_MIN, INT_MAX; lia).
  rewrite wrap_s32_id by (unfold INT_MIN, INT_MAX; lia).
  destruct (2 * (rssi + 100) >? 100) eqn:E1; rewrite Z.gtb_ltb in E1;
    [apply Z.ltb_lt in E1 | apply Z.ltb_ge in E1].
  - change (100 <? 0) with false. cbv iota. lia.
  - destruct (2 * (rssi + 100) <? 0) eqn:E2;
      [apply Z.ltb_lt in E2 | apply Z.ltb_ge in E2]; lia.
Qed.

Lemma calculateSignalQuality_bounds rssi : 0 <= calculateSignalQuality rssi <= 100.
Proof.
  unfold calculateSignalQuality. cbv zeta.
  set (q := wrap_s32 (2 * wrap_s32 (rssi + 100))).
  destruct (q >? 100) eqn:E1.
  - simpl. lia.
  - rewrite Z.gtb_ltb in E1. apply Z.ltb_ge in E1.
    destruct (q <? 0) eqn:E2; [lia|]. apply Z.ltb_ge in E2. lia.
Qed.

Lemma spec_quality_monotone r1 r2 : r1 <= r2 -> spec_quality r1 <= spec_quality r2.
Proof. unfold spec_quality, clamp. lia. Qed.

Lemma s8_quality_in_range b : quality_in_range (s8 b).
Proof. unfold quality_in_range. pose proof (s8_range b). lia. Qed.

(** C6.  The quality is [clamp (2 * (rssi + 100)) 0 100] for every
    [rssi] on which the function's [int] arithmetic is defined, that is,
    for which neither [rssi + 100] nor its double leaves the range of
    [int] (from -2^30 - 100 to 2^30 - 101); on that range it is
    non-decreasing in [rssi], and the result lies between 0 and 100.  The
    callers pass the [int8_t] strength of a scan record, and the formula
    holds for every one of its 256 values. *)
Theorem calculateSignalQuality_is_clamp (rssi : Z) :
  0 <= calculateSignalQuality rssi <= 100 /\
  (quality_in_range rssi ->
     calculateSignalQuality rssi = spec_quality rssi /\
     forall rssi' : Z, quality_in_range rssi' -> rssi <= rssi' ->
       calculateSignalQuality rssi <= calculateSignalQuality rssi') /\
  (forall b : byte, calculateSignalQuality (s8 b) = spec_quality (s8 b)).
Proof.
  split; [apply calculateSignalQuality_bounds|]. split.
  - intros H. split; [now apply calculateSignalQuality_exact|].
    intros rssi' H' Hle. rewrite !calculateSignalQuality_exact by assumption.
    now apply spec_quality_monotone.
  - intros b. apply calculateSignalQuality_exact, s8_quality_in_range.
Qed.

Lemma calculateSignalQuality_is_clamp_witness :
  calculateSignalQuality (-67) = spec_quality (-67) /\
  calculateSignalQuality (-67) <= calculateSignalQuality (-40).
Proof.
  assert (H : quality_in_range (-67)) by (unfold quality_in_range; lia).
  destruct (proj1 (proj2 (calculateSignalQuality_is_clamp (-67))) H) as [E M].
  split; [exact E|].
  apply M; [unfold quality_in_range; lia | lia].
Defined.

(** * Parameter registry *)

Lemma addParameter_length cfg p m :
  Z.of_nat (length (_params m)) <= wrap_u32 (WM_MAX_CUSTOM_PARAMS cfg) ->
  Z.of_nat (length (_params (addParameter cfg p m))) <= wrap_u32 (WM_MAX_CUSTOM_PARAMS cfg).
Proof.
  unfold addParameter. destruct p as [p|]; [|auto].
  destruct (Z.of_nat (length (_params m)) <? wrap_u32 (WM_MAX_CUSTOM_PARAMS cfg)) eqn:E.
  - apply Z.ltb_lt in E. simpl. rewrite length_app. simpl. lia.
  - auto.
Qed.

Lemma addParameters_bounded cfg ps : forall m,
  Z.of_nat (length (_params m)) <= wrap_u32 (WM_MAX_CUSTOM_PARAMS cfg) ->
  Z.of_nat (length (_params (addParameters cfg ps m))) <= wrap_u32 (WM_MAX_CUSTOM_PARAMS cfg).
Proof.
  unfold addParameters.
  induction ps as [|p rest IH]; intros m H; simpl; [assumption|].
  apply IH. now apply addParameter_length.
Qed.

(** C9, as amended.  The registry is bounded by [WM_MAX_CUSTOM_PARAMS] (a
    configured value that [size_t] holds): a registration made when the
    registry already holds that many parameters, or with a null pointer,
    leaves the Manager unchanged, and after any run of registrations the
    size is still within the maximum.  Below the maximum every non-null
    registration is accepted and appended, whatever its identifier: the
    identifier is not consulted. *)
Theorem addParameter_capacity_bounded
    (cfg : sdkconfig) (m : WiFiManager) :
  0 <= WM_MAX_CUSTOM_PARAMS cfg < 2 ^ 32 ->
  Z.of_nat (length (_params m)) <= WM_MAX_CUSTOM_PARAMS cfg ->
  (forall ps : list (option WiFiManagerParameter),
     Z.of_nat (length (_params (addParameters cfg ps m))) <= WM_MAX_CUSTOM_PARAMS cfg) /\
  (forall p : option WiFiManagerParameter,
     Z.of_nat (length (_params m)) = WM_MAX_CUSTOM_PARAMS cfg ->
     addParameter cfg p m = m) /\
  addParameter cfg None m = m /\
  (forall p : WiFiManagerParameter,
     Z.of_nat (length (_params m)) < WM_MAX_CUSTOM_PARAMS cfg ->
     _params (addParameter cfg (Some p) m) = _params m ++ [p]).
Proof.
  intros Hcfg Hm. pose proof (wrap_u32_id _ Hcfg) as W.
  split; [|split; [|split]].
  - intros ps. rewrite <- W. apply addParameters_bounded. now rewrite W.
  - intros p Hfull. unfold addParameter. destruct p as [p|]; [|reflexivity].
    rewrite W, Hfull, Z.ltb_irrefl. reflexivity.
  - reflexivity.
  - intros p Hlt. unfold addParameter. rewrite W.
    apply Z.ltb_lt in Hlt. rewrite Hlt. reflexivity.
Qed.

Lemma addParameter_capacity_bounded_witness :
  Z.of_nat (length (_params
     (addParameters example_cfg (repeat (Some server_param) 25) fresh))) <= 20.
Proof.
  apply (proj1 (addParameter_capacity_bounded example_cfg fresh
                  ltac:(unfold WM_MAX_CUSTOM_PARAMS; simpl; lia) ltac:(simpl; lia))).
Defined.

(** C9 as stated fails on its uniqueness half: registering a second
    parameter with an identifier already in the registry is accepted, the
    registry grows from one entry to two and then holds the identifier
    twice. *)
Lemma addParameter_accepts_duplicate_id :
  let m1 := addParameter example_cfg (Some server_param) fresh in
  let m2 := addParameter example_cfg (Some server_param_again) m1 in
  _id server_param_again = _id server_param /\
  length (_params m1) = 1%nat /\
  length (_params m2) = 2%nat /\
  ~ NoDup (map _id (_params m2)).
Proof.
  cbv zeta. repeat split.
  intros H. simpl in H. inversion H as [|x l Hnotin _]; subst.
  apply Hnotin. simpl. auto.
Qed.

(** * Server teardown *)

(** The fields the wait loop of [stopDNSServer] can touch are the task
    handle and, through the DNS task's own cleanup, the socket, which it
    can only close. *)
Lemma dnsServerTask_cleanup_keeps m :
  let m' := manager_of (dnsServerTask_cleanup m) in
  _httpServer m' = _httpServer m /\
  _dnsRunning m' = _dnsRunning m /\
  _cleanupInProgress m' = _cleanupInProgress m /\
  (_dnsSocket m < 0 -> _dnsSocket m' < 0) /\
  _dnsTaskHandle m' = None.
Proof.
  unfold dnsServerTask_cleanup. op_simpl.
  destruct (_dnsSocket m >=? 0) eqn:E; simpl; repeat split; auto; lia.
Qed.

Lemma stopDNSServer_wait_keeps timeout : forall exit_during m,
  let m' := manager_of (stopDNSServer_wait timeout exit_during m) in
  _httpServer m' = _httpServer m /\
  _dnsRunning m' = _dnsRunning m /\
  _cleanupInProgress m' = _cleanupInProgress m /\
  (_dnsSocket m < 0 -> _dnsSocket m' < 0).
Proof.
  induction timeout as [|t IH]; intros e m; cbv zeta.
  - simpl. destruct (_dnsTaskHandle m); simpl; auto.
  - simpl. destruct (_dnsTaskHandle m) as [h|]; [|simpl; auto].
    rewrite manager_of_bind.
    change (manager_of (emit (vTaskDelay_ms 100) m)) with m.
    destruct e as [[|k]|].
    + rewrite manager_of_bind.
      destruct (dnsServerTask_cleanup_keeps m) as [C1 [C2 [C3 [C4 _]]]].
      specialize (IH None (manager_of (dnsServerTask_cleanup m))). cbv zeta in IH.
      destruct IH as [I1 [I2 [I3 I4]]].
      repeat split; try congruence. auto.
    + apply IH.
    + apply IH.
Qed.

Lemma stopHTTPServer_post m :
  let m' := manager_of (stopHTTPServer m) in
  _httpServer m' = None /\
  _dnsRunning m' = _dnsRunning m /\
  _dnsSocket m' = _dnsSocket m /\
  _cleanupInProgress m' = _cleanupInProgress m.
Proof.
  unfold stopHTTPServer. op_simpl. destruct (_httpServer m) eqn:E; simpl; auto.
Qed.

Lemma stopDNSServer_post exit_during m :
  let m' := manager_of (stopDNSServer exit_during m) in
  _httpServer m' = _httpServer m /\
  _dnsRunning m' = false /\
  _cleanupInProgress m' = _cleanupInProgress m /\
  ((_dnsRunning m = false -> _dnsSocket m < 0) -> _dnsSocket m' < 0).
Proof.
  cbv zeta. unfold stopDNSServer. rewrite manager_of_bind.
  change (result_of (get _dnsRunning m)) with (_dnsRunning m).
  change (manager_of (get _dnsRunning m)) with m.
  destruct (_dnsRunning m) eqn:Hr;
    [change (negb true) with false | change (negb false) with true]; cbv iota.
  2:{ unfold manager_of, ret. simpl. auto. }
  rewrite !manager_of_bind.
  change (manager_of (modify (set_dnsRunning false) m)) with (set_dnsRunning false m).
  set (m1 := set_dnsRunning false m).
  change (result_of (get _dnsSocket m1)) with (_dnsSocket m).
  change (manager_of (get _dnsSocket m1)) with m1.
  set (m2 := manager_of ((if _dnsSocket m >=? 0
                          then (emit (close (_dnsSocket m));; modify (set_dnsSocket (-1)))%op
                          else ret tt) m1)).
  assert (P2 : _httpServer m2 = _httpServer m /\ _dnsRunning m2 = false /\
               _cleanupInProgress m2 = _cleanupInProgress m /\ _dnsSocket m2 < 0).
  { unfold m2, m1. destruct (_dnsSocket m >=? 0) eqn:E; op_simpl; repeat split; lia. }
  destruct P2 as [A1 [A2 [A3 A4]]].
  destruct (stopDNSServer_wait_keeps 50 exit_during m2) as [W1 [W2 [W3 W4]]].
  set (m3 := manager_of (stopDNSServer_wait 50 exit_during m2)) in *.
  change (result_of (get _dnsTaskHandle m3)) with (_dnsTaskHandle m3).
  change (manager_of (get _dnsTaskHandle m3)) with m3.
  destruct (_dnsTaskHandle m3); op_simpl; repeat split; try congruence; auto.
Qed.

Lemma stopServers_post exit_during m :
  _cleanupInProgress m = false ->
  let m' := manager_of (stopServers exit_during m) in
  _httpServer m' = None /\
  _dnsRunning m' = false /\
  _cleanupInProgress m' = false /\
  ((_dnsRunning m = false -> _dnsSocket m < 0) -> _dnsSocket m' < 0).
Proof.
  intros Hc. cbv zeta. unfold stopServers. rewrite manager_of_bind.
  change (result_of (get _cleanupInProgress m)) with (_cleanupInProgress m).
  change (manager_of (get _cleanupInProgress m)) with m.
  rewrite Hc. change (negb false) with true. cbv iota.
  rewrite !manager_of_bind.
  change (manager_of (modify (set_cleanupInProgress true) m))
    with (set_cleanupInProgress true m).
  set (m1 := set_cleanupInProgress true m).
  destruct (stopHTTPServer_post m1) as [H1 [H2 [H3 H4]]].
  set (m2 := manager_of (stopHTTPServer m1)) in *.
  destruct (stopDNSServer_post exit_during m2) as [D1 [D2 [D3 D4]]].
  set (m3 := manager_of (stopDNSServer exit_during m2)) in *.
  unfold manager_of, modify. simpl.
  repeat split; try congruence.
  intros Hinv. apply D4. rewrite H2, H3. exact Hinv.
Qed.

Lemma stopServers_when_stopped exit_during m :
  _cleanupInProgress m = false -> _httpServer m = None -> _dnsRunning m = false ->
  stopServers exit_during m = (tt, m, []).
Proof.
  intros Hc Hh Hr. unfold stopServers, stopHTTPServer, stopDNSServer.
  destruct m. simpl in Hc, Hh, Hr. subst. reflexivity.
Qed.

Lemma WiFiManager_new_teardown_ready cfg :
  _cleanupInProgress (WiFiManager_new cfg) = false /\
  dns_socket_owned (WiFiManager_new cfg).
Proof. split; [reflexivity|]. intros _. simpl. lia. Qed.

(** * Captive DNS responder *)

Lemma u8_to_byte_mod z : u8 (to_byte z) = z mod 256.
Proof.
  unfold to_byte, u8.
  pose proof (Z.mod_pos_bound z 256 ltac:(lia)) as Hb.
  destruct (Byte.of_N (Z.to_N (z mod 256))) as [b|] eqn:E.
  - apply Byte.to_of_N in E. rewrite E. lia.
  - apply Byte.of_N_None_iff in E. lia.
Qed.

Lemma lor_below a b n :
  0 <= n -> 0 <= a < 2 ^ n -> 0 <= b < 2 ^ n -> 0 <= Z.lor a b < 2 ^ n.
Proof.
  intros Hn Ha Hb. split; [apply Z.lor_nonneg; lia|].
  destruct (Z.eq_dec n 0) as [->|Hn0].
  { assert (a = 0) by (simpl in Ha; lia). assert (b = 0) by (simpl in Hb; lia).
    subst. reflexivity. }
  destruct (Z.eq_dec (Z.lor a b) 0) as [E|E]; [rewrite E; lia|].
  apply Z.log2_lt_pow2; [pose proof (Z.lor_nonneg a b); lia|].
  rewrite Z.log2_lor by lia.
  apply Z.max_lub_lt.
  - destruct (Z.eq_dec a 0) as [->|]; [simpl; lia|]. apply Z.log2_lt_pow2; lia.
  - destruct (Z.eq_dec b 0) as [->|]; [simpl; lia|]. apply Z.log2_lt_pow2; lia.
Qed.

Lemma ntohs_at_range buffer off : 0 <= ntohs_at buffer off < 65536.
Proof.
  unfold ntohs_at.
  pose proof (u8_range (nth off buffer x00)).
  pose proof (u8_range (nth (S off) buffer x00)). lia.
Qed.

Lemma ntohs_htons v rest :
  0 <= v < 65536 -> ntohs_at (htons_bytes v ++ rest) 0 = v.
Proof.
  intros H. unfold ntohs_at, htons_bytes. simpl.
  rewrite !u8_to_byte_mod.
  rewrite (Z.mod_small (v / 256))
    by (split; [apply Z.div_pos; lia | apply Z.div_lt_upper_bound; lia]).
  pose proof (Z.div_mod v 256 ltac:(lia)). lia.
Qed.

(** A buffer of at least twelve octets, taken apart. *)
Lemma header_split (buffer : list byte) :
  (12 <= length buffer)%nat ->
  exists b0 b1 b2 b3 b4 b5 b6 b7 b8 b9 b10 b11 rest,
    buffer = b0 :: b1 :: b2 :: b3 :: b4 :: b5 :: b6 :: b7 :: b8 :: b9 :: b10 :: b11 :: rest.
Proof.
  intros H.
  do 12 (destruct buffer as [|? buffer]; [simpl in H; lia|]).
  repeat eexists.
Qed.

Lemma flags_bits f :
  Z.testbit (Z.lor (Z.lor f DNS_FLAG_RESPONSE) DNS_FLAG_AA) 15 = true /\
  Z.testbit (Z.lor (Z.lor f DNS_FLAG_RESPONSE) DNS_FLAG_AA) 10 = true.
Proof.
  rewrite !Z.lor_spec. split.
  - replace (Z.testbit DNS_FLAG_RESPONSE 15) with true by reflexivity.
    now rewrite orb_true_r.
  - replace (Z.testbit DNS_FLAG_AA 10) with true by reflexivity.
    now rewrite orb_true_r.
Qed.

Lemma flags_range f :
  0 <= f < 65536 -> 0 <= Z.lor (Z.lor f DNS_FLAG_RESPONSE) DNS_FLAG_AA < 65536.
Proof.
  intros H. change 65536 with (2 ^ 16) in *.
  apply lor_below; [lia | | unfold DNS_FLAG_AA; lia].
  apply lor_below; [lia | assumption | unfold DNS_FLAG_RESPONSE; lia].
Qed.

(** What [dns_build_response] returns for a buffer that holds a whole
    header. *)
Lemma dns_build_response_shape (buffer : list byte) :
  (12 <= length buffer)%nat ->
  let response := dns_build_response buffer in
  firstn 2 response = firstn 2 buffer /\
  ntohs_at response 2 = Z.lor (Z.lor (ntohs_at buffer 2) DNS_FLAG_RESPONSE) DNS_FLAG_AA /\
  ntohs_at response 4 = ntohs_at buffer 4 /\
  ntohs_at response 6 = ntohs_at buffer 4 /\
  ntohs_at response 8 = 0 /\
  ntohs_at response 10 = 0 /\
  firstn (length buffer - 12) (skipn 12 response) = skipn 12 buffer /\
  appends_answers (if Z.of_nat (length buffer) <? 496 then 1%nat else 0%nat) buffer response.
Proof.
  intros Hlen.
  destruct (header_split buffer Hlen)
    as (b0 & b1 & b2 & b3 & b4 & b5 & b6 & b7 & b8 & b9 & b10 & b11 & rest & E).
  cbv zeta. unfold dns_build_response, appends_answers.
  replace (Z.of_nat (length buffer) + 16 <? DNS_MAX_PACKET_SIZE)
    with (Z.of_nat (length buffer) <? 496)
    by (unfold DNS_MAX_PACKET_SIZE;
        destruct (Z.of_nat (length buffer) <? 496) eqn:A;
        [apply Z.ltb_lt in A; symmetry; apply Z.ltb_lt; lia
        |apply Z.ltb_ge in A; symmetry; apply Z.ltb_ge; lia]).
  set (tail := if Z.of_nat (length buffer) <? 496 then dns_answer_record else []).
  assert (Eresp :
    (if Z.of_nat (length buffer) <? 496
     then (dns_response_header buffer ++ skipn 12 buffer) ++ dns_answer_record
     else dns_response_header buffer ++ skipn 12 buffer)
    = dns_response_header buffer ++ skipn 12 buffer ++ tail).
  { unfold tail. destruct (Z.of_nat (length buffer) <? 496).
    - now rewrite app_assoc.
    - now rewrite app_nil_r. }
  rewrite Eresp.
  assert (Etail : concat (repeat dns_answer_record
                            (if Z.of_nat (length buffer) <? 496 then 1%nat else 0%nat)) = tail).
  { unfold tail. destruct (Z.of_nat (length buffer) <? 496); reflexivity. }
  rewrite Etail. clearbody tail. clear Eresp Etail.
  pose proof (flags_range (ntohs_at buffer 2) (ntohs_at_range buffer 2)) as Hf.
  set (v := Z.lor (Z.lor (ntohs_at buffer 2) DNS_FLAG_RESPONSE) DNS_FLAG_AA) in *.
  assert (Ehdr : dns_response_header buffer
                 = [b0; b1; to_byte (v / 256); to_byte v; b4; b5; b4; b5; x00; x00; x00; x00]).
  { unfold dns_response_header. fold v. rewrite E. reflexivity. }
  rewrite Ehdr.
  assert (Eskip : skipn 12 buffer = rest) by (rewrite E; reflexivity).
  rewrite Eskip.
  assert (Elen : length buffer = (12 + length rest)%nat) by (rewrite E; reflexivity).
  repeat split.
  - rewrite E. reflexivity.
  - change (ntohs_at ([b0; b1; to_byte (v / 256); to_byte v; b4; b5; b4; b5; x00; x00; x00; x00]
                        ++ rest ++ tail) 2)
      with (ntohs_at (htons_bytes v ++ [b4; b5; b4; b5; x00; x00; x00; x00] ++ rest ++ tail) 0).
    now apply ntohs_htons.
  - rewrite E. reflexivity.
  - rewrite E. reflexivity.
  - rewrite Elen.
    replace (12 + length rest - 12)%nat with (length rest) by lia.
    change (skipn 12 ([b0; b1; to_byte (v / 256); to_byte v; b4; b5; b4; b5; x00; x00; x00; x00]
                        ++ rest ++ tail))
      with (rest ++ tail).
    rewrite firstn_app, firstn_all, Nat.sub_diag. simpl. apply app_nil_r.
  - rewrite Elen.
    change (skipn (12 + length rest)
              ([b0; b1; to_byte (v / 256); to_byte v; b4; b5; b4; b5; x00; x00; x00; x00]
                 ++ rest ++ tail))
      with (skipn (length rest) (rest ++ tail)).
    rewrite skipn_app, skipn_all, Nat.sub_diag. reflexivity.
Qed.

Lemma dnsServerTask_pass_datagram client payload m :
  dnsServerTask_pass (recv_datagram client payload) m
  = (true, m,
     if Z.of_nat (length (firstn 511 payload)) >=? sizeof_dns_header_t
     then [sendto (_dnsSocket m) (dns_build_response (firstn 511 payload)) client;
           vTaskDelay_ms 10]
     else [vTaskDelay_ms 10]).
Proof.
  unfold dnsServerTask_pass, sizeof_dns_header_t.
  set (len := Z.of_nat (length (firstn 511 payload))).
  destruct (len >=? 12) eqn:G.
  - assert (P : (len >? 0) = true).
    { rewrite Z.geb_leb in G. apply Z.leb_le in G.
      rewrite Z.gtb_ltb. apply Z.ltb_lt. lia. }
    rewrite P. reflexivity.
  - rewrite andb_false_r. reflexivity.
Qed.

(** What the responder of [dnsServerTask] sends.  A datagram of fewer
    than twelve octets gets no response.  For one of at least twelve
    octets (cut to 511 on receipt) the responder sends one response: the
    received packet with the QR and AA flags set, the answer count set to
    the question count and the authority and additional counts zeroed,
    everything after the header (the question section) copied as
    received, followed by exactly one answer record when the packet is
    shorter than 496 octets and by none otherwise.  That record points to
    the first question and is an A record of class IN with a TTL of 60
    seconds for 192.168.4.1.  The number of records appended does not
    depend on the question count. *)
Theorem dns_responder_reply
    (client : sockaddr) (payload : list byte) (m : WiFiManager) :
  let buffer := firstn 511 payload in
  let len := Z.of_nat (length buffer) in
  let r := dnsServerTask_pass (recv_datagram client payload) m in
  manager_of r = m /\
  (len < sizeof_dns_header_t -> calls_of r = [vTaskDelay_ms 10]) /\
  (sizeof_dns_header_t <= len ->
     let response := dns_build_response buffer in
     calls_of r = [sendto (_dnsSocket m) response client; vTaskDelay_ms 10] /\
     firstn 2 response = firstn 2 buffer /\
     ntohs_at response 2
       = Z.lor (Z.lor (ntohs_at buffer 2) DNS_FLAG_RESPONSE) DNS_FLAG_AA /\
     Z.testbit (ntohs_at response 2) 15 = true /\
     Z.testbit (ntohs_at response 2) 10 = true /\
     ntohs_at response 4 = ntohs_at buffer 4 /\
     ntohs_at response 6 = ntohs_at buffer 4 /\
     ntohs_at response 8 = 0 /\
     ntohs_at response 10 = 0 /\
     firstn (length buffer - 12) (skipn 12 response) = skipn 12 buffer /\
     appends_answers (if len <? 496 then 1%nat else 0%nat) buffer response) /\
  (firstn 2 dns_answer_record = [xc0; x0c] /\
   answer_type dns_answer_record = 1 /\
   answer_class dns_answer_record = 1 /\
   answer_ttl dns_answer_record = 60 /\
   answer_rdlength dns_answer_record = 4 /\
   answer_address dns_answer_record = [192; 168; 4; 1]).
Proof.
  cbv zeta. rewrite dnsServerTask_pass_datagram.
  unfold sizeof_dns_header_t. cbv beta iota delta [manager_of calls_of fst snd].
  split; [reflexivity|]. split; [|split].
  - intros H. rewrite Z.geb_leb.
    replace (12 <=? Z.of_nat (length (firstn 511 payload))) with false
      by (symmetry; apply Z.leb_gt; lia).
    reflexivity.
  - intros H. rewrite Z.geb_leb.
    replace (12 <=? Z.of_nat (length (firstn 511 payload))) with true
      by (symmetry; apply Z.leb_le; lia).
    assert (Hn : (12 <= length (firstn 511 payload))%nat) by lia.
    destruct (dns_build_response_shape (firstn 511 payload) Hn)
      as (S1 & S2 & S3 & S4 & S5 & S6 & S7 & S8).
    repeat split; try assumption.
    + rewrite S2. apply flags_bits.
    + rewrite S2. apply flags_bits.
  - repeat split.
Qed.

Lemma dns_responder_reply_witness :
  calls_of (dnsServerTask_pass (recv_datagram 7 one_question_query) portal_running)
  = [sendto 54 (dns_build_response one_question_query) 7; vTaskDelay_ms 10] /\
  appends_answers 1 one_question_query (dns_build_response one_question_query) /\
  calls_of (dnsServerTask_pass (recv_datagram 7 [x12; x34; x01]) portal_running)
  = [vTaskDelay_ms 10].
Proof.
  pose proof (dns_responder_reply 7 one_question_query portal_running) as H.
  pose proof (dns_responder_reply 7 [x12; x34; x01] portal_running) as H'.
  cbv zeta in H, H'.
  destruct H as (_ & _ & H & _). destruct H' as (_ & H' & _).
  specialize (H ltac:(vm_compute; discriminate)).
  specialize (H' ltac:(reflexivity)).
  destruct H as (C & _ & _ & _ & _ & _ & _ & _ & _ & _ & A).
  split; [exact C|]. split; [exact A | exact H'].
Defined.

(** C7.  The responder does not append one answer record per question:
    for a query with two questions the response announces two answers in
    its header (the code's "same number of answers as questions") and
    carries one answer record. *)
Lemma dns_two_questions_one_answer :
  let response := dns_build_response two_question_query in
  ntohs_at two_question_query 4 = 2 /\
  calls_of (dnsServerTask_pass (recv_datagram 7 two_question_query) portal_running)
  = [sendto 54 response 7; vTaskDelay_ms 10] /\
  ntohs_at response 6 = 2 /\
  appends_answers 1 two_question_query response /\
  ~ appends_answers (Z.to_nat (ntohs_at two_question_query 4)) two_question_query response.
Proof.
  cbv zeta. repeat split. intros H. vm_compute in H. discriminate H.
Qed.

(** * Scan filter *)

Lemma bytes_eqb_eq a : forall b, bytes_eqb a b = true <-> a = b.
Proof.
  induction a as [|x a IH]; intros [|y b]; simpl; split; intros H;
    try reflexivity; try discriminate.
  - apply andb_true_iff in H. destruct H as [H1 H2].
    apply Byte.byte_dec_bl in H1. apply IH in H2. now subst.
  - inversion H; subst. apply andb_true_iff. split.
    + now apply Byte.byte_dec_lb.
    + now apply IH.
Qed.

Lemma strcmp_is_0_eq a b : strcmp_is_0 a b = true <-> c_str a = c_str b.
Proof. unfold strcmp_is_0. apply bytes_eqb_eq. Qed.

Lemma strlen_0 s : strlen s = 0 <-> c_str s = [].
Proof.
  unfold strlen. split; intros H.
  - destruct (c_str s); [reflexivity | simpl in H; lia].
  - now rewrite H.
Qed.

Lemma isDuplicateSSID_In s l :
  isDuplicateSSID s l = true <-> In (c_str s) (map name l).
Proof.
  unfold isDuplicateSSID. rewrite existsb_exists, in_map_iff. split.
  - intros [x [Hx E]]. apply strcmp_is_0_eq in E. exists x. now split.
  - intros [x [E Hx]]. exists x. split; [assumption|]. now apply strcmp_is_0_eq.
Qed.

Lemma quality_monotone a b : strength a <= strength b -> quality a <= quality b.
Proof.
  intros H. unfold quality, strength in *.
  rewrite !calculateSignalQuality_exact by apply s8_quality_in_range.
  now apply spec_quality_monotone.
Qed.

Lemma quality_nonneg a : 0 <= quality a.
Proof. apply calculateSignalQuality_bounds. Qed.

Lemma passes_true m ap :
  passes m ap = true -> name ap <> [] /\ _minimumQuality m <= quality ap.
Proof.
  unfold passes. rewrite andb_true_iff, !negb_true_iff. intros [H1 H2]. split.
  - intros E. apply strlen_0 in E. fold (name ap) in E.
    apply Z.eqb_neq in H1. contradiction.
  - pose proof (quality_nonneg ap).
    apply andb_false_iff in H2. rewrite Z.gtb_ltb in H2.
    destruct H2 as [H2|H2]; [apply Z.ltb_ge in H2 | apply Z.ltb_ge in H2]; lia.
Qed.

Lemma passes_false m ap :
  passes m ap = false -> name ap <> [] -> quality ap < _minimumQuality m.
Proof.
  unfold passes. intros H Hn.
  apply andb_false_iff in H. destruct H as [H|H].
  - apply negb_false_iff, Z.eqb_eq, strlen_0 in H. contradiction.
  - apply negb_false_iff, andb_true_iff in H. destruct H as [_ H].
    now apply Z.ltb_lt in H.
Qed.

Lemma filter_one_cases m acc ap :
  filter_one m acc ap
  = if passes m ap
    then (if _removeDuplicateAPs m && isDuplicateSSID (ssid ap) acc
          then keep_stronger ap acc
          else acc ++ [ap])
    else acc.
Proof.
  unfold filter_one, passes, quality, strength.
  destruct (strlen (ssid ap) =? 0); simpl; [reflexivity|].
  destruct ((_minimumQuality m >? 0)
            && (calculateSignalQuality (s8 (rssi ap)) <? _minimumQuality m));
    reflexivity.
Qed.

(** ** The replacement loop *)

Lemma keep_stronger_names ap l : map name (keep_stronger ap l) = map name l.
Proof.
  induction l as [|x l IH]; simpl; [reflexivity|].
  destruct (strcmp_is_0 (ssid x) (ssid ap)) eqn:E.
  - apply strcmp_is_0_eq in E.
    destruct (s8 (rssi ap) >? s8 (rssi x)); simpl; [|reflexivity].
    unfold name. now rewrite E.
  - simpl. now rewrite IH.
Qed.

Lemma keep_stronger_In ap l e :
  In e (keep_stronger ap l) -> In e l \/ e = ap.
Proof.
  induction l as [|x l IH]; simpl; [tauto|].
  destruct (strcmp_is_0 (ssid x) (ssid ap)).
  - destruct (s8 (rssi ap) >? s8 (rssi x)); simpl; intuition auto.
  - simpl. intuition auto.
Qed.

Lemma keep_stronger_grows ap l e :
  In e l ->
  exists e', In e' (keep_stronger ap l) /\ name e' = name e /\ strength e <= strength e'.
Proof.
  induction l as [|x l IH]; simpl; [tauto|]. intros [->|H].
  - destruct (strcmp_is_0 (ssid e) (ssid ap)) eqn:E.
    + apply strcmp_is_0_eq in E.
      destruct (s8 (rssi ap) >? s8 (rssi e)) eqn:G.
      * exists ap. rewrite Z.gtb_ltb in G. apply Z.ltb_lt in G.
        unfold name, strength. simpl. repeat split; auto; lia.
      * exists e. simpl. repeat split; auto; lia.
    + exists e. simpl. repeat split; auto; lia.
  - destruct (strcmp_is_0 (ssid x) (ssid ap)).
    + exists e. split; [|split; [reflexivity|lia]].
      destruct (s8 (rssi ap) >? s8 (rssi x)); simpl; auto.
    + destruct (IH H) as [e' [H1 H2]]. exists e'. simpl. auto.
Qed.

Lemma keep_stronger_covers ap l :
  isDuplicateSSID (ssid ap) l = true ->
  exists e', In e' (keep_stronger ap l) /\ name e' = name ap /\ strength ap <= strength e'.
Proof.
  unfold isDuplicateSSID.
  induction l as [|x l IH]; simpl; [discriminate|].
  destruct (strcmp_is_0 (ssid x) (ssid ap)) eqn:E; simpl.
  - intros _. apply strcmp_is_0_eq in E.
    destruct (s8 (rssi ap) >? s8 (rssi x)) eqn:G.
    + exists ap. simpl. repeat split; auto; lia.
    + exists x. rewrite Z.gtb_ltb in G. apply Z.ltb_ge in G.
      unfold name, strength. simpl. repeat split; auto.
  - intros H. destruct (IH H) as [e' [H1 H2]]. exists e'. auto.
Qed.

Lemma filter_inv_init m : filter_inv m [] [].
Proof. split; simpl; try tauto. intros _. constructor. Qed.

Lemma filter_inv_step m seen acc ap :
  filter_inv m seen acc -> filter_inv m (seen ++ [ap]) (filter_one m acc ap).
Proof.
  intros [I1 I2 I3 I4 I5]. rewrite filter_one_cases.
  destruct (passes m ap) eqn:P.
  - destruct (passes_true m ap P) as [Pn Pq].
    destruct (_removeDuplicateAPs m && isDuplicateSSID (ssid ap) acc) eqn:D.
    + apply andb_true_iff in D. destruct D as [D1 D2]. split.
      * intros e H. apply keep_stronger_In in H. destruct H as [H| ->]; auto.
      * intros e H. apply keep_stronger_In in H. destruct H as [H| ->]; auto.
      * intros e H. apply keep_stronger_In in H. rewrite in_app_iff.
        destruct H as [H| ->]; simpl; auto.
      * intros Hd. rewrite keep_stronger_names. auto.
      * intros r Hr Pr. apply in_app_iff in Hr. destruct Hr as [Hr|[<-|[]]].
        -- destruct (I5 r Hr Pr) as [e [E1 [E2 E3]]].
           destruct (keep_stronger_grows ap acc e E1) as [e' [F1 [F2 F3]]].
           exists e'. repeat split; auto; [congruence | lia].
        -- now apply keep_stronger_covers.
    + split.
      * intros e H. apply in_app_iff in H. destruct H as [H|[<-|[]]]; auto.
      * intros e H. apply in_app_iff in H. destruct H as [H|[<-|[]]]; auto.
      * intros e H. rewrite in_app_iff. apply in_app_iff in H.
        destruct H as [H|H]; auto.
      * intros Hd. rewrite Hd in D. simpl in D.
        rewrite map_app. simpl.
        assert (Hn : ~ In (name ap) (map name acc)).
        { intros H. apply isDuplicateSSID_In in H. congruence. }
        apply Permutation_NoDup with (l := name ap :: map name acc).
        -- apply Permutation_cons_append.
        -- constructor; auto.
      * intros r Hr Pr. apply in_app_iff in Hr. destruct Hr as [Hr|[<-|[]]].
        -- destruct (I5 r Hr Pr) as [e [E1 E2]]. exists e. rewrite in_app_iff. auto.
        -- exists ap. rewrite in_app_iff. simpl. repeat split; auto; lia.
  - split; auto.
    + intros e H. rewrite in_app_iff. auto.
    + intros r Hr Pr. apply in_app_iff in Hr. destruct Hr as [Hr|[<-|[]]]; auto.
      congruence.
Qed.

Lemma filter_inv_fold m raw : forall seen acc,
  filter_inv m seen acc ->
  filter_inv m (seen ++ raw) (fold_left (filter_one m) raw acc).
Proof.
  induction raw as [|ap raw IH]; intros seen acc H; simpl.
  - now rewrite app_nil_r.
  - replace (seen ++ ap :: raw) with ((seen ++ [ap]) ++ raw)
      by (rewrite <- app_assoc; reflexivity).
    apply IH. now apply filter_inv_step.
Qed.

Lemma filter_pass_inv m raw : filter_inv m raw (filter_pass m raw).
Proof. apply (filter_inv_fold m raw [] []). apply filter_inv_init. Qed.

(** ** The sort *)

Lemma insert_by_signal_perm ap l : Permutation (ap :: l) (insert_by_signal ap l).
Proof.
  induction l as [|x l IH]; simpl; [reflexivity|].
  destruct (s8 (rssi ap) >=? s8 (rssi x)); [reflexivity|].
  rewrite perm_swap. now apply perm_skip.
Qed.

Lemma sort_by_signal_perm l : Permutation l (sort_by_signal l).
Proof.
  unfold sort_by_signal. induction l as [|x l IH]; simpl; [reflexivity|].
  rewrite <- insert_by_signal_perm. now apply perm_skip.
Qed.

Lemma insert_by_signal_sorted ap l :
  StronglySorted (fun a b => s8 (rssi a) >= s8 (rssi b)) l ->
  StronglySorted (fun a b => s8 (rssi a) >= s8 (rssi b)) (insert_by_signal ap l).
Proof.
  induction l as [|x l IH]; intros H; simpl.
  - repeat constructor.
  - inversion H as [|? ? Hl Hx]; subst.
    destruct (s8 (rssi ap) >=? s8 (rssi x)) eqn:G; rewrite Z.geb_leb in G.
    + apply Z.leb_le in G. constructor; [assumption|].
      constructor; [lia|].
      rewrite Forall_forall in *. intros y Hy. specialize (Hx y Hy). lia.
    + apply Z.leb_gt in G. constructor; [now apply IH|].
      rewrite Forall_forall in *. intros y Hy.
      apply (Permutation_in y (Permutation_sym (insert_by_signal_perm ap l))) in Hy.
      destruct Hy as [<-|Hy]; [lia | now apply Hx].
Qed.

Lemma sort_by_signal_sorted l : sorted_by_signal l (sort_by_signal l).
Proof.
  split; [apply sort_by_signal_perm|].
  unfold sort_by_signal. induction l as [|x l IH]; simpl.
  - constructor.
  - now apply insert_by_signal_sorted.
Qed.

Lemma NoDup_map_injective {A B} (f : A -> B) l a b :
  NoDup (map f l) -> In a l -> In b l -> f a = f b -> a = b.
Proof.
  induction l as [|x l IH]; simpl; [tauto|].
  intros H Ha Hb E. inversion H as [|? ? Hx Hl]; subst.
  destruct Ha as [->|Ha], Hb as [->|Hb]; auto.
  - exfalso. apply Hx. rewrite E. now apply in_map.
  - exfalso. apply Hx. rewrite <- E. now apply in_map.
Qed.

Lemma passes_iff m ap :
  passes m ap = true <-> name ap <> [] /\ _minimumQuality m <= quality ap.
Proof.
  split; [apply passes_true|]. intros [Hn Hq].
  destruct (passes m ap) eqn:P; [reflexivity|].
  pose proof (passes_false m ap P Hn). lia.
Qed.

(** With duplicate removal switched off the loop is a plain filter: every
    record that has a name and reaches the minimum quality is appended, in
    the order of the scan. *)
Lemma filter_pass_flag_off m raw :
  _removeDuplicateAPs m = false -> filter_pass m raw = filter (passes m) raw.
Proof.
  intros Hd. unfold filter_pass.
  assert (G : forall acc, fold_left (filter_one m) raw acc = acc ++ filter (passes m) raw).
  { induction raw as [|ap raw IH]; intros acc; simpl.
    - now rewrite app_nil_r.
    - rewrite IH, filter_one_cases, Hd. simpl.
      destruct (passes m ap); [|reflexivity].
      rewrite <- app_assoc. reflexivity. }
  apply (G []).
Qed.

Lemma filter_then_sort m raw out :
  sorted_by_signal (filter_pass m raw) out -> filtered_as_specified m raw out.
Proof.
  intros [Hperm Hsorted].
  pose proof (filter_pass_inv m raw) as [I1 I2 I3 I4 I5].
  assert (Hin : forall e, In e out -> In e (filter_pass m raw))
    by (intros e; apply Permutation_in; now apply Permutation_sym).
  assert (Hstrong : forall e r, In e out -> In r raw -> name r = name e ->
            exists e', In e' out /\ name e' = name e /\ strength r <= strength e').
  { intros e r He Hr En.
    destruct (passes m r) eqn:P.
    - destruct (I5 r Hr P) as [e0 [E1 [E2 E3]]].
      exists e0. repeat split; [eapply Permutation_in; eassumption | congruence | assumption].
    - exists e. repeat split; auto.
      assert (Hq : quality r < _minimumQuality m).
      { apply passes_false; [assumption|]. rewrite En. apply I1. auto. }
      pose proof (I2 e (Hin e He)) as Hqe.
      destruct (Z.le_gt_cases (strength r) (strength e)) as [L|L]; [assumption|].
      pose proof (quality_monotone e r ltac:(lia)). lia. }
  split.
  - intros e He E. apply strlen_0 in E. apply (I1 e (Hin e He)). exact E.
  - intros e He. apply I2. auto.
  - exact Hsorted.
  - intros e He. apply I3. auto.
  - exact Hstrong.
  - intros Hd.
    assert (Hnd : NoDup (map name out)).
    { apply Permutation_NoDup with (l := map name (filter_pass m raw)).
      - now apply Permutation_map.
      - auto. }
    split; [exact Hnd|].
    intros e r He Hr En.
    destruct (Hstrong e r He Hr En) as [e' [E1 [E2 E3]]].
    assert (e' = e) by (eapply NoDup_map_injective; eassumption).
    now subst.
  - intros r Hr Hn Hq.
    destruct (I5 r Hr (proj2 (passes_iff m r) (conj Hn Hq))) as [e [E1 [E2 E3]]].
    exists e. repeat split; [eapply Permutation_in; eassumption | assumption | assumption].
  - intros Hd. rewrite <- (filter_pass_flag_off m raw Hd). exact Hperm.
Qed.

(** C5, as amended.  After [filterScanResults] the stored list holds no
    record with an empty SSID and none whose quality is below the minimum,
    it is sorted by descending signal strength, each of its records is one
    of the raw records, and nothing that qualifies is lost: for every raw
    record that has a name and reaches the minimum quality the list holds
    a record of that name at least as strong.  When duplicate removal is
    enabled, no two of its records share an SSID, so the record kept for a
    name is the strongest raw record of that name.  With duplicate removal
    disabled, records sharing an SSID all stay: the list is the sorted
    list of all the raw records that have a name and reach the minimum
    quality.  The same holds of any list [std::sort] may return for the
    filtered records. *)
Theorem filterScanResults_postcondition (m : WiFiManager) :
  filtered_as_specified m (_rawScanResults m) (_rawScanResults (filterScanResults m)) /\
  (forall out : list wifi_ap_record_t,
     sorted_by_signal (filter_pass m (_rawScanResults m)) out ->
     filtered_as_specified m (_rawScanResults m) out) /\
  (_removeDuplicateAPs m = false ->
     _rawScanResults (filterScanResults m)
     = sort_by_signal (filter (passes m) (_rawScanResults m))).
Proof.
  split; [|split; [intros out; apply filter_then_sort|]].
  - unfold filterScanResults.
    destruct (_rawScanResults m) as [|ap raw] eqn:E.
    + rewrite E. apply filter_then_sort. split; [reflexivity | constructor].
    + simpl _rawScanResults. apply filter_then_sort. apply sort_by_signal_sorted.
  - intros Hd. unfold filterScanResults.
    destruct (_rawScanResults m) as [|ap raw] eqn:E.
    + rewrite E. reflexivity.
    + simpl _rawScanResults. now rewrite filter_pass_flag_off.
Qed.

Lemma filterScanResults_postcondition_witness :
  let m := set_rawScanResults example_scan fresh in
  _rawScanResults (filterScanResults m) = [ap_home_near; ap_cafe] /\
  filtered_as_specified m example_scan [ap_home_near; ap_cafe].
Proof.
  cbv zeta. split; [reflexivity|].
  apply (proj1 (proj2 (filterScanResults_postcondition (set_rawScanResults example_scan fresh)))).
  split.
  - change (filter_pass (set_rawScanResults example_scan fresh)
              (_rawScanResults (set_rawScanResults example_scan fresh)))
      with [ap_home_near; ap_cafe].
    apply Permutation_refl.
  - repeat constructor. vm_compute. discriminate.
Defined.

(** C5 as stated fails on "no two entries with the same SSID" when
    duplicate removal is switched off: both HomeNet records stay. *)
Lemma filterScanResults_keeps_duplicates :
  let m := set_rawScanResults [ap_home_far; ap_home_near]
             (setRemoveDuplicateAPs false fresh) in
  let out := _rawScanResults (filterScanResults m) in
  out = [ap_home_near; ap_home_far] /\
  name ap_home_near = name ap_home_far /\
  ~ NoDup (map name out).
Proof.
  cbv zeta. split; [reflexivity|]. split; [reflexivity|].
  intros H. vm_compute in H. inversion H as [|x l Hnotin _]; subst.
  apply Hnotin. left. reflexivity.
Qed.

(** * The blocking waits *)

Lemma configPortal_wait_done R passes m :
  in_wait_loop m = false ->
  configPortal_wait R passes m = (Some (wm_state_eqb (_state m) WM_STATE_RUN_STA), m, []).
Proof.
  unfold in_wait_loop. intros H. destruct passes; simpl; rewrite H; reflexivity.
Qed.

Lemma configPortal_wait_pass R it rest m :
  in_wait_loop m = true ->
  configPortal_wait R (it :: rest) m
  = let d := deliver_all R (delivered it) (updateState (t_update it) m) in
    if portal_timed_out (t_check it) (manager_of d)
    then (Some false, set_state WM_STATE_PORTAL_TIMEOUT (manager_of d),
          vTaskDelay_ms 100 :: calls_of d)
    else let w := configPortal_wait R rest (manager_of d) in
         (result_of w, manager_of w, vTaskDelay_ms 100 :: calls_of d ++ calls_of w).
Proof.
  unfold in_wait_loop, portal_timed_out. intros H. simpl. rewrite H.
  cbv beta iota delta [bind ret get modify emit manager_of result_of calls_of].
  simpl.
  destruct (deliver_all R (delivered it) (updateState (t_update it) m)) as [[u m2] l].
  simpl.
  destruct ((_configPortalTimeout m2 >? 0)
            && (elapsed (t_check it) (_configPortalStart m2) >? _configPortalTimeout m2)).
  - rewrite app_nil_r. reflexivity.
  - destruct (configPortal_wait R rest m2) as [[b m3] l3]. reflexivity.
Qed.

(** When the loop's own check finds the portal timeout elapsed, the pass
    ends the wait with [false] and the state [PORTAL_TIMEOUT], whatever was
    delivered during the pass: a connection that got its IP address in
    that same pass is reported as a timeout. *)
Theorem portal_wait_timeout_overrides
    (R : wifi_err_reason_values) (it : loop_iteration) (rest : list loop_iteration)
    (m : WiFiManager) :
  in_wait_loop m = true ->
  portal_timed_out (t_check it)
    (manager_of (deliver_all R (delivered it) (updateState (t_update it) m))) = true ->
  let r := configPortal_wait R (it :: rest) m in
  result_of r = Some false /\
  _state (manager_of r) = WM_STATE_PORTAL_TIMEOUT /\
  calls_of r
  = vTaskDelay_ms 100
    :: calls_of (deliver_all R (delivered it) (updateState (t_update it) m)).
Proof.
  intros Hl Ht. cbv zeta. rewrite configPortal_wait_pass by assumption.
  cbv zeta. rewrite Ht. auto.
Qed.

Lemma portal_wait_timeout_overrides_witness :
  let m := setSaveConfigCallback (Some 7%nat) (fresh_in WM_STATE_RUN_PORTAL) in
  let it := {| t_update := 179000000;
               delivered := [IpEvent IP_EVENT_STA_GOT_IP];
               t_check := 180000001 |} in
  let r := configPortal_wait esp_idf_reasons [it] m in
  result_of r = Some false /\
  _state (manager_of r) = WM_STATE_PORTAL_TIMEOUT /\
  calls_of r = [vTaskDelay_ms 100; call_saveConfigCallback 7%nat].
Proof.
  cbv zeta.
  apply (portal_wait_timeout_overrides esp_idf_reasons
           {| t_update := 179000000;
              delivered := [IpEvent IP_EVENT_STA_GOT_IP];
              t_check := 180000001 |} []
           (setSaveConfigCallback (Some 7%nat) (fresh_in WM_STATE_RUN_PORTAL)));
    reflexivity.
Defined.

(** What the blocking wait reports: it returns [true] exactly when it
    leaves the Manager in [RUN_STA], it never returns while the state is
    [RUN_PORTAL] or [TRY_STA], and while it has not returned the state is
    one of those two. *)
Theorem portal_wait_result (R : wifi_err_reason_values) (passes : list loop_iteration) :
  forall m : WiFiManager,
    let r := configPortal_wait R passes m in
    match result_of r with
    | Some b =>
        b = wm_state_eqb (_state (manager_of r)) WM_STATE_RUN_STA /\
        in_wait_loop (manager_of r) = false
    | None => in_wait_loop (manager_of r) = true
    end.
Proof.
  induction passes as [|it rest IH]; intros m; cbv zeta.
  - destruct (in_wait_loop m) eqn:Hl.
    + simpl. unfold in_wait_loop in Hl. rewrite Hl. simpl. exact Hl.
    + rewrite configPortal_wait_done by assumption. simpl. auto.
  - destruct (in_wait_loop m) eqn:Hl.
    + rewrite configPortal_wait_pass by assumption. cbv zeta.
      destruct (portal_timed_out _ _).
      * simpl. auto.
      * unfold result_of at 1, manager_of at 1 2 3. simpl fst. simpl snd.
        apply IH.
    + rewrite configPortal_wait_done by assumption. simpl. auto.
Qed.

Lemma portal_timed_out_same now m m' :
  _configPortalTimeout m' = _configPortalTimeout m ->
  _configPortalStart m' = _configPortalStart m ->
  portal_timed_out now m' = portal_timed_out now m.
Proof. unfold portal_timed_out. intros -> ->. reflexivity. Qed.

Lemma portal_wait_bounded_from R passes : forall m m0,
  _configPortalTimeout m = _configPortalTimeout m0 ->
  _configPortalStart m = _configPortalStart m0 ->
  existsb (fun it => portal_timed_out (t_check it) m0) passes = true ->
  result_of (configPortal_wait R passes m) <> None.
Proof.
  induction passes as [|it rest IH]; intros m m0 E1 E2 H; [discriminate H|].
  destruct (in_wait_loop m) eqn:Hl.
  2:{ rewrite configPortal_wait_done by assumption. discriminate. }
  rewrite configPortal_wait_pass by assumption. cbv zeta.
  set (m2 := manager_of (deliver_all R (delivered it) (updateState (t_update it) m))).
  assert (K : _configPortalTimeout m2 = _configPortalTimeout m0 /\
              _configPortalStart m2 = _configPortalStart m0).
  { destruct (deliver_all_keeps R (delivered it) (updateState (t_update it) m))
      as [G1 [G2 _]].
    destruct (updateState_fields (t_update it) m) as [F1 F2].
    unfold m2. split; congruence. }
  destruct K as [K1 K2].
  rewrite (portal_timed_out_same (t_check it) m0 m2 K1 K2).
  simpl in H. destruct (portal_timed_out (t_check it) m0).
  - discriminate.
  - simpl in H. unfold result_of at 1. simpl fst.
    now apply (IH m2 m0).
Qed.

(** With a positive portal timeout the blocking wait is bounded: it has
    returned by the first pass whose clock reading, at the loop's check,
    lies more than the timeout after the portal start marker. *)
Theorem portal_wait_bounded
    (R : wifi_err_reason_values) (passes : list loop_iteration) (m : WiFiManager) :
  existsb (fun it => portal_timed_out (t_check it) m) passes = true ->
  result_of (configPortal_wait R passes m) <> None.
Proof. intros H. now apply (portal_wait_bounded_from R passes m m). Qed.

Lemma portal_wait_bounded_witness :
  result_of (configPortal_wait esp_idf_reasons
               [ {| t_update := 1000; delivered := []; t_check := 101000 |};
                 {| t_update := 180000000; delivered := []; t_check := 180100000 |};
                 {| t_update := 180100000; delivered := []; t_check := 180200000 |} ]
               (fresh_in WM_STATE_RUN_PORTAL))
  <> None.
Proof.
  apply (portal_wait_bounded esp_idf_reasons _ (fresh_in WM_STATE_RUN_PORTAL)).
  reflexivity.
Defined.

(** With a portal timeout of zero and nothing delivered, the blocking wait
    of a Manager in [RUN_PORTAL] never returns: after any number of passes
    it is still waiting, the Manager is unchanged and all it has done is
    sleep. *)
Theorem portal_wait_unbounded_without_timeout
    (R : wifi_err_reason_values) (passes : list loop_iteration) (m : WiFiManager) :
  _configPortalTimeout m = 0 ->
  _state m = WM_STATE_RUN_PORTAL ->
  Forall (fun it => delivered it = []) passes ->
  configPortal_wait R passes m
  = (None, m, repeat (vTaskDelay_ms 100) (length passes)).
Proof.
  intros H0 Hs HF.
  assert (Hl : in_wait_loop m = true) by (unfold in_wait_loop; now rewrite Hs).
  induction HF as [|it rest Hit HF IH].
  - simpl. unfold in_wait_loop in Hl. now rewrite Hl.
  - rewrite configPortal_wait_pass by assumption. cbv zeta. rewrite Hit.
    assert (Hu : updateState (t_update it) m = m).
    { unfold updateState. rewrite Hs, H0. reflexivity. }
    simpl deliver_all. unfold ret, manager_of, calls_of. simpl fst. simpl snd.
    rewrite Hu.
    replace (portal_timed_out (t_check it) m) with false
      by (unfold portal_timed_out; now rewrite H0).
    rewrite IH. reflexivity.
Qed.

Lemma portal_wait_unbounded_without_timeout_witness :
  configPortal_wait esp_idf_reasons
    [ {| t_update := 1000; delivered := []; t_check := 101000 |};
      {| t_update := 999999999000; delivered := []; t_check := 999999999999 |} ]
    (setConfigPortalTimeout 0 (fresh_in WM_STATE_RUN_PORTAL))
  = (None, setConfigPortalTimeout 0 (fresh_in WM_STATE_RUN_PORTAL),
     [vTaskDelay_ms 100; vTaskDelay_ms 100]).
Proof.
  apply (portal_wait_unbounded_without_timeout esp_idf_reasons
           [ {| t_update := 1000; delivered := []; t_check := 101000 |};
             {| t_update := 999999999000; delivered := []; t_check := 999999999999 |} ]
           (setConfigPortalTimeout 0 (fresh_in WM_STATE_RUN_PORTAL))).
  - reflexivity.
  - reflexivity.
  - repeat constructor.
Defined.

(** * DNS task life cycle *)

Lemma dnsServerTask_cleanup_closed m :
  _dnsSocket m < 0 ->
  dnsServerTask_cleanup m = (tt, set_dnsTaskHandle None m, []).
Proof.
  intros H. unfold dnsServerTask_cleanup. op_simpl.
  replace (_dnsSocket m >=? 0) with false
    by (symmetry; rewrite Z.geb_leb; apply Z.leb_gt; lia).
  reflexivity.
Qed.

Lemma stopDNSServer_wait_dead timeout exit_during m :
  _dnsTaskHandle m = None ->
  stopDNSServer_wait timeout exit_during m = (tt, m, []).
Proof. intros H. destruct timeout; simpl; rewrite H; reflexivity. Qed.

Lemma stopDNSServer_wait_never timeout : forall m task,
  _dnsTaskHandle m = Some task ->
  stopDNSServer_wait timeout None m = (tt, m, repeat (vTaskDelay_ms 100) timeout).
Proof.
  induction timeout as [|t IH]; intros m task H; simpl; rewrite H; [reflexivity|].
  unfold bind, emit. rewrite (IH m task H). reflexivity.
Qed.

Lemma stopDNSServer_wait_alive timeout : forall n m task,
  _dnsTaskHandle m = Some task -> _dnsSocket m < 0 ->
  stopDNSServer_wait timeout (Some n) m
  = if (n <? timeout)%nat
    then (tt, set_dnsTaskHandle None m, repeat (vTaskDelay_ms 100) (S n))
    else (tt, m, repeat (vTaskDelay_ms 100) timeout).
Proof.
  induction timeout as [|t IH]; intros n m task H Hs.
  - simpl. rewrite H. reflexivity.
  - simpl stopDNSServer_wait. rewrite H. destruct n as [|k].
    + unfold bind, emit. rewrite dnsServerTask_cleanup_closed by assumption.
      rewrite stopDNSServer_wait_dead by reflexivity. reflexivity.
    + unfold bind, emit. rewrite (IH k m task H Hs).
      change (S k <? S t)%nat with (k <? t)%nat.
      destruct (k <? t)%nat; reflexivity.
Qed.

(** Stopping a running responder whose socket is open and whose task is
    alive closes the socket once, sleeps until the task has exited, for at
    most fifty delays of 100 ms, deletes the task itself only when it has
    not exited by then, and leaves the responder stopped with socket and
    task handle cleared. *)
Theorem stopDNSServer_bounded_teardown
    (m : WiFiManager) (task : handle) (exit_during : option nat) :
  _dnsRunning m = true ->
  0 <= _dnsSocket m ->
  _dnsTaskHandle m = Some task ->
  stopDNSServer exit_during m
  = (tt,
     set_dnsTaskHandle None (set_dnsSocket (-1) (set_dnsRunning false m)),
     close (_dnsSocket m) :: stop_wait_calls task exit_during).
Proof.
  intros Hr Hs Ht. unfold stopDNSServer.
  unfold bind at 1. unfold get at 1. rewrite Hr. change (negb true) with false. cbv iota.
  unfold bind at 1. unfold modify at 1.
  unfold bind at 1. unfold get at 1.
  change (_dnsSocket (set_dnsRunning false m)) with (_dnsSocket m).
  replace (_dnsSocket m >=? 0) with true
    by (symmetry; rewrite Z.geb_leb; apply Z.leb_le; lia).
  unfold bind at 1. unfold bind at 1. unfold emit at 1. unfold modify at 1.
  set (m2 := set_dnsSocket (-1) (set_dnsRunning false m)).
  assert (H2 : _dnsTaskHandle m2 = Some task) by exact Ht.
  assert (S2 : _dnsSocket m2 < 0) by (simpl; lia).
  unfold bind at 1. unfold stop_wait_calls.
  destruct exit_during as [n|].
  - rewrite (stopDNSServer_wait_alive 50 n m2 task H2 S2).
    destruct (n <? 50)%nat.
    + op_simpl. rewrite app_nil_r. reflexivity.
    + op_simpl. rewrite H2. simpl.
      destruct m; simpl in *. subst. reflexivity.
  - rewrite (stopDNSServer_wait_never 50 m2 task H2).
    op_simpl. rewrite H2. simpl. reflexivity.
Qed.

Lemma stopDNSServer_bounded_teardown_witness :
  stopDNSServer (Some 3%nat) portal_running
  = (tt,
     set_dnsTaskHandle None (set_dnsSocket (-1) (set_dnsRunning false portal_running)),
     [close 54; vTaskDelay_ms 100; vTaskDelay_ms 100; vTaskDelay_ms 100; vTaskDelay_ms 100]).
Proof.
  apply (stopDNSServer_bounded_teardown portal_running 2 (Some 3%nat));
    [reflexivity | simpl; lia | reflexivity].
Defined.

Lemma closes_of_app fd l1 l2 : closes_of fd (l1 ++ l2) = (closes_of fd l1 + closes_of fd l2)%nat.
Proof. unfold closes_of. now rewrite filter_app, length_app. Qed.

Lemma closes_of_delays fd n : closes_of fd (repeat (vTaskDelay_ms 100) n) = 0%nat.
Proof. unfold closes_of. induction n; simpl; auto. Qed.

Lemma closes_of_stop_wait fd task exit_during :
  closes_of fd (stop_wait_calls task exit_during) = 0%nat.
Proof.
  unfold stop_wait_calls.
  destruct exit_during as [n|]; [destruct (n <? 50)%nat|];
    rewrite ?closes_of_app, ?closes_of_delays; reflexivity.
Qed.

(** [startDNSServer] on a responder already running returns [true] and
    changes nothing; when the task cannot be created it returns [false]
    and the Manager is exactly as before the call; when the task is
    created the responder is marked running with the new handle and no
    other field changes. *)
Theorem startDNSServer_outcomes (m : WiFiManager) (created : option handle) :
  (_dnsRunning m = true -> startDNSServer created m = (true, m, [])) /\
  (_dnsRunning m = false -> created = None -> startDNSServer created m = (false, m, [])) /\
  (_dnsRunning m = false -> forall task, created = Some task ->
     startDNSServer created m
     = (true, set_dnsTaskHandle (Some task) (set_dnsRunning true m), [])).
Proof.
  unfold startDNSServer. split; [|split].
  - intros H. op_simpl. rewrite H. reflexivity.
  - intros H ->. op_simpl. rewrite H. simpl.
    destruct m; simpl in *. subst. reflexivity.
  - intros H task ->. op_simpl. rewrite H. reflexivity.
Qed.

Lemma startDNSServer_outcomes_witness :
  startDNSServer None fresh = (false, fresh, []) /\
  startDNSServer (Some 9) portal_running = (true, portal_running, []).
Proof.
  split.
  - apply (proj1 (proj2 (startDNSServer_outcomes fresh None))); reflexivity.
  - apply (proj1 (startDNSServer_outcomes portal_running (Some 9))). reflexivity.
Defined.

(** * What starting and stopping servers leaves alone *)

Lemma servers_frame_refl m : servers_frame m m.
Proof. unfold servers_frame. repeat split. Qed.

Lemma servers_frame_trans m1 m2 m3 :
  servers_frame m1 m2 -> servers_frame m2 m3 -> servers_frame m1 m3.
Proof. unfold servers_frame. intuition congruence. Qed.

Lemma keeps_frame_ret {A} (a : A) : keeps_frame (ret a).
Proof. intros m. apply servers_frame_refl. Qed.

Lemma keeps_frame_get {A} (f : WiFiManager -> A) : keeps_frame (get f).
Proof. intros m. apply servers_frame_refl. Qed.

Lemma keeps_frame_emit e : keeps_frame (emit e).
Proof. intros m. apply servers_frame_refl. Qed.

Lemma keeps_frame_bind {A B} (c : Op A) (k : A -> Op B) :
  keeps_frame c -> (forall a, keeps_frame (k a)) -> keeps_frame (bind c k).
Proof.
  intros Hc Hk m. rewrite manager_of_bind.
  eapply servers_frame_trans; [apply Hc | apply Hk].
Qed.

Lemma keeps_frame_set_httpServer v : keeps_frame (modify (set_httpServer v)).
Proof. intros m. unfold servers_frame. repeat split. Qed.

Lemma keeps_frame_set_dnsRunning v : keeps_frame (modify (set_dnsRunning v)).
Proof. intros m. unfold servers_frame. repeat split. Qed.

Lemma keeps_frame_set_dnsSocket v : keeps_frame (modify (set_dnsSocket v)).
Proof. intros m. unfold servers_frame. repeat split. Qed.

Lemma keeps_frame_set_dnsTaskHandle v : keeps_frame (modify (set_dnsTaskHandle v)).
Proof. intros m. unfold servers_frame. repeat split. Qed.

Lemma keeps_frame_set_cleanupInProgress v : keeps_frame (modify (set_cleanupInProgress v)).
Proof. intros m. unfold servers_frame. repeat split. Qed.

Create HintDb frame.

#[local] Hint Resolve keeps_frame_ret keeps_frame_get keeps_frame_emit
  keeps_frame_set_httpServer keeps_frame_set_dnsRunning keeps_frame_set_dnsSocket
  keeps_frame_set_dnsTaskHandle keeps_frame_set_cleanupInProgress : frame.

Ltac frame_steps :=
  repeat first
    [ solve [auto with frame]
    | match goal with
      | |- keeps_frame (if ?b then _ else _) => destruct b
      | |- keeps_frame (match ?x with Some _ => _ | None => _ end) => destruct x
      | |- keeps_frame (bind _ _) => apply keeps_frame_bind; [|intros ?]
      end ].

Lemma keeps_frame_dnsServerTask_cleanup : keeps_frame dnsServerTask_cleanup.
Proof. unfold dnsServerTask_cleanup. frame_steps. Qed.

Lemma keeps_frame_stopDNSServer_wait timeout : forall exit_during,
  keeps_frame (stopDNSServer_wait timeout exit_during).
Proof.
  induction timeout as [|t IH]; intros e m; simpl.
  - destruct (_dnsTaskHandle m); apply servers_frame_refl.
  - destruct (_dnsTaskHandle m); [|apply servers_frame_refl].
    revert m. apply keeps_frame_bind; [auto with frame|]. intros _.
    destruct e as [[|k]|]; auto.
    apply keeps_frame_bind; [apply keeps_frame_dnsServerTask_cleanup | auto].
Qed.

Lemma keeps_frame_stopHTTPServer : keeps_frame stopHTTPServer.
Proof. unfold stopHTTPServer. frame_steps. Qed.

#[local] Hint Resolve keeps_frame_stopDNSServer_wait keeps_frame_stopHTTPServer : frame.

Lemma keeps_frame_stopDNSServer exit_during : keeps_frame (stopDNSServer exit_during).
Proof. unfold stopDNSServer. frame_steps. Qed.

#[local] Hint Resolve keeps_frame_stopDNSServer : frame.

Lemma keeps_frame_stopServers exit_during : keeps_frame (stopServers exit_during).
Proof. unfold stopServers. frame_steps. Qed.

Lemma keeps_frame_startDNSServer created : keeps_frame (startDNSServer created).
Proof. unfold startDNSServer. frame_steps. Qed.

Lemma servers_frame_process now m m' :
  servers_frame m m' -> result_of (process now m') = result_of (process now m).
Proof.
  intros (F1 & F2 & F3 & _ & _ & _ & _ & _ & _ & _ & _ & F12 & F13).
  rewrite !process_unfold. unfold result_of. simpl.
  unfold updateState. rewrite F1, F2, F3, F12, F13.
  destruct (_state m) eqn:Hs; rewrite ?F1, ?Hs; try reflexivity;
    branches; simpl; rewrite ?F1, ?Hs; reflexivity.
Qed.

(** [stopServers] (and starting or stopping the DNS responder) touches
    only the HTTP handle, the three DNS fields and the teardown flag: the
    state, the last connection result, timeouts, scan results, parameters
    and callback are as before.  The state machine therefore does not
    notice the teardown: a portal whose servers were stopped in
    [RUN_PORTAL] still reports [isConfigPortalActive() == true], and
    [process()] returns what it would have returned. *)
Theorem stopServers_leaves_state_machine
    (m : WiFiManager) (exit_during : option nat) (created : option handle) :
  let m' := manager_of (stopServers exit_during m) in
  servers_frame m m' /\
  servers_frame m (manager_of (stopDNSServer exit_during m)) /\
  servers_frame m (manager_of (startDNSServer created m)) /\
  isConfigPortalActive m' = isConfigPortalActive m /\
  (forall now, result_of (process now m') = result_of (process now m)) /\
  (_cleanupInProgress m = false -> isWebPortalActive m' = false).
Proof.
  cbv zeta.
  pose proof (keeps_frame_stopServers exit_during m) as F.
  split; [exact F|]. split; [apply keeps_frame_stopDNSServer|].
  split; [apply keeps_frame_startDNSServer|]. split; [|split].
  - unfold isConfigPortalActive. destruct F as [F _]. now rewrite F.
  - intros now. now apply servers_frame_process.
  - intros Hc. unfold isWebPortalActive.
    destruct (stopServers_post exit_during m Hc) as [P _]. now rewrite P.
Qed.

Lemma stopServers_leaves_state_machine_witness :
  let m' := manager_of (stopServers None portal_running) in
  isConfigPortalActive m' = true /\
  result_of (process 1000 m') = true /\
  isWebPortalActive m' = false.
Proof.
  cbv zeta.
  pose proof (stopServers_leaves_state_machine portal_running None None) as W.
  cbv zeta in W. destruct W as (_ & _ & _ & W1 & W2 & W3).
  split; [rewrite W1; reflexivity|]. split; [rewrite W2; reflexivity|].
  apply W3. reflexivity.
Defined.

(** * The connect wait of autoConnect *)

Lemma deliver_network_keeps_connect R ev m :
  is_network_event ev = true ->
  _connectStart (manager_of (deliver R ev m)) = _connectStart m /\
  _connectTimeout (manager_of (deliver R ev m)) = _connectTimeout m.
Proof.
  destruct ev as [e|e|now|]; try discriminate; intros _;
    destruct e; op_simpl; branches; simpl; auto.
Qed.

Lemma deliver_all_network_keeps_connect R evs : forall m,
  forallb is_network_event evs = true ->
  _connectStart (manager_of (deliver_all R evs m)) = _connectStart m /\
  _connectTimeout (manager_of (deliver_all R evs m)) = _connectTimeout m.
Proof.
  induction evs as [|ev rest IH]; intros m H; simpl in *; [auto|].
  apply andb_true_iff in H. destruct H as [H1 H2].
  rewrite manager_of_bind.
  destruct (deliver_network_keeps_connect R ev m H1) as [A1 A2].
  destruct (IH (manager_of (deliver R ev m)) H2) as [B1 B2].
  split; congruence.
Qed.

Lemma updateState_connect_fields now m :
  _connectStart (updateState now m) = _connectStart m /\
  _connectTimeout (updateState now m) = _connectTimeout m.
Proof. unfold updateState. destruct (_state m); branches; auto. Qed.

Lemma autoConnect_wait_loop_pass R it rest m :
  _state m = WM_STATE_TRY_STA ->
  autoConnect_wait_loop R (it :: rest) m
  = let d := deliver_all R (delivered it) (updateState (t_update it) m) in
    if elapsed (t_check it) (_connectStart (manager_of d)) >? _connectTimeout (manager_of d)
    then (true, manager_of d, vTaskDelay_ms 100 :: calls_of d)
    else let w := autoConnect_wait_loop R rest (manager_of d) in
         (result_of w, manager_of w, vTaskDelay_ms 100 :: calls_of d ++ calls_of w).
Proof.
  intros H. simpl. rewrite H. simpl.
  cbv beta iota delta [bind ret get modify emit manager_of result_of calls_of].
  simpl.
  destruct (deliver_all R (delivered it) (updateState (t_update it) m)) as [[u m2] l].
  simpl.
  destruct (elapsed (t_check it) (_connectStart m2) >? _connectTimeout m2).
  - rewrite app_nil_r. reflexivity.
  - destruct (autoConnect_wait_loop R rest m2) as [[b m3] l3]. reflexivity.
Qed.

Lemma autoConnect_wait_loop_left R passes m :
  _state m <> WM_STATE_TRY_STA -> autoConnect_wait_loop R passes m = (true, m, []).
Proof.
  intros H. assert (E : wm_state_eqb (_state m) WM_STATE_TRY_STA = false).
  { destruct (wm_state_eqb (_state m) WM_STATE_TRY_STA) eqn:E; [|reflexivity].
    apply wm_state_eqb_eq in E. contradiction. }
  destruct passes; simpl; rewrite E; reflexivity.
Qed.

Lemma autoConnect_wait_loop_bounded R passes : forall m start tmo,
  _connectStart m = start -> _connectTimeout m = tmo ->
  Forall (fun it => forallb is_network_event (delivered it) = true) passes ->
  existsb (fun it => elapsed (t_check it) start >? tmo) passes = true ->
  result_of (autoConnect_wait_loop R passes m) = true.
Proof.
  induction passes as [|it rest IH]; intros m start tmo Es Et HF HE; [discriminate HE|].
  destruct (wm_state_eqb (_state m) WM_STATE_TRY_STA) eqn:E.
  2:{ rewrite autoConnect_wait_loop_left; [reflexivity|].
      intros C. rewrite C in E. discriminate E. }
  apply wm_state_eqb_eq in E.
  rewrite autoConnect_wait_loop_pass by assumption. cbv zeta.
  inversion HF as [|? ? Hit HF']; subst.
  destruct (deliver_all_network_keeps_connect R (delivered it)
              (updateState (t_update it) m) Hit) as [D1 D2].
  destruct (updateState_connect_fields (t_update it) m) as [U1 U2].
  rewrite D1, D2, U1, U2.
  simpl in HE.
  destruct (elapsed (t_check it) (_connectStart m) >? _connectTimeout m).
  - reflexivity.
  - simpl in HE. unfold result_of at 1. simpl fst.
    apply (IH _ (_connectStart m) (_connectTimeout m)); auto; congruence.
Qed.

(** The connect wait of a blocking [autoConnect] is bounded by the connect
    timeout: when only network events arrive, it is over by the first pass
    whose clock reading, at the loop's check, lies more than the timeout
    after the start of the attempt.  It ends in [true] only with the
    Manager in [RUN_STA], and otherwise goes on to the configuration
    portal.  In non-blocking mode it returns [true] at once with the
    Manager in [TRY_STA]. *)
Theorem autoConnect_wait_bounded
    (R : wifi_err_reason_values) (now : Z) (passes : list loop_iteration)
    (m : WiFiManager) :
  let r := autoConnect_wait R now passes m in
  (_configPortalBlocking m = false ->
     r = (returned true, set_connectStart now (set_state WM_STATE_TRY_STA m), [])) /\
  (_configPortalBlocking m = true ->
     (result_of r = returned true -> _state (manager_of r) = WM_STATE_RUN_STA) /\
     (result_of r = falls_through -> _state (manager_of r) <> WM_STATE_RUN_STA) /\
     result_of r <> returned false /\
     (Forall (fun it => forallb is_network_event (delivered it) = true) passes ->
      existsb (fun it => elapsed (t_check it) now >? _connectTimeout m) passes = true ->
      result_of r <> still_waiting)).
Proof.
  cbv zeta. unfold autoConnect_wait.
  set (m0 := set_connectStart now (set_state WM_STATE_TRY_STA m)).
  split.
  - intros Hb. op_simpl. rewrite Hb. reflexivity.
  - intros Hb.
    assert (E : (modify (set_state WM_STATE_TRY_STA);;
                 modify (set_connectStart now);;
                 blocking <- get _configPortalBlocking;;
                 (if blocking
                  then
                   left <- autoConnect_wait_loop R passes;;
                   (if left
                    then
                     s <- get _state;;
                     (if wm_state_eqb s WM_STATE_RUN_STA
                      then ret (returned true)
                      else ret falls_through)
                    else ret still_waiting)
                  else ret (returned true)))%op m
                = let w := autoConnect_wait_loop R passes m0 in
                  (if result_of w
                   then if wm_state_eqb (_state (manager_of w)) WM_STATE_RUN_STA
                        then returned true else falls_through
                   else still_waiting,
                   manager_of w, calls_of w)).
    { cbv beta iota delta [bind ret get modify emit manager_of result_of calls_of].
      simpl. rewrite Hb. fold m0.
      destruct (autoConnect_wait_loop R passes m0) as [[b m3] l3]. simpl.
      destruct b; [destruct (wm_state_eqb (_state m3) WM_STATE_RUN_STA)|];
        simpl; rewrite ?app_nil_r; reflexivity. }
    rewrite E. cbv zeta.
    pose proof (autoConnect_wait_loop_bounded R passes m0 now (_connectTimeout m)
                  eq_refl eq_refl) as B.
    destruct (autoConnect_wait_loop R passes m0) as [[b m3] l3].
    unfold result_of, manager_of in *. simpl fst in *. simpl snd in *.
    repeat split.
    + destruct b; [|discriminate].
      destruct (wm_state_eqb (_state m3) WM_STATE_RUN_STA) eqn:S; [|discriminate].
      intros _. now apply wm_state_eqb_eq.
    + destruct b; [|discriminate].
      destruct (wm_state_eqb (_state m3) WM_STATE_RUN_STA) eqn:S; [discriminate|].
      intros _ C. rewrite C in S. discriminate S.
    + destruct b; [destruct (wm_state_eqb (_state m3) WM_STATE_RUN_STA)|]; discriminate.
    + intros HF HE. rewrite (B HF HE).
      destruct (wm_state_eqb (_state m3) WM_STATE_RUN_STA); discriminate.
Qed.

Lemma autoConnect_wait_bounded_witness :
  result_of (autoConnect_wait esp_idf_reasons 0
               [ {| t_update := 100000; delivered := [WifiEvent WIFI_EVENT_STA_CONNECTED];
                    t_check := 200000 |};
                 {| t_update := 30000000; delivered := []; t_check := 30100000 |} ]
               fresh)
  <> still_waiting.
Proof.
  apply (proj2 (autoConnect_wait_bounded esp_idf_reasons 0
                  [ {| t_update := 100000;
                       delivered := [WifiEvent WIFI_EVENT_STA_CONNECTED];
                       t_check := 200000 |};
                    {| t_update := 30000000; delivered := []; t_check := 30100000 |} ]
                  fresh) ltac:(reflexivity)).
  - repeat constructor.
  - reflexivity.
Defined.

(** * Parameter values *)

Lemma int_of_size_small n : Z.of_nat n <= INT_MAX -> int_of_size n = Z.of_nat n.
Proof. intros H. unfold int_of_size. apply wrap_s32_id. unfold INT_MIN. lia. Qed.

Lemma grow_length_spec p :
  Z.of_nat (length (_value p)) <= INT_MAX ->
  _value (grow_length p) = _value p /\
  _length (grow_length p) = Z.max (_length p) (Z.of_nat (length (_value p))) /\
  value_fits (grow_length p).
Proof.
  intros H. unfold grow_length, value_fits. rewrite int_of_size_small by assumption.
  destruct (Z.of_nat (length (_value p)) >? _length p) eqn:G;
    rewrite Z.gtb_ltb in G; [apply Z.ltb_lt in G | apply Z.ltb_ge in G]; simpl;
    repeat split; lia.
Qed.

Lemma c_str_length buffer : (length (c_str buffer) <= length buffer)%nat.
Proof.
  induction buffer as [|b r IH]; simpl; [lia|].
  destruct (Byte.eqb b x00); simpl; lia.
Qed.

(** A parameter built by a constructor holds a value that fits its
    recorded length, and every [setValue] keeps it so: the setters never
    cut a value down to the length given at construction, they raise the
    recorded length to the length of the value, so the recorded length
    never decreases.  [setValue(value, n)] with [n >= 0] stores the first
    [n] characters of the C string, [setValue(value)] all of it, and
    [setValue(nullptr)] empties the value and keeps the length.  (Values
    shorter than 2^31 characters.) *)
Theorem parameter_value_fits (p : WiFiManagerParameter) (buffer : list byte) (n : Z) :
  Z.of_nat (length buffer) <= INT_MAX ->
  value_fits p ->
  (* construction *)
  (forall id placeholder custom len type,
     value_fits (WiFiManagerParameter_init id placeholder (Some buffer) len custom type) /\
     value_fits (WiFiManagerParameter_init id placeholder None len custom type)) /\
  value_fits (WiFiManagerParameter_custom (Some buffer)) /\
  (* setValue(value), the default length -1 *)
  (_value (setValue (Some buffer) (-1) p) = c_str buffer /\
   _length (setValue (Some buffer) (-1) p)
   = Z.max (_length p) (Z.of_nat (length (c_str buffer)))) /\
  (* setValue(value, n) *)
  (0 <= n ->
     _value (setValue (Some buffer) n p) = firstn (Z.to_nat n) (c_str buffer)) /\
  value_fits (setValue (Some buffer) n p) /\
  _length p <= _length (setValue (Some buffer) n p) /\
  (* setValue(nullptr) *)
  (setValue None n p = set_value [] p /\ value_fits (setValue None n p)) /\
  (* the std::string and std::string_view overloads *)
  (_value (setValue_string buffer p) = c_str buffer /\
   value_fits (setValue_string buffer p)) /\
  (_value (setValue_view buffer p) = buffer /\
   value_fits (setValue_view buffer p)).
Proof.
  intros Hb Hp.
  pose proof (c_str_length buffer) as Hc.
  assert (Hcs : Z.of_nat (length (c_str buffer)) <= INT_MAX) by lia.
  split; [|split; [|split; [|split; [|split; [|split; [|split; [|split]]]]]]].
  - intros id ph custom len type. unfold value_fits, WiFiManagerParameter_init. simpl.
    rewrite int_of_size_small by assumption. split; [lia|].
    unfold int_of_size. simpl. change (wrap_s32 0) with 0. lia.
  - unfold value_fits. simpl. lia.
  - unfold setValue. change (-1 >=? 0) with false. cbv iota.
    destruct (grow_length_spec (set_value (c_str buffer) p) Hcs) as [G1 [G2 _]].
    split; [exact G1 | exact G2].
  - intros Hn. unfold setValue.
    replace (n >=? 0) with true by (symmetry; rewrite Z.geb_leb; apply Z.leb_le; lia).
    rewrite int_of_size_small by assumption.
    set (v := firstn (Z.to_nat (Z.min n (Z.of_nat (length (c_str buffer))))) (c_str buffer)).
    assert (Hv : Z.of_nat (length v) <= INT_MAX).
    { unfold v. rewrite length_firstn. lia. }
    destruct (grow_length_spec (set_value v p) Hv) as [G1 _].
    rewrite G1. simpl. unfold v.
    destruct (Z.le_gt_cases n (Z.of_nat (length (c_str buffer)))) as [L|L].
    + now rewrite Z.min_l by assumption.
    + rewrite Z.min_r by lia. rewrite Nat2Z.id.
      rewrite !firstn_all2; [reflexivity | lia | lia].
  - unfold setValue. destruct (n >=? 0).
    + apply grow_length_spec. simpl. rewrite length_firstn. lia.
    + now apply grow_length_spec.
  - unfold setValue. destruct (n >=? 0).
    + match goal with |- _ <= _length (grow_length ?q) =>
        destruct (grow_length_spec q) as [_ [G _]] end.
      { simpl. rewrite length_firstn. lia. }
      rewrite G. simpl. lia.
    + destruct (grow_length_spec (set_value (c_str buffer) p) Hcs) as [_ [G _]].
      rewrite G. simpl. lia.
  - split; [reflexivity|]. unfold value_fits in *. simpl.
    pose proof (Nat2Z.is_nonneg (length (_value p))). lia.
  - unfold setValue_string, setValue.
    rewrite (int_of_size_small (length buffer)) by assumption.
    replace (Z.of_nat (length buffer) >=? 0) with true
      by (symmetry; rewrite Z.geb_leb; apply Z.leb_le; lia).
    rewrite int_of_size_small by assumption.
    rewrite Z.min_r by lia. rewrite Nat2Z.id, firstn_all.
    destruct (grow_length_spec (set_value (c_str buffer) p) Hcs) as [G1 [_ G3]].
    split; [exact G1 | exact G3].
  - unfold setValue_view.
    destruct (grow_length_spec (set_value buffer p)) as [G1 [_ G3]]; [exact Hb|].
    split; [exact G1 | exact G3].
Qed.

Lemma parameter_value_fits_witness :
  value_fits (setValue (Some (repeat x61 20 ++ [x00])) (-1) server_param_again).
Proof.
  apply (parameter_value_fits server_param_again (repeat x61 20 ++ [x00]) (-1)).
  - vm_compute. discriminate.
  - unfold value_fits. simpl. lia.
Defined.

(** * URL decoding *)

Lemma length_store k v b : length (store k v b) = length b.
Proof.
  revert k; induction b as [|x r IH]; intros k; simpl; [reflexivity|].
  destruct k; simpl; [reflexivity | now rewrite IH].
Qed.

Lemma skipn_store k n v b : (k < n)%nat -> skipn n (store k v b) = skipn n b.
Proof.
  revert k n; induction b as [|x r IH]; intros k n H; simpl.
  - reflexivity.
  - destruct n; [lia|]. destruct k; simpl; [reflexivity|]. apply IH. lia.
Qed.

Lemma firstn_store k j v b : (j <= k)%nat -> firstn j (store k v b) = firstn j b.
Proof.
  revert k j; induction b as [|x r IH]; intros k j H; simpl.
  - reflexivity.
  - destruct j; [reflexivity|]. destruct k; [lia|]. simpl. f_equal. apply IH. lia.
Qed.

Lemma firstn_S_store j v b :
  (j < length b)%nat -> firstn (S j) (store j v b) = firstn j b ++ [v].
Proof.
  revert j; induction b as [|x r IH]; intros j H; simpl in *; [lia|].
  destruct j; simpl; [reflexivity|]. f_equal. apply IH. lia.
Qed.

Lemma skipn_nth_cons i (b : list byte) :
  (i < length b)%nat -> skipn i b = nth i b x00 :: skipn (S i) b.
Proof.
  revert i; induction b as [|x r IH]; intros i H; [simpl in H; lia|].
  destruct i; [reflexivity|].
  change (skipn (S i) (x :: r)) with (skipn i r).
  change (nth (S i) (x :: r) x00) with (nth i r x00).
  change (skipn (S (S i)) (x :: r)) with (skipn (S i) r).
  apply IH. simpl in H. lia.
Qed.

Lemma unread_done len i b : (len < i)%nat -> unread len i b = [].
Proof. intros H. unfold unread. replace (S len - i)%nat with O by lia. reflexivity. Qed.

Lemma unread_cons len i b :
  (i <= len)%nat -> (S len <= length b)%nat ->
  unread len i b = nth i b x00 :: unread len (S i) b.
Proof.
  intros H L. unfold unread. rewrite (skipn_nth_cons i b) by lia.
  replace (S len - i)%nat with (S (S len - S i)) by lia. reflexivity.
Qed.

Lemma unread_store len i j v b :
  (j < i)%nat -> unread len i (store j v b) = unread len i b.
Proof. intros H. unfold unread. now rewrite skipn_store. Qed.

Lemma unread_length len i b :
  (S len <= length b)%nat -> length (unread len i b) = (S len - i)%nat.
Proof. intros L. unfold unread. rewrite length_firstn, length_skipn. lia. Qed.

Lemma url_decoded_copy c rest :
  Byte.eqb c x2b = false ->
  Byte.eqb c x25 && (2 <=? length rest)%nat = false ->
  url_decoded (c :: rest) = c :: url_decoded rest.
Proof.
  intros P E. cbn [url_decoded]. rewrite P.
  destruct rest as [|h1 [|h2 rest']]; try reflexivity.
  simpl in E. rewrite andb_true_r in E. now rewrite E.
Qed.

Lemma url_decoded_length_le_aux n :
  forall src, (length src <= n)%nat -> (length (url_decoded src) <= length src)%nat.
Proof.
  induction n as [|n IH]; intros src H.
  - destruct src; simpl in *; lia.
  - destruct src as [|c rest]; [simpl; lia|].
    cbn [url_decoded]. simpl in H.
    destruct (Byte.eqb c x2b).
    + simpl. specialize (IH rest ltac:(lia)). lia.
    + destruct rest as [|h1 [|h2 rest']].
      * simpl. lia.
      * simpl. destruct (Byte.eqb h1 x2b); simpl; lia.
      * destruct (Byte.eqb c x25).
        -- simpl in *. specialize (IH rest' ltac:(lia)). lia.
        -- specialize (IH (h1 :: h2 :: rest') ltac:(simpl in *; lia)).
           change (length (c :: url_decoded (h1 :: h2 :: rest'))) with
             (S (length (url_decoded (h1 :: h2 :: rest')))).
           simpl length in *. lia.
Qed.

Lemma url_decoded_length_le src : (length (url_decoded src) <= length src)%nat.
Proof. apply (url_decoded_length_le_aux (length src)). lia. Qed.

(** The loop, in one step: what was written stays, the unread part is
    replaced by its decoding, and what lies behind the write position is
    left as it was. *)
Lemma url_decode_loop_spec fuel : forall len i j b,
  (j <= i)%nat -> (S len <= length b)%nat -> (S len - i <= fuel)%nat ->
  url_decode_loop fuel len i j b
  = firstn j b ++ url_decoded (unread len i b)
      ++ skipn (j + length (url_decoded (unread len i b))) b.
Proof.
  induction fuel as [|fuel IH]; intros len i j b Hj Hb Hf.
  - rewrite unread_done by lia. simpl. rewrite Nat.add_0_r.
    now rewrite firstn_skipn.
  - cbn [url_decode_loop].
    destruct (i <=? len)%nat eqn:Hi.
    2:{ apply Nat.leb_gt in Hi. rewrite unread_done by lia. simpl.
        rewrite Nat.add_0_r. now rewrite firstn_skipn. }
    apply Nat.leb_le in Hi.
    assert (Hjb : (j < length b)%nat) by lia.
    destruct (Byte.eqb (nth i b x00) x2b) eqn:Hplus.
    + rewrite IH by (rewrite ?length_store; lia).
      rewrite firstn_S_store by assumption.
      rewrite unread_store by lia.
      rewrite (unread_cons len i b) by lia.
      cbn [url_decoded]. rewrite Hplus.
      rewrite skipn_store by lia.
      rewrite <- app_assoc. cbn [app length]. rewrite <- plus_n_Sm. reflexivity.
    + destruct (Byte.eqb (nth i b x00) x25 && (i + 2 <=? len)%nat) eqn:Hpct.
      * apply andb_true_iff in Hpct. destruct Hpct as [Hp Hl]. apply Nat.leb_le in Hl.
        rewrite IH by (rewrite ?length_store; lia).
        rewrite firstn_S_store by assumption.
        rewrite unread_store by lia.
        rewrite (unread_cons len i b) by lia.
        rewrite (unread_cons len (S i) b) by lia.
        rewrite (unread_cons len (S (S i)) b) by lia.
        cbn [url_decoded]. rewrite Hplus, Hp.
        rewrite skipn_store by lia.
        replace (i + 1)%nat with (S i) by lia.
        replace (i + 2)%nat with (S (S i)) by lia.
        rewrite <- app_assoc. cbn [app length]. rewrite <- plus_n_Sm. reflexivity.
      * rewrite IH by (rewrite ?length_store; lia).
        rewrite firstn_S_store by assumption.
        rewrite unread_store by lia.
        rewrite (unread_cons len i b) by lia.
        rewrite url_decoded_copy; [| assumption |].
        2:{ rewrite unread_length by assumption.
            apply andb_false_iff. apply andb_false_iff in Hpct.
            destruct Hpct as [E|E]; [left; exact E | right].
            apply Nat.leb_gt in E. apply Nat.leb_gt. lia. }
        rewrite skipn_store by lia.
        rewrite <- app_assoc. cbn [app length]. rewrite <- plus_n_Sm. reflexivity.
Qed.

Lemma url_decode_spec len b :
  (S len <= length b)%nat ->
  url_decode len b
  = url_decoded (firstn (S len) b)
      ++ skipn (length (url_decoded (firstn (S len) b))) b.
Proof.
  intros H. unfold url_decode. rewrite url_decode_loop_spec by lia.
  unfold unread. simpl firstn at 1. rewrite Nat.sub_0_r. reflexivity.
Qed.

(** More passes than needed change nothing. *)
Lemma url_decode_loop_fuel fuel len b :
  (S len <= length b)%nat -> (S len <= fuel)%nat ->
  url_decode_loop fuel len 0 0 b = url_decode len b.
Proof.
  intros H F. unfold url_decode. rewrite !url_decode_loop_spec by lia. reflexivity.
Qed.

Lemma c_str_nul_at k : forall l, nth k l x00 = x00 -> (length (c_str l) <= k)%nat.
Proof.
  induction k as [|k IH]; intros l H; destruct l as [|x r]; simpl in *; try lia.
  - subst x. simpl. lia.
  - destruct (Byte.eqb x x00); simpl; [lia|]. specialize (IH r H). lia.
Qed.

Lemma c_str_app_nul s t : Forall (fun c => c <> x00) s -> c_str (s ++ x00 :: t) = s.
Proof.
  induction 1 as [|c s Hc Hs IH]; simpl; [reflexivity|].
  destruct (Byte.eqb c x00) eqn:E; [apply Byte.byte_dec_bl in E; contradiction|].
  now rewrite IH.
Qed.

Lemma c_str_nul_free s : Forall (fun c => c <> x00) s -> c_str s = s.
Proof.
  induction 1 as [|c s Hc Hs IH]; simpl; [reflexivity|].
  destruct (Byte.eqb c x00) eqn:E; [apply Byte.byte_dec_bl in E; contradiction|].
  now rewrite IH.
Qed.

Lemma url_decoded_full_aux n :
  forall src, (length src <= n)%nat ->
  length (url_decoded src) = length src -> url_decoded src = map plus_to_space src.
Proof.
  induction n as [|n IH]; intros src H E.
  - destruct src; [reflexivity | simpl in H; lia].
  - destruct src as [|c rest]; [reflexivity|].
    simpl in H. revert E. cbn [url_decoded map]. unfold plus_to_space at 1.
    destruct (Byte.eqb c x2b).
    + cbn [length]. intros E. f_equal. apply IH; lia.
    + destruct rest as [|h1 [|h2 rest']].
      * reflexivity.
      * cbn [length] in *. intros E. f_equal. apply IH; cbn [length]; lia.
      * destruct (Byte.eqb c x25).
        -- cbn [length] in *. intros E.
           pose proof (url_decoded_length_le rest'). lia.
        -- cbn [length] in *. intros E. f_equal. apply IH; cbn [length]; lia.
Qed.

(** [handleWifiSave]'s decoding never lengthens a field: given the
    terminator the handler has put at [b[len]], the C string left in the
    array is at most [len] characters long, so every later [strlen],
    [strncpy] and [setValue] on it stops inside the array.  (This holds
    although a [%] in the last two positions makes the loop read the
    terminator as a digit.) *)
Theorem url_decode_never_longer (len : nat) (b : list byte) :
  (S len <= length b)%nat ->
  nth len b x00 = x00 ->
  strlen (url_decode len b) <= Z.of_nat len /\
  length (url_decode len b) = length b.
Proof.
  intros Hb Hz.
  rewrite url_decode_spec by assumption.
  set (src := firstn (S len) b).
  assert (Hsrc : length src = S len) by (unfold src; rewrite length_firstn; lia).
  pose proof (url_decoded_length_le src) as HL.
  split.
  - unfold strlen. apply inj_le. apply c_str_nul_at.
    destruct (Nat.eq_dec (length (url_decoded src)) (S len)) as [E|E].
    + rewrite app_nth1 by lia.
      rewrite (url_decoded_full_aux (length src) src) by lia.
      change x00 with (plus_to_space x00) at 1. rewrite map_nth.
      unfold src. rewrite nth_firstn.
      replace (len <? S len)%nat with true by (symmetry; apply Nat.ltb_lt; lia).
      rewrite Hz. reflexivity.
    + rewrite app_nth2 by lia. rewrite nth_skipn.
      replace (length (url_decoded src) + (len - length (url_decoded src)))%nat
        with len by lia.
      exact Hz.
  - rewrite length_app, length_skipn. lia.
Qed.


Lemma url_decode_never_longer_witness :
  strlen (url_decode 4 [x61; x62; x25; x34; x00; x00]) <= 4 /\
  length (url_decode 4 [x61; x62; x25; x34; x00; x00]) = 6%nat.
Proof.
  apply (url_decode_never_longer 4 [x61; x62; x25; x34; x00; x00]).
  - simpl. lia.
  - reflexivity.
Defined.

Lemma hex_roundtrip c :
  to_byte (strtol_16 [hex_digit (u8 c / 16); hex_digit (u8 c mod 16); x00]) = c.
Proof. destruct c; vm_compute; reflexivity. Qed.

Lemma unreserved_plain c :
  is_unreserved c = true ->
  Byte.eqb c x2b = false /\ Byte.eqb c x25 = false /\ Byte.eqb c x26 = false /\
  Byte.eqb c x3d = false /\ Byte.eqb c x00 = false.
Proof. destruct c; vm_compute; intros H; try discriminate H; repeat split. Qed.

Lemma url_decoded_plain p t :
  Forall (fun c => Byte.eqb c x2b = false /\ Byte.eqb c x25 = false) p ->
  url_decoded (p ++ t) = p ++ url_decoded t.
Proof.
  induction 1 as [|c p [H1 H2] Hp IH]; [reflexivity|].
  change ((c :: p) ++ t) with (c :: (p ++ t)).
  rewrite url_decoded_copy by (rewrite ?H2; auto).
  now rewrite IH.
Qed.

Lemma url_decoded_encode s t : url_decoded (form_urlencode s ++ t) = s ++ url_decoded t.
Proof.
  induction s as [|c s IH]; [reflexivity|].
  unfold form_urlencode in *. cbn [flat_map]. rewrite <- app_assoc.
  unfold urlencode_octet at 1.
  destruct (Byte.eqb c x20) eqn:Hs.
  - apply Byte.byte_dec_bl in Hs. subst c.
    cbn [app url_decoded]. change (Byte.eqb x2b x2b) with true. cbv iota.
    now rewrite IH.
  - destruct (is_unreserved c) eqn:Hu.
    + destruct (unreserved_plain c Hu) as [H1 [H2 _]].
      cbn [app]. rewrite url_decoded_copy by (rewrite ?H2; auto).
      now rewrite IH.
    + cbn [app url_decoded]. change (Byte.eqb x25 x2b) with false.
      change (Byte.eqb x25 x25) with true. cbv iota.
      rewrite hex_roundtrip. now rewrite IH.
Qed.

(** The loop on an array that holds a terminated text. *)
Lemma url_decode_text (e : list byte) (size : nat) :
  (length e < size)%nat ->
  url_decode (length e) (e ++ repeat x00 (size - length e))
  = url_decoded (e ++ [x00])
      ++ skipn (length (url_decoded (e ++ [x00])))
           (e ++ repeat x00 (size - length e)).
Proof.
  intros Hl.
  rewrite url_decode_spec by (rewrite length_app, repeat_length; lia).
  remember (size - length e)%nat as pad eqn:Hpad.
  destruct pad as [|pad]; [lia|].
  cbn [repeat].
  replace (firstn (S (length e)) (e ++ x00 :: repeat x00 pad)) with (e ++ [x00]).
  2:{ rewrite firstn_app, firstn_all2 by lia.
      replace (S (length e) - length e)%nat with 1%nat by lia. reflexivity. }
  reflexivity.
Qed.

Lemma url_decoded_text s : url_decoded (form_urlencode s ++ [x00]) = s ++ [x00].
Proof. rewrite url_decoded_encode. reflexivity. Qed.

(** Decoding undoes the encoding a browser applies to a form field: for
    a value without NUL whose encoding fits the array, the loop leaves
    the value itself as the C string of the array. *)
Theorem url_decode_roundtrip (s : list byte) (size : nat) :
  Forall (fun c => c <> x00) s ->
  (length (form_urlencode s) < size)%nat ->
  c_str (url_decode (length (form_urlencode s))
           (form_urlencode s ++ repeat x00 (size - length (form_urlencode s))))
  = s.
Proof.
  intros Hs Hl.
  rewrite url_decode_text by assumption.
  rewrite url_decoded_text.
  rewrite <- app_assoc. cbn [app].
  now apply c_str_app_nul.
Qed.

Lemma url_decode_roundtrip_witness :
  c_str (url_decode (length (form_urlencode [x61; x20; x26]))
           (form_urlencode [x61; x20; x26]
              ++ repeat x00 (33 - length (form_urlencode [x61; x20; x26]))))
  = [x61; x20; x26].
Proof.
  apply (url_decode_roundtrip [x61; x20; x26] 33).
  - repeat constructor; discriminate.
  - simpl. lia.
Defined.

(** A field that ends in [%] and a single character [h]: the test
    [i + 2 <= len] lets the loop take the terminator for the second
    digit, so nothing terminates the decoded text at the write position
    and the C string left in the array runs on into the stale [h]. *)
Theorem url_decode_truncated_escape (p : list byte) (h : byte) (size : nat) :
  Forall (fun c => Byte.eqb c x2b = false /\ Byte.eqb c x25 = false) p ->
  Forall (fun c => c <> x00) p ->
  h <> x00 ->
  to_byte (strtol_16 [h; x00; x00]) <> x00 ->
  (length p + 2 < size)%nat ->
  c_str (url_decode (length p + 2)
           (p ++ [x25; h] ++ repeat x00 (size - (length p + 2))))
  = p ++ [to_byte (strtol_16 [h; x00; x00]); h].
Proof.
  intros Hp Hn Hh Hv Hl.
  remember (size - (length p + 2))%nat as pad eqn:Hpad.
  destruct pad as [|pad]; [lia|].
  rewrite url_decode_spec
    by (rewrite !length_app; cbn [length]; rewrite repeat_length; lia).
  cbn [repeat app].
  replace (firstn (S (length p + 2)) (p ++ x25 :: h :: x00 :: repeat x00 pad))
    with (p ++ [x25; h; x00]).
  2:{ rewrite firstn_app, firstn_all2 by lia.
      replace (S (length p + 2) - length p)%nat with 3%nat by lia. reflexivity. }
  rewrite url_decoded_plain by assumption.
  cbn [url_decoded]. change (Byte.eqb x25 x2b) with false.
  change (Byte.eqb x25 x25) with true. cbv iota.
  rewrite length_app. cbn [length].
  rewrite skipn_app.
  rewrite skipn_all2 by lia.
  replace (length p + 1 - length p)%nat with 1%nat by lia.
  cbn [skipn app]. rewrite <- app_assoc. cbn [app].
  set (v := to_byte (strtol_16 [h; x00; x00])) in *.
  change (p ++ v :: h :: x00 :: repeat x00 pad)
    with (p ++ [v; h] ++ x00 :: repeat x00 pad).
  rewrite app_assoc. apply c_str_app_nul.
  apply Forall_app. split; [assumption|]. repeat constructor; assumption.
Qed.

Lemma url_decode_truncated_escape_witness :
  c_str (url_decode (length [x61; x62] + 2)
           ([x61; x62] ++ [x25; x34] ++ repeat x00 (33 - (length [x61; x62] + 2))))
  = [x61; x62] ++ [to_byte (strtol_16 [x34; x00; x00]); x34].
Proof.
  apply (url_decode_truncated_escape [x61; x62] x34 33).
  - repeat constructor.
  - repeat constructor; discriminate.
  - discriminate.
  - vm_compute. discriminate.
  - simpl. lia.
Defined.

(** * The form handler *)

Lemma set_params_back (m : WiFiManager) ps now :
  set_params (_params m)
    (set_connectStart now (set_state WM_STATE_TRY_STA (set_params ps m)))
  = manager_of (handleWifiSave_tail now m) /\
  set_params (_params m) (set_params ps m) = m.
Proof. destruct m. split; reflexivity. Qed.

(** [handleWifiSave] and the state machine.  Apart from the values of
    the registered parameters, the handler changes the Manager exactly
    when it has called [esp_wifi_connect], and then by the two writes
    that move it to [WM_STATE_TRY_STA] with [_connectStart] at the clock
    reading, whatever [esp_wifi_connect] and the sending of the response
    returned; on every other path (no body received, no SSID, the driver
    refusing the mode or the configuration) the state machine is left
    where it was.  The handler sends at most one response, and exactly
    one whenever it returns [ESP_OK]. *)
Theorem handleWifiSave_state_machine
    (layout : sta_config_layout) (req : wifisave_request) (m : WiFiManager) :
  let ret := fst (fst (handleWifiSave layout req m)) in
  let m' := snd (fst (handleWifiSave layout req m)) in
  let calls := snd (handleWifiSave layout req m) in
  set_params (_params m) m'
  = (if existsb is_connect calls
     then manager_of (handleWifiSave_tail (clock_reading req) m)
     else m) /\
  (length (filter is_response calls) <= 1)%nat /\
  (ret = ESP_OK -> length (filter is_response calls) = 1%nat).
Proof.
  cbv zeta. unfold handleWifiSave.
  assert (B0 : set_params (_params m) m = m) by (destruct m; reflexivity).
  destruct (received req) as [octets| |].
  2,3: (cbn; repeat split; auto; intros E; discriminate E).
  destruct (length (firstn 1023 octets) <=? 0)%nat.
  1: (cbn; repeat split; auto; intros E; discriminate E).
  set (body := c_str (firstn 1023 octets)).
  cbv zeta.
  generalize (read_credential 33 (strstr body [x73; x3d])).
  generalize (read_credential 65 (strstr body [x70; x3d])).
  generalize (map (update_parameter body) (_params m)).
  intros ps password ssid.
  destruct (set_params_back m ps (clock_reading req)) as [B1 B2].
  destruct (strlen ssid =? 0).
  1: (cbn [fst snd existsb is_connect filter is_response length orb];
      repeat split; auto).
  destruct (negb (set_mode_ret req =? ESP_OK)).
  1: (cbn [fst snd existsb is_connect filter is_response length orb];
      repeat split; auto; intros E; discriminate E).
  unfold sta_config.
  destruct (negb (set_config_ret req =? ESP_OK)).
  1: (cbn [fst snd existsb is_connect filter is_response length orb];
      repeat split; auto; intros E; discriminate E).
  destruct (negb (send_ret req =? ESP_OK)) eqn:S;
    cbn [fst snd existsb is_connect filter is_response length orb app];
    repeat split; auto.
Qed.

(** ** Looking a field up *)

Lemma byte_eqb_neq (x y : byte) : x <> y -> Byte.eqb x y = false.
Proof.
  intros H. destruct (Byte.eqb x y) eqn:E; [|reflexivity].
  apply Byte.byte_dec_bl in E. contradiction.
Qed.

Lemma starts_with_key_name id : forall name R,
  name_ok id -> name_ok name ->
  starts_with (id ++ [x3d]) (name ++ x3d :: R) = bytes_eqb id name.
Proof.
  induction id as [|a id IH]; intros name R Hid Hn.
  - destruct name as [|c name]; [reflexivity|]. simpl.
    inversion Hn as [|? ? [Hc _] _]; subst.
    rewrite byte_eqb_neq by congruence. reflexivity.
  - inversion Hid as [|? ? [Ha _] Hid']; subst.
    destruct name as [|c name]; simpl.
    + rewrite byte_eqb_neq by assumption. reflexivity.
    + inversion Hn; subst. now rewrite IH.
Qed.

Lemma strstr_name id name R :
  name_ok id -> name_ok name ->
  strstr (name ++ x3d :: R) (id ++ [x3d])
  = if ends_with id name then Some (id ++ x3d :: R) else strstr R (id ++ [x3d]).
Proof.
  intros Hid. induction name as [|c name IH]; intros Hn.
  - cbn [app strstr ends_with].
    pose proof (starts_with_key_name id [] R Hid Hn) as B. cbn [app] in B.
    rewrite B. rewrite orb_false_r.
    destruct (bytes_eqb id []) eqn:E; [|reflexivity].
    apply bytes_eqb_eq in E. subst id. reflexivity.
  - change ((c :: name) ++ x3d :: R) with (c :: (name ++ x3d :: R)).
    cbn [strstr ends_with].
    change (c :: (name ++ x3d :: R)) with ((c :: name) ++ x3d :: R).
    rewrite (starts_with_key_name id (c :: name) R Hid Hn).
    destruct (bytes_eqb id (c :: name)) eqn:E.
    + apply bytes_eqb_eq in E. subst id. reflexivity.
    + cbn [orb]. apply IH. now inversion Hn.
Qed.

Lemma starts_with_key_value id : forall E X,
  name_ok id -> name_ok E ->
  starts_with (id ++ [x3d]) (E ++ x26 :: X) = false /\
  starts_with (id ++ [x3d]) E = false.
Proof.
  induction id as [|a id IH]; intros E X Hid HE.
  - destruct E as [|e E]; simpl; [auto|].
    inversion HE as [|? ? [He _] _]; subst.
    rewrite byte_eqb_neq by congruence. auto.
  - inversion Hid as [|? ? [_ [Ha _]] Hid']; subst.
    destruct E as [|e E]; simpl.
    + rewrite byte_eqb_neq by assumption. auto.
    + inversion HE; subst. destruct (IH E X Hid') as [I1 I2]; [assumption|].
      rewrite I1, I2, !andb_false_r. auto.
Qed.

Lemma strstr_value id E X :
  name_ok id -> name_ok E ->
  strstr (E ++ x26 :: X) (id ++ [x3d]) = strstr X (id ++ [x3d]) /\
  strstr E (id ++ [x3d]) = None.
Proof.
  intros Hid. induction E as [|e E IH]; intros HE.
  - destruct (starts_with_key_value id [] X Hid HE) as [S1 S2].
    cbn [app strstr] in *. rewrite S1, S2. auto.
  - destruct (starts_with_key_value id (e :: E) X Hid HE) as [S1 S2].
    change ((e :: E) ++ x26 :: X) with (e :: (E ++ x26 :: X)) in *.
    cbn [strstr]. rewrite S1, S2.
    apply IH. now inversion HE.
Qed.

Lemma urlencode_octet_chars c : name_ok (urlencode_octet c).
Proof.
  destruct c; vm_compute; repeat constructor; discriminate.
Qed.

Lemma form_urlencode_chars v : name_ok (form_urlencode v).
Proof.
  induction v as [|c v IH]; [constructor|].
  unfold form_urlencode. cbn [flat_map]. apply Forall_app. split.
  - apply urlencode_octet_chars.
  - exact IH.
Qed.

Lemma name_ok_nul_free s : name_ok s -> Forall (fun c => c <> x00) s.
Proof. apply Forall_impl. intros c H. apply H. Qed.

Lemma after_field_cases rest :
  after_field rest = [] \/ exists X, after_field rest = x26 :: X.
Proof. destruct rest; simpl; eauto. Qed.

(** [strstr] for [id=] finds the first field whose name ends with
    [id]. *)
Lemma strstr_form_body id fields :
  name_ok id -> Forall (fun f => name_ok (fst f)) fields ->
  match find_field id fields with
  | Some v =>
      exists more, (more = [] \/ exists X, more = x26 :: X) /\
        strstr (form_body fields) (id ++ [x3d])
        = Some (id ++ x3d :: form_urlencode v ++ more)
  | None => strstr (form_body fields) (id ++ [x3d]) = None
  end.
Proof.
  intros Hid. induction fields as [|[name v] rest IH]; intros Hf.
  - cbn. destruct id; reflexivity.
  - inversion Hf as [|? ? Hn Hrest]; subst. cbn [fst] in Hn.
    cbn [find_field form_body fst snd]. unfold field_text. cbn [fst snd].
    rewrite <- app_assoc. cbn [app].
    rewrite strstr_name by assumption.
    destruct (ends_with id name).
    + exists (after_field rest). split; [apply after_field_cases|]. reflexivity.
    + specialize (IH Hrest).
      destruct (strstr_value id (form_urlencode v) (form_body rest) Hid
                  (form_urlencode_chars v)) as [V1 V2].
      destruct rest as [|f rest'].
      * rewrite app_nil_r. cbn [find_field]. exact V2.
      * rewrite V1. exact IH.
Qed.

(** ** Reading a field *)

Lemma c_str_app E more :
  Forall (fun c => c <> x00) E -> c_str (E ++ more) = E ++ c_str more.
Proof.
  induction 1 as [|c E Hc HE IH]; [reflexivity|].
  cbn [app c_str]. rewrite byte_eqb_neq by assumption. now rewrite IH.
Qed.

Lemma skipn_zeros n k : skipn n (repeat x00 k) = repeat x00 (k - n).
Proof.
  revert k; induction n as [|n IH]; intros k.
  - now rewrite Nat.sub_0_r.
  - destruct k; [reflexivity|]. cbn [repeat skipn]. apply IH.
Qed.

Lemma zeros_app a b : repeat x00 a ++ repeat x00 b = repeat x00 (a + b).
Proof. symmetry. apply repeat_app. Qed.

Lemma c_str_zeros n : c_str (repeat x00 n) = [].
Proof. destruct n; reflexivity. Qed.

Lemma c_str_array_of size text :
  Forall (fun c => c <> x00) text -> c_str (array_of size text) = text.
Proof.
  intros H. unfold array_of. rewrite c_str_app by assumption.
  rewrite c_str_zeros. apply app_nil_r.
Qed.

Lemma field_length_value E more :
  name_ok E -> (more = [] \/ exists X, more = x26 :: X) ->
  field_length (E ++ more) = length E.
Proof.
  intros HE Hm. unfold field_length.
  assert (G : strchr (E ++ more) x26
              = match more with [] => None | _ => Some (length E) end).
  { induction HE as [|e E [_ [He _]] HE IH]; cbn [app strchr length].
    - destruct Hm as [-> | [X ->]]; reflexivity.
    - rewrite byte_eqb_neq by assumption. rewrite IH.
      destruct more; reflexivity. }
  rewrite G. destruct Hm as [-> | [X ->]]; [|reflexivity].
  now rewrite app_nil_r.
Qed.

Lemma strncpy_value size E more :
  Forall (fun c => c <> x00) E -> (length E <= size)%nat ->
  strncpy (repeat x00 size) (E ++ more) (length E) = array_of size E.
Proof.
  intros HE Hs. unfold strncpy, array_of.
  rewrite c_str_app by assumption.
  rewrite firstn_app, firstn_all, Nat.sub_diag. cbn [firstn].
  rewrite app_nil_r, Nat.sub_diag. cbn [repeat app].
  now rewrite skipn_zeros.
Qed.

Lemma strncpy_sta size buf text :
  c_str buf = text -> (length text < size)%nat ->
  strncpy (repeat x00 size) buf (size - 1) = array_of size text.
Proof.
  intros Hc Hs. unfold strncpy, array_of. rewrite Hc.
  rewrite firstn_all2 by lia. rewrite skipn_zeros, zeros_app.
  do 2 f_equal. lia.
Qed.

Lemma store_same k : forall b, nth k b x00 = x00 -> store k x00 b = b.
Proof.
  induction k as [|k IH]; intros b H; destruct b as [|x r]; simpl in *; try reflexivity.
  - now subst x.
  - now rewrite IH.
Qed.

Lemma nth_array_of size text : nth (length text) (array_of size text) x00 = x00.
Proof.
  unfold array_of. rewrite app_nth2 by lia. rewrite Nat.sub_diag.
  destruct (size - length text)%nat; reflexivity.
Qed.

Lemma read_credential_found size k1 k2 v more :
  Forall (fun c => c <> x00) v ->
  (length (form_urlencode v) < size)%nat ->
  (more = [] \/ exists X, more = x26 :: X) ->
  c_str (read_credential size (Some (k1 :: k2 :: form_urlencode v ++ more))) = v.
Proof.
  intros Hv Hs Hm. unfold read_credential. cbn [skipn].
  rewrite field_length_value by (auto using form_urlencode_chars).
  set (E := form_urlencode v) in *.
  replace (if (length E <? size - 1)%nat then length E else (size - 1)%nat)
    with (length E).
  2:{ destruct (length E <? size - 1)%nat eqn:C; [reflexivity|].
      apply Nat.ltb_ge in C. lia. }
  rewrite strncpy_value
    by (try apply name_ok_nul_free; try apply form_urlencode_chars; lia).
  rewrite store_same by apply nth_array_of.
  unfold array_of, E. rewrite url_decode_text by assumption.
  rewrite url_decoded_text, <- app_assoc. cbn [app].
  now apply c_str_app_nul.
Qed.

Lemma form_urlencode_nil v : form_urlencode v = [] -> v = [].
Proof.
  destruct v as [|c v]; [reflexivity|]. unfold form_urlencode. cbn [flat_map].
  unfold urlencode_octet.
  destruct (Byte.eqb c x20); [discriminate|].
  destruct (is_unreserved c); discriminate.
Qed.

(** A registered parameter takes the value of the first field of the
    body whose name ends with the parameter's id: the field is looked up
    with [strstr] for the id and [=], which also matches inside a longer
    name.  A field that is empty, or whose encoding is 256 characters or
    more, leaves the parameter as it was, as does a body without such a
    field; any other value is stored whole, and the recorded length
    raised to it. *)
Theorem parameter_from_first_matching_field
    (fields : list form_field) (p : WiFiManagerParameter) :
  name_ok (c_str (_id p)) ->
  Forall (fun f => name_ok (fst f)) fields ->
  (find_field (c_str (_id p)) fields = None ->
     update_parameter (form_body fields) p = p) /\
  (forall v, find_field (c_str (_id p)) fields = Some v ->
     v = [] \/ (256 <= length (form_urlencode v))%nat ->
     update_parameter (form_body fields) p = p) /\
  (forall v, find_field (c_str (_id p)) fields = Some v ->
     Forall (fun c => c <> x00) v ->
     (0 < length (form_urlencode v) < 256)%nat ->
     _value (update_parameter (form_body fields) p) = v /\
     _length (update_parameter (form_body fields) p)
     = Z.max (_length p) (Z.of_nat (length v))).
Proof.
  intros Hid Hf.
  pose proof (strstr_form_body (c_str (_id p)) fields Hid Hf) as L.
  unfold update_parameter.
  destruct (find_field (c_str (_id p)) fields) as [v0|].
  2:{ rewrite L. repeat split; intros; try reflexivity; discriminate. }
  destruct L as [more [Hm L]]. rewrite L.
  replace (skipn (length (c_str (_id p) ++ [x3d]))
             (c_str (_id p) ++ x3d :: form_urlencode v0 ++ more))
    with (form_urlencode v0 ++ more).
  2:{ change (c_str (_id p) ++ x3d :: form_urlencode v0 ++ more)
        with (c_str (_id p) ++ [x3d] ++ form_urlencode v0 ++ more).
      rewrite app_assoc. rewrite skipn_app, skipn_all, Nat.sub_diag. reflexivity. }
  rewrite field_length_value by (auto using form_urlencode_chars).
  split; [intros; discriminate|]. split.
  - intros v E [Hv|Hv]; injection E as ->.
    + subst v. reflexivity.
    + replace (length (form_urlencode v) <? 256)%nat with false
        by (symmetry; apply Nat.ltb_ge; lia).
      now rewrite andb_false_r.
  - intros v E Hv [H0 H256]. injection E as ->.
    replace (0 <? length (form_urlencode v))%nat with true
      by (symmetry; apply Nat.ltb_lt; lia).
    replace (length (form_urlencode v) <? 256)%nat with true
      by (symmetry; apply Nat.ltb_lt; lia).
    cbn [andb].
    rewrite strncpy_value
      by (try apply name_ok_nul_free; try apply form_urlencode_chars; lia).
    unfold setValue. change (-1 >=? 0) with false. cbv iota.
    assert (D : c_str (url_decode (length (form_urlencode v))
                         (array_of 256 (form_urlencode v))) = v).
    { unfold array_of. rewrite url_decode_text by assumption.
      rewrite url_decoded_text, <- app_assoc. cbn [app].
      now apply c_str_app_nul. }
    match goal with |- context [grow_length ?q] =>
      destruct (grow_length_spec q) as [G1 [G2 _]] end.
    { cbn [_value set_value]. rewrite D.
      pose proof (url_decoded_length_le (form_urlencode v ++ [])) as B.
      rewrite url_decoded_encode in B. rewrite !length_app in B. cbn in B.
      unfold INT_MAX. lia. }
    rewrite G1, G2. cbn [_value _length set_value]. rewrite D. auto.
Qed.

Lemma parameter_from_first_matching_field_witness :
  _value (update_parameter (form_body two_address_fields) ip_param)
  = [x31; x30; x2e; x30; x2e; x30; x2e; x31].
Proof.
  refine (proj1 (proj2 (proj2
    (parameter_from_first_matching_field two_address_fields ip_param _ _)) _ _ _ _)).
  - simpl. repeat constructor; discriminate.
  - simpl. repeat constructor; discriminate.
  - reflexivity.
  - repeat constructor; discriminate.
  - simpl. lia.
Defined.

Lemma form_body_chars fields :
  Forall (fun f => name_ok (fst f)) fields ->
  Forall (fun c => c <> x00) (form_body fields).
Proof.
  induction 1 as [|[name v] rest Hn Hr IH]; [constructor|].
  cbn [form_body]. unfold field_text. cbn [fst snd] in *.
  rewrite <- app_assoc. apply Forall_app. split; [now apply name_ok_nul_free|].
  cbn [app]. constructor; [discriminate|].
  apply Forall_app. split; [apply name_ok_nul_free, form_urlencode_chars|].
  destruct rest; [constructor|]. constructor; [discriminate | exact IH].
Qed.

Lemma find_field_body id fields v :
  find_field id fields = Some v -> (0 < length (form_body fields))%nat.
Proof.
  destruct fields as [|[name w] rest]; [discriminate|]. intros _.
  cbn [form_body]. unfold field_text. rewrite !length_app. cbn [length]. lia.
Qed.

(** From the form to the driver.  For a body made of fields in the
    browser's encoding, the station configuration handed to
    [esp_wifi_set_config] holds the value of the first field whose name
    ends in [s] as SSID and that of the first field whose name ends in
    [p] as password, octet for octet, provided they fit: at most 32 and
    64 characters once encoded (the handler cuts the encoded text, not
    the decoded one), and room for a terminator in the driver's arrays.
    The handler then asks the driver to connect. *)
Theorem handleWifiSave_submits_credentials
    (layout : sta_config_layout) (req : wifisave_request) (m : WiFiManager)
    (fields : list form_field) (ssid password : list byte) :
  received req = http_body (form_body fields) ->
  (length (form_body fields) <= 1023)%nat ->
  Forall (fun f => name_ok (fst f)) fields ->
  find_field [x73] fields = Some ssid ->
  find_field [x70] fields = Some password ->
  ssid <> [] ->
  Forall (fun c => c <> x00) ssid ->
  Forall (fun c => c <> x00) password ->
  (length (form_urlencode ssid) <= 32)%nat ->
  (length (form_urlencode password) <= 64)%nat ->
  (length ssid < sizeof_sta_ssid layout)%nat ->
  (length password < sizeof_sta_password layout)%nat ->
  set_mode_ret req = ESP_OK ->
  set_config_ret req = ESP_OK ->
  firstn 5 (snd (handleWifiSave layout req m))
  = [ esp_wifi_set_mode_APSTA; vTaskDelay 500;
      esp_wifi_set_config_STA
        (array_of (sizeof_sta_ssid layout) ssid)
        (array_of (sizeof_sta_password layout) password);
      esp_wifi_disconnect; esp_wifi_connect ].
Proof.
  intros Hrecv Hlen Hf Hs Hp Hne Hsn Hpn Hse Hpe Hsl Hpl Hmode Hcfg.
  unfold handleWifiSave. rewrite Hrecv.
  rewrite (firstn_all2 (n:=1023) (form_body fields)) by lia.
  pose proof (find_field_body _ _ _ Hs) as Hpos.
  replace (length (form_body fields) <=? 0)%nat with false
    by (symmetry; apply Nat.leb_gt; lia).
  cbv zeta. rewrite (c_str_nul_free _ (form_body_chars _ Hf)).
  assert (Ks : name_ok [x73]) by (repeat constructor; discriminate).
  assert (Kp : name_ok [x70]) by (repeat constructor; discriminate).
  pose proof (strstr_form_body [x73] fields Ks Hf) as Ls. rewrite Hs in Ls.
  pose proof (strstr_form_body [x70] fields Kp Hf) as Lp. rewrite Hp in Lp.
  destruct Ls as [more_s [Hms Ls]]. destruct Lp as [more_p [Hmp Lp]].
  cbn [app] in Ls, Lp. rewrite Ls, Lp.
  pose proof (read_credential_found 33 x73 x3d ssid more_s Hsn ltac:(lia) Hms) as Cs.
  pose proof (read_credential_found 65 x70 x3d password more_p Hpn ltac:(lia) Hmp) as Cp.
  set (ssid_array := read_credential 33 _) in *.
  set (password_array := read_credential 65 _) in *.
  replace (strlen ssid_array =? 0) with false.
  2:{ symmetry. apply Z.eqb_neq. unfold strlen. rewrite Cs.
      destruct ssid; [contradiction | cbn [length]; lia]. }
  rewrite Hmode, Hcfg. change (negb (ESP_OK =? ESP_OK)) with false. cbv iota.
  assert (Hcall : sta_config layout ssid_array password_array
                  = esp_wifi_set_config_STA
                      (array_of (sizeof_sta_ssid layout) ssid)
                      (array_of (sizeof_sta_password layout) password)).
  { unfold sta_config. f_equal.
    - now apply strncpy_sta.
    - unfold strlen. rewrite Cp.
      destruct password as [|c pw].
      + unfold array_of. cbn [length app]. rewrite Nat.sub_0_r. reflexivity.
      + replace (Z.of_nat (length (c :: pw)) >? 0) with true
          by (symmetry; rewrite Z.gtb_ltb; apply Z.ltb_lt; cbn [length]; lia).
        now apply strncpy_sta. }
  rewrite Hcall.
  destruct (negb (send_ret req =? ESP_OK)); reflexivity.
Qed.

Lemma handleWifiSave_submits_credentials_witness :
  firstn 5 (snd (handleWifiSave esp_idf_layout credential_request fresh))
  = [ esp_wifi_set_mode_APSTA; vTaskDelay 500;
      esp_wifi_set_config_STA
        (array_of 32 [x4d; x79; x20; x4e; x65; x74])
        (array_of 64 [x70; x26; x73; x3d; x31]);
      esp_wifi_disconnect; esp_wifi_connect ].
Proof.
  apply (handleWifiSave_submits_credentials esp_idf_layout credential_request fresh
           credential_fields).
  - reflexivity.
  - simpl. lia.
  - simpl. repeat constructor; discriminate.
  - reflexivity.
  - reflexivity.
  - discriminate.
  - repeat constructor; discriminate.
  - repeat constructor; discriminate.
  - simpl. lia.
  - simpl. lia.
  - simpl. lia.
  - simpl. lia.
  - reflexivity.
  - reflexivity.
Defined.

(** * One attempt per portal *)

Lemma in_wait_loop_TRY_STA m : _state m = WM_STATE_TRY_STA -> in_wait_loop m = true.
Proof. unfold in_wait_loop. intros ->. reflexivity. Qed.

Lemma updateState_TRY_STA now m :
  _state m = WM_STATE_TRY_STA ->
  updateState now m
  = if elapsed now (_connectStart m) >? _connectTimeout m
    then set_state WM_STATE_START_PORTAL (set_lastConxResult WL_CONNECT_FAILED m)
    else m.
Proof. intros H. unfold updateState. now rewrite H. Qed.

(** The blocking portal grants one connection attempt.  Once credentials
    have been submitted (the Manager is in [TRY_STA] inside the wait
    loop), the pass in which the station is reported disconnected, or in
    which the connect timeout is found elapsed and nothing else arrives,
    ends the wait: [startConfigPortalInternal] returns [false], with the
    Manager in [START_PORTAL] (or [PORTAL_TIMEOUT] when the portal timeout
    has elapsed as well) and the last connection result set from the
    disconnect reason, respectively to [WL_CONNECT_FAILED].  The portal
    does not go back to [RUN_PORTAL]. *)
Theorem portal_wait_one_attempt
    (R : wifi_err_reason_values) (it : loop_iteration) (rest : list loop_iteration)
    (m : WiFiManager) :
  _state m = WM_STATE_TRY_STA ->
  let r := configPortal_wait R (it :: rest) m in
  (forall reason,
     delivered it = [WifiEvent (WIFI_EVENT_STA_DISCONNECTED reason)] ->
     result_of r = Some false /\
     (_state (manager_of r) = WM_STATE_START_PORTAL \/
      _state (manager_of r) = WM_STATE_PORTAL_TIMEOUT) /\
     _lastConxResult (manager_of r) = disconnect_reason_result R reason) /\
  (delivered it = [] ->
   (elapsed (t_update it) (_connectStart m) >? _connectTimeout m) = true ->
     result_of r = Some false /\
     (_state (manager_of r) = WM_STATE_START_PORTAL \/
      _state (manager_of r) = WM_STATE_PORTAL_TIMEOUT) /\
     _lastConxResult (manager_of r) = WL_CONNECT_FAILED).
Proof.
  intros Hs. cbv zeta.
  rewrite (configPortal_wait_pass R it rest m (in_wait_loop_TRY_STA m Hs)).
  rewrite (updateState_TRY_STA _ _ Hs). cbv zeta.
  split.
  - intros reason Hd. rewrite Hd.
    destruct (elapsed (t_update it) (_connectStart m) >? _connectTimeout m).
    + unfold deliver_all, deliver, wifiEventHandler. op_simpl.
      match goal with |- context [portal_timed_out ?t ?x] =>
        destruct (portal_timed_out t x) end.
      * op_simpl. auto.
      * rewrite configPortal_wait_done by reflexivity. op_simpl. auto.
    + unfold deliver_all, deliver, wifiEventHandler. op_simpl. rewrite Hs. op_simpl.
      match goal with |- context [portal_timed_out ?t ?x] =>
        destruct (portal_timed_out t x) end.
      * op_simpl. auto.
      * rewrite configPortal_wait_done by reflexivity. op_simpl. auto.
  - intros Hd Ht. rewrite Hd, Ht. unfold deliver_all. op_simpl.
    match goal with |- context [portal_timed_out ?t ?x] =>
      destruct (portal_timed_out t x) end.
    + op_simpl. auto.
    + rewrite configPortal_wait_done by reflexivity. op_simpl. auto.
Qed.

Lemma portal_wait_one_attempt_witness :
  let m := set_connectStart 5000000 (fresh_in WM_STATE_TRY_STA) in
  let it := {| t_update := 6000000;
               delivered := [WifiEvent (WIFI_EVENT_STA_DISCONNECTED 15)];
               t_check := 6100000 |} in
  result_of (configPortal_wait esp_idf_reasons [it] m) = Some false.
Proof.
  cbv zeta.
  refine (proj1 (proj1
    (portal_wait_one_attempt esp_idf_reasons
       {| t_update := 6000000;
          delivered := [WifiEvent (WIFI_EVENT_STA_DISCONNECTED 15)];
          t_check := 6100000 |} []
       (set_connectStart 5000000 (fresh_in WM_STATE_TRY_STA)) _) 15 _)).
  - reflexivity.
  - reflexivity.
Defined.

(** * The two classifications of disconnect reasons *)

Lemma In_map_reasons_auth R M v :
  In v (map_reasons_auth R M) <-> In v (reasons_auth R) \/ In v (reasons_only_mapped M).
Proof.
  unfold map_reasons_auth, reasons_auth, reasons_only_mapped. simpl. tauto.
Qed.

Lemma NoDup_app_In (l l' : list Z) a : NoDup (l ++ l') -> In a l -> ~ In a l'.
Proof.
  induction l as [|x l IH]; intros D H; [contradiction|].
  simpl in D. apply NoDup_cons_iff in D. destruct D as [Hx D].
  destruct H as [->|H].
  - intros H'. apply Hx. apply in_or_app. now right.
  - now apply IH.
Qed.

Lemma case_of_false labels v : case_of labels v = false <-> ~ In v labels.
Proof.
  split.
  - intros E H. apply case_of_In in H. congruence.
  - apply case_of_not_In.
Qed.

(** [wm_map_disconnect_reason] (wm_wifi.c) and the switch of
    [wifiEventHandler] classify a disconnect reason alike except on the
    twenty-two reasons that only the former lists: there the handler
    records [WL_CONNECT_FAILED] where the map gives [WL_WRONG_PASSWORD].
    On every other reason, known to the driver or not, the two agree. *)
Theorem disconnect_classifications_differ
    (R : wifi_err_reason_values) (M : wifi_err_reason_more) (reason : Z) :
  labels_distinct R M ->
  (In reason (reasons_only_mapped M) ->
     disconnect_reason_result R reason = WL_CONNECT_FAILED /\
     wm_map_disconnect_reason R M reason = WL_WRONG_PASSWORD) /\
  (~ In reason (reasons_only_mapped M) ->
     wm_map_disconnect_reason R M reason = disconnect_reason_result R reason).
Proof.
  unfold labels_distinct. intros D.
  apply NoDup_cons_iff in D. destruct D as [_ D].
  unfold wm_map_disconnect_reason, disconnect_reason_result.
  split.
  - intros H.
    assert (Hm : In reason (map_reasons_auth R M)) by (apply In_map_reasons_auth; auto).
    assert (H1 : ~ In reason (reasons_no_ap R)).
    { intros Hn. apply (NoDup_app_In _ _ _ D Hn). apply in_or_app. now right. }
    assert (H2 : ~ In reason (reasons_auth R)).
    { intros Ha. apply NoDup_app_remove_l in D. exact (NoDup_app_In _ _ _ D Ha H). }
    rewrite (case_of_not_In _ _ H1), (case_of_not_In _ _ H2).
    apply case_of_In in Hm. rewrite Hm. auto.
  - intros H.
    destruct (case_of (reasons_no_ap R) reason); [reflexivity|].
    destruct (case_of (reasons_auth R) reason) eqn:Ea.
    + apply case_of_In in Ea.
      assert (Hm : In reason (map_reasons_auth R M)) by (apply In_map_reasons_auth; auto).
      apply case_of_In in Hm. now rewrite Hm.
    + apply case_of_false in Ea.
      assert (Hm : ~ In reason (map_reasons_auth R M)).
      { rewrite In_map_reasons_auth. tauto. }
      now rewrite (case_of_not_In _ _ Hm).
Qed.

Lemma disconnect_classifications_differ_witness :
  disconnect_reason_result esp_idf_reasons 200 = WL_CONNECT_FAILED /\
  wm_map_disconnect_reason esp_idf_reasons esp_idf_more_reasons 200 = WL_WRONG_PASSWORD.
Proof.
  refine (proj1
    (disconnect_classifications_differ esp_idf_reasons esp_idf_more_reasons 200 _) _).
  - unfold labels_distinct. simpl.
    repeat (apply NoDup_cons; [simpl; lia|]). apply NoDup_nil.
  - simpl. lia.
Defined.

(** * The percentage of the page and the quality of the firmware *)

(** The percentage [getSignalPercentage] (wm.js) computes from an RSSI
    is the quality [calculateSignalQuality] computes from it, for every
    RSSI on which the C++ arithmetic does not overflow; in particular
    for every RSSI a scan record can hold. *)
Theorem page_percentage_is_quality (rssi : Z) :
  -1073741824 <= rssi < 1073741724 ->
  getSignalPercentage rssi = calculateSignalQuality rssi.
Proof.
  intros H. unfold getSignalPercentage, calculateSignalQuality.
  rewrite (wrap_s32_id (rssi + 100)) by (unfold INT_MIN, INT_MAX; lia).
  rewrite (wrap_s32_id (2 * (rssi + 100))) by (unfold INT_MIN, INT_MAX; lia).
  destruct (rssi <=? -100) eqn:A; [apply Z.leb_le in A | apply Z.leb_gt in A];
  destruct (rssi >=? -50) eqn:B; rewrite Z.geb_leb in B;
    [apply Z.leb_le in B | apply Z.leb_gt in B | apply Z.leb_le in B | apply Z.leb_gt in B];
  destruct (2 * (rssi + 100) >? 100) eqn:C; rewrite Z.gtb_ltb in C;
    [apply Z.ltb_lt in C | apply Z.ltb_ge in C | apply Z.ltb_lt in C | apply Z.ltb_ge in C
    |apply Z.ltb_lt in C | apply Z.ltb_ge in C | apply Z.ltb_lt in C | apply Z.ltb_ge in C];
  try lia;
  match goal with
  | |- context [if ?c then _ else _] => destruct c eqn:E
  end;
  try (apply Z.ltb_lt in E); try (apply Z.ltb_ge in E); lia.
Qed.

Lemma page_percentage_is_quality_witness :
  getSignalPercentage (s8 xba) = calculateSignalQuality (s8 xba).
Proof.
  apply (page_percentage_is_quality (s8 xba)).
  vm_compute. split; [discriminate | reflexivity].
Defined.

(** * wm_dns.c: parsing a name *)

Lemma copy_label_bounds packet L nl n : forall pos name,
  pos <= fst (copy_label packet L nl n pos name) <= pos + Z.of_nat n.
Proof.
  induction n as [|n IH]; intros pos name.
  - simpl. lia.
  - cbn [copy_label].
    destruct ((pos <? L) && (Z.of_nat (length name) <? nl - 2)).
    + specialize (IH (pos + 1) (name ++ [nth (Z.to_nat pos) packet x00])). lia.
    + simpl. lia.
Qed.

Lemma pointer_target_nonneg len b :
  0 <= len -> 0 <= Z.lor (Z.shiftl (Z.land len 0x3F) 8) (u8 b).
Proof.
  intros H. apply Z.lor_nonneg. split.
  - apply Z.shiftl_nonneg. apply Z.land_nonneg. now left.
  - pose proof (u8_range b). lia.
Qed.

(** With [passes_left] passes to spare the loop ends, and further passes
    change nothing. *)
Lemma parse_dns_name_loop_ends fuel packet L nl : forall offset pos jumped jc name,
  0 <= pos -> 0 <= jc <= 10 ->
  passes_left L pos jc < Z.of_nat fuel -> (0 < fuel)%nat ->
  parse_dns_name_loop fuel packet L nl offset pos jumped jc name <> parse_unfinished /\
  forall extra,
    parse_dns_name_loop (fuel + extra) packet L nl offset pos jumped jc name
    = parse_dns_name_loop fuel packet L nl offset pos jumped jc name.
Proof.
  induction fuel as [|fuel IH]; intros offset pos jumped jc name Hpos Hjc Hm Hf; [lia|].
  cbn [Nat.add parse_dns_name_loop].
  destruct ((pos <? L) && (jc <? 10)) eqn:Hc.
  2:{ split; [discriminate | reflexivity]. }
  apply andb_true_iff in Hc. destruct Hc as [HL Hj].
  apply Z.ltb_lt in HL. apply Z.ltb_lt in Hj.
  unfold passes_left in Hm.
  assert (Hprod : 0 <= (10 - (jc + 1)) * (L + 1)) by (apply Z.mul_nonneg_nonneg; lia).
  assert (Hprod' : 0 <= (10 - jc) * (L + 1)) by (apply Z.mul_nonneg_nonneg; lia).
  set (len := u8 (nth (Z.to_nat pos) packet x00)).
  assert (Hlen : 0 <= len < 256) by apply u8_range.
  destruct (Z.land len 192 =? 192).
  - set (target := Z.lor _ _).
    assert (Ht : 0 <= target) by (apply pointer_target_nonneg; lia).
    apply IH; try lia; unfold passes_left; lia.
  - destruct (len =? 0); [split; [discriminate | reflexivity]|].
    pose proof (copy_label_bounds packet L nl (Z.to_nat len) (pos + 1) name) as B.
    destruct (copy_label packet L nl (Z.to_nat len) (pos + 1) name) as [pos' name'].
    cbn [fst] in B.
    apply IH; try lia; unfold passes_left; lia.
Qed.

Lemma parse_passes_enough L offset :
  0 <= offset ->
  passes_left L offset 0 < Z.of_nat (parse_passes L) \/ L < 0.
Proof.
  intros H. unfold passes_left, parse_passes.
  destruct (Z.lt_ge_cases L 0) as [N|N]; [now right | left].
  rewrite Nat2Z.inj_succ, Z2Nat.id by lia. lia.
Qed.

Lemma parse_dns_name_loop_empty fuel packet L nl offset pos jumped jc name :
  L <= pos ->
  parse_dns_name_loop (S fuel) packet L nl offset pos jumped jc name = name_parsed (-1) [].
Proof.
  intros H. cbn [parse_dns_name_loop].
  replace (pos <? L) with false by (symmetry; apply Z.ltb_ge; lia). reflexivity.
Qed.

(** What the loop returns lies behind the offset it was started at. *)
Lemma parse_dns_name_loop_result fuel packet L nl offset0 :
  forall offset pos jumped jc name e text,
  (jumped = true -> offset0 < offset <= L + 1) ->
  (jumped = false -> offset0 <= pos) ->
  parse_dns_name_loop fuel packet L nl offset pos jumped jc name = name_parsed e text ->
  (e = -1 \/ offset0 < e <= L + 1) /\
  Z.of_nat (length text) <= Z.max 0 (nl - 3).
Proof.
  induction fuel as [|fuel IH]; intros offset pos jumped jc name e text I1 I2;
    [discriminate|].
  cbn [parse_dns_name_loop].
  destruct ((pos <? L) && (jc <? 10)) eqn:Hc.
  2:{ intros E. injection E as <- <-. simpl. split; [auto | lia]. }
  apply andb_true_iff in Hc. destruct Hc as [HL _]. apply Z.ltb_lt in HL.
  set (len := u8 (nth (Z.to_nat pos) packet x00)).
  destruct (Z.land len 192 =? 192).
  - apply IH; [intros _ | discriminate].
    destruct jumped; [specialize (I1 eq_refl) | specialize (I2 eq_refl)]; lia.
  - destruct (len =? 0).
    + intros E. injection E as <- <-. split.
      * right.
        destruct jumped; [specialize (I1 eq_refl) | specialize (I2 eq_refl)]; lia.
      * destruct ((Z.of_nat (length name) >? 0) && (Z.of_nat (length name) <? nl - 1)) eqn:C.
        -- apply andb_true_iff in C. destruct C as [C1 C2].
           apply Z.ltb_lt in C2.
           pose proof (c_str_length (firstn (Z.to_nat (Z.of_nat (length name) - 1)) name))
             as Hcs.
           rewrite length_firstn in Hcs. lia.
        -- simpl. lia.
    + pose proof (copy_label_bounds packet L nl (Z.to_nat len) (pos + 1) name) as B.
      destruct (copy_label packet L nl (Z.to_nat len) (pos + 1) name) as [pos' name'].
      cbn [fst] in B. apply IH.
      * exact I1.
      * intros J. specialize (I2 J). lia.
Qed.

Lemma parse_dns_name_finished packet L offset nl :
  0 <= offset ->
  exists e text, parse_dns_name packet L offset nl = name_parsed e text /\
    (e = -1 \/ offset < e <= L + 1) /\
    Z.of_nat (length text) <= Z.max 0 (nl - 3).
Proof.
  intros H. unfold parse_dns_name.
  destruct (parse_dns_name_loop (parse_passes L) packet L nl offset offset false 0 [])
    as [e text|] eqn:E.
  - exists e, text. split; [reflexivity|].
    apply (parse_dns_name_loop_result (parse_passes L) packet L nl offset
             offset offset false 0 [] e text); [discriminate | intros _; lia | exact E].
  - exfalso. destruct (parse_passes_enough L offset H) as [M|N].
    + revert E. apply parse_dns_name_loop_ends; try lia. unfold parse_passes. lia.
    + unfold parse_passes in E. rewrite parse_dns_name_loop_empty in E by lia.
      discriminate.
Qed.

(** [parse_dns_name] returns, whatever the packet holds: pointers that
    form a cycle, lengths that run past the end, a name longer than the
    array.  The passes counted are enough and further passes change
    nothing.  It returns -1 or a position behind the offset it was given
    and at most one past the end of the packet, and leaves a name of at
    most [name_len - 3] characters. *)
Theorem parse_dns_name_returns
    (packet : list byte) (packet_len offset name_len : Z) (fuel : nat) :
  0 <= offset ->
  (parse_passes packet_len <= fuel)%nat ->
  parse_dns_name_loop fuel packet packet_len name_len offset offset false 0 []
  = parse_dns_name packet packet_len offset name_len /\
  exists name_end name,
    parse_dns_name packet packet_len offset name_len = name_parsed name_end name /\
    (name_end = -1 \/ offset < name_end <= packet_len + 1) /\
    Z.of_nat (length name) <= Z.max 0 (name_len - 3).
Proof.
  intros Ho Hf. split; [|now apply parse_dns_name_finished].
  unfold parse_dns_name.
  replace fuel with (parse_passes packet_len + (fuel - parse_passes packet_len))%nat by lia.
  destruct (parse_passes_enough packet_len offset Ho) as [M|N].
  - apply parse_dns_name_loop_ends; try lia. unfold parse_passes. lia.
  - unfold parse_passes. cbn [Nat.add].
    rewrite !parse_dns_name_loop_empty by lia. reflexivity.
Qed.

Lemma parse_dns_name_returns_witness :
  parse_dns_name_loop 100 [xc0; x00] 2 256 0 0 false 0 []
  = parse_dns_name [xc0; x00] 2 0 256.
Proof.
  apply (parse_dns_name_returns [xc0; x00] 2 0 256 100).
  - lia.
  - vm_compute. lia.
Defined.

Lemma u8_to_byte_small z : 0 <= z < 256 -> u8 (to_byte z) = z.
Proof. intros H. rewrite u8_to_byte_mod. now apply Z.mod_small. Qed.

Lemma not_a_pointer b : u8 b < 192 -> (Z.land (u8 b) 192 =? 192) = false.
Proof. destruct b; vm_compute; intros H; try reflexivity; discriminate H. Qed.

Lemma nth_middle_app (pre : list byte) x rest :
  nth (length pre) (pre ++ x :: rest) x00 = x.
Proof. rewrite app_nth2 by lia. now rewrite Nat.sub_diag. Qed.

(** Copying a label that lies whole in the packet and fits the array. *)
Lemma copy_label_whole L nl l : forall pre rest name,
  Z.of_nat (length pre) + Z.of_nat (length l) <= L ->
  Z.of_nat (length name) + Z.of_nat (length l) <= nl - 2 ->
  copy_label (pre ++ l ++ rest) L nl (length l) (Z.of_nat (length pre)) name
  = (Z.of_nat (length pre) + Z.of_nat (length l), name ++ l).
Proof.
  induction l as [|c l IH]; intros pre rest name HL Hn.
  - cbn. rewrite Z.add_0_r, app_nil_r. reflexivity.
  - cbn [length copy_label].
    cbn [length] in HL, Hn. rewrite Nat2Z.inj_succ in HL, Hn.
    replace (Z.of_nat (length pre) <? L) with true by (symmetry; apply Z.ltb_lt; lia).
    replace (Z.of_nat (length name) <? nl - 2) with true
      by (symmetry; apply Z.ltb_lt; lia).
    cbn [andb]. rewrite Nat2Z.id.
    change ((c :: l) ++ rest) with (c :: (l ++ rest)).
    rewrite nth_middle_app.
    replace (pre ++ c :: l ++ rest) with ((pre ++ [c]) ++ l ++ rest)
      by (rewrite <- app_assoc; reflexivity).
    replace (Z.of_nat (length pre) + 1) with (Z.of_nat (length (pre ++ [c])))
      by (rewrite length_app; cbn [length]; lia).
    rewrite IH.
    + rewrite length_app. cbn [length]. rewrite <- app_assoc. cbn [app].
      f_equal. lia.
    + rewrite length_app. cbn [length]. lia.
    + rewrite !length_app. cbn [length]. lia.
Qed.

Lemma length_encode_name labels :
  length (encode_name labels) = S (length (labels_with_dots labels)).
Proof.
  unfold labels_with_dots.
  induction labels as [|l labels IH]; [reflexivity|].
  cbn [encode_name map concat length]. rewrite !length_app, IH. cbn [length]. lia.
Qed.

Lemma dotted_labels_with_dots labels :
  labels <> [] -> labels_with_dots labels = dotted labels ++ [x2e].
Proof.
  unfold labels_with_dots.
  induction labels as [|l labels IH]; intros H; [contradiction|].
  cbn [map concat dotted]. destruct labels as [|l' labels].
  - cbn. now rewrite app_nil_r.
  - rewrite IH by discriminate. rewrite <- !app_assoc. reflexivity.
Qed.

(** The loop on a name written out in labels, started at its first
    length octet. *)
Lemma parse_dns_name_loop_labels labels : forall fuel pre rest L offset jc name,
  labels_ok labels ->
  Z.of_nat (length pre) + Z.of_nat (length (encode_name labels)) <= L ->
  Z.of_nat (length name) + Z.of_nat (length (labels_with_dots labels)) <= 254 ->
  jc < 10 ->
  (length labels < fuel)%nat ->
  parse_dns_name_loop fuel (pre ++ encode_name labels ++ rest) L 256
    offset (Z.of_nat (length pre)) false jc name
  = name_parsed (Z.of_nat (length pre) + Z.of_nat (length (encode_name labels)))
      (let written := name ++ labels_with_dots labels in
       if (Z.of_nat (length written) >? 0) && (Z.of_nat (length written) <? 255)
       then c_str (firstn (Z.to_nat (Z.of_nat (length written) - 1)) written)
       else []).
Proof.
  induction labels as [|l labels IH];
    intros fuel pre rest L offset jc name Hok HL Hn Hjc Hf.
  - destruct fuel as [|fuel]; [simpl in Hf; lia|].
    cbn [encode_name length] in *. cbn [parse_dns_name_loop].
    replace (Z.of_nat (length pre) <? L) with true by (symmetry; apply Z.ltb_lt; lia).
    replace (jc <? 10) with true by (symmetry; apply Z.ltb_lt; lia).
    cbn [andb]. rewrite Nat2Z.id. cbn [app]. rewrite nth_middle_app.
    change (u8 x00) with 0. change (Z.land 0 192 =? 192) with false.
    change (0 =? 0) with true. cbv iota.
    unfold labels_with_dots. cbn [map concat]. rewrite app_nil_r.
    reflexivity.
  - destruct fuel as [|fuel]; [simpl in Hf; lia|].
    inversion Hok as [|? ? Hl Hok']; subst.
    pose proof (length_encode_name labels) as Henc.
    assert (Hdots : labels_with_dots (l :: labels) = (l ++ [x2e]) ++ labels_with_dots labels)
      by reflexivity.
    rewrite Hdots in *. clear Hdots.
    cbn [encode_name length] in *. rewrite ?length_app in *. cbn [length] in *.
    cbn [parse_dns_name_loop].
    replace (Z.of_nat (length pre) <? L) with true by (symmetry; apply Z.ltb_lt; lia).
    replace (jc <? 10) with true by (symmetry; apply Z.ltb_lt; lia).
    cbn [andb]. rewrite Nat2Z.id. cbn [app]. rewrite nth_middle_app.
    rewrite u8_to_byte_small by lia.
    replace (Z.land (Z.of_nat (length l)) 192 =? 192) with false.
    2:{ symmetry. rewrite <- (u8_to_byte_small (Z.of_nat (length l))) by lia.
        apply not_a_pointer. rewrite u8_to_byte_small by lia. lia. }
    replace (Z.of_nat (length l) =? 0) with false by (symmetry; apply Z.eqb_neq; lia).
    rewrite Nat2Z.id.
    set (lenb := to_byte (Z.of_nat (length l))).
    replace (pre ++ lenb :: (l ++ encode_name labels) ++ rest)
      with ((pre ++ [lenb]) ++ l ++ (encode_name labels ++ rest))
      by (rewrite <- !app_assoc; reflexivity).
    replace (Z.of_nat (length pre) + 1) with (Z.of_nat (length (pre ++ [lenb])))
      by (rewrite length_app; cbn [length]; lia).
    rewrite copy_label_whole by (rewrite ?length_app; cbn [length]; lia).
    replace (Z.of_nat (length (name ++ l)) <? 256 - 1) with true
      by (symmetry; apply Z.ltb_lt; rewrite length_app; lia).
    replace (Z.of_nat (length (pre ++ [lenb])) + Z.of_nat (length l))
      with (Z.of_nat (length ((pre ++ [lenb]) ++ l)))
      by (rewrite !length_app; cbn [length]; lia).
    rewrite (app_assoc (pre ++ [lenb]) l).
    rewrite IH; try assumption; try lia.
    + f_equal.
      * rewrite !length_app. cbn [length]. lia.
      * cbv zeta.
        replace (((name ++ l) ++ [x2e]) ++ labels_with_dots labels)
          with (name ++ (l ++ [x2e]) ++ labels_with_dots labels)
          by (rewrite <- !app_assoc; reflexivity).
        replace (length (name ++ (l ++ [x2e]) ++ labels_with_dots labels))
          with (length name + (length l + 1 + length (labels_with_dots labels)))%nat
          by (rewrite !length_app; cbn [length]; lia).
        reflexivity.
    + rewrite !length_app. cbn [length]. lia.
    + rewrite !length_app. cbn [length]. lia.
Qed.

Lemma dotted_nul_free labels :
  Forall (Forall (fun c => c <> x00)) labels ->
  Forall (fun c => c <> x00) (dotted labels).
Proof.
  induction 1 as [|l labels Hl Hz IH]; [constructor|].
  cbn [dotted]. destruct labels as [|l' labels]; [exact Hl|].
  apply Forall_app. split; [exact Hl|].
  constructor; [discriminate | exact IH].
Qed.

(** A name written out in labels, without pointers: [parse_dns_name]
    returns the position behind its closing zero octet and leaves in
    [name] the labels joined by dots, as a C string: cut at the first zero
    octet a label holds, if any.  This holds provided the packet holds
    the whole name and the name, with its dots, has at most 253
    characters. *)
Theorem parse_dns_name_plain
    (pre rest : list byte) (labels : list (list byte)) (packet_len : Z) :
  labels_ok labels ->
  Z.of_nat (length pre) + Z.of_nat (length (encode_name labels)) <= packet_len ->
  (length (encode_name labels) <= 255)%nat ->
  parse_dns_name (pre ++ encode_name labels ++ rest) packet_len
    (Z.of_nat (length pre)) 256
  = name_parsed (Z.of_nat (length pre) + Z.of_nat (length (encode_name labels)))
      (c_str (dotted labels)) /\
  (Forall (Forall (fun c => c <> x00)) labels -> c_str (dotted labels) = dotted labels).
Proof.
  intros Hok HL Hn. split.
  2:{ intros Hz. apply c_str_nul_free. now apply dotted_nul_free. }
  unfold parse_dns_name.
  pose proof (length_encode_name labels) as Henc.
  rewrite parse_dns_name_loop_labels; try assumption; try lia.
  - f_equal. cbv zeta. cbn [app].
    destruct labels as [|l labels]; [reflexivity|].
    rewrite dotted_labels_with_dots by discriminate.
    rewrite length_app. cbn [length].
    rewrite dotted_labels_with_dots in Henc by discriminate.
    rewrite length_app in Henc. cbn [length] in Henc.
    replace (Z.of_nat (length (dotted (l :: labels)) + 1) >? 0) with true
      by (symmetry; rewrite Z.gtb_ltb; apply Z.ltb_lt; lia).
    replace (Z.of_nat (length (dotted (l :: labels)) + 1) <? 255) with true
      by (symmetry; apply Z.ltb_lt; lia).
    cbn [andb].
    replace (Z.to_nat (Z.of_nat (length (dotted (l :: labels)) + 1) - 1))
      with (length (dotted (l :: labels))) by lia.
    rewrite firstn_app, firstn_all, Nat.sub_diag. cbn [firstn].
    now rewrite app_nil_r.
  - cbn [length]. lia.
  - unfold parse_passes.
    assert (length labels <= length (labels_with_dots labels))%nat.
    { clear. unfold labels_with_dots. induction labels as [|l labels IH]; [simpl; lia|].
      cbn [map concat length]. rewrite !length_app. cbn [length]. lia. }
    lia.
Qed.

Lemma parse_dns_name_plain_witness :
  parse_dns_name (one_question_header ++ encode_name www_example_com ++ [x00; x01; x00; x01])
    33 12 256
  = name_parsed 29
      [x77; x77; x77; x2e; x65; x78; x61; x6d; x70; x6c; x65; x2e; x63; x6f; x6d].
Proof.
  refine (proj1 (parse_dns_name_plain one_question_header [x00; x01; x00; x01]
                   www_example_com 33 _ _ _)).
  - repeat constructor; simpl; lia.
  - simpl. lia.
  - simpl. lia.
Defined.

(** * wm_dns.c: building the response *)

Lemma length_dns_answer ip : length (dns_answer ip) = 16%nat.
Proof. destruct ip as [[[a b] c] d]. reflexivity. Qed.

Lemma length_answers ip k : length (concat (repeat (dns_answer ip) k)) = (16 * k)%nat.
Proof.
  induction k as [|k IH]; [reflexivity|].
  cbn [repeat concat]. rewrite length_app, length_dns_answer, IH. lia.
Qed.

(** The loop over the questions ends and appends whole answers only, at
    most one per question, each while sixteen octets and more are
    free. *)
Lemma answer_questions_shape n query query_len response_max_len ip :
  forall question_pos response,
  0 <= question_pos ->
  exists k, (k <= n)%nat /\
    answer_questions n query query_len response_max_len ip question_pos response
    = Some (response ++ concat (repeat (dns_answer ip) k)) /\
    (k = 0%nat \/
     Z.of_nat (length response) + 16 * Z.of_nat k < response_max_len).
Proof.
  induction n as [|n IH]; intros question_pos response Hq.
  - exists 0%nat. cbn. rewrite app_nil_r. auto.
  - cbn [answer_questions].
    destruct (Z.of_nat (length response) <? response_max_len - 16) eqn:C.
    2:{ exists 0%nat. cbn. rewrite app_nil_r. split; [lia | auto]. }
    apply Z.ltb_lt in C.
    destruct (parse_dns_name_finished query query_len question_pos 256 Hq)
      as [e [text [E _]]].
    rewrite E.
    destruct (e <? 0) eqn:Ce.
    { destruct (IH question_pos response Hq) as [k [K1 [K2 K3]]].
      exists k. split; [lia | auto]. }
    apply Z.ltb_ge in Ce.
    destruct (e + 4 >? query_len).
    { destruct (IH question_pos response Hq) as [k [K1 [K2 K3]]].
      exists k. split; [lia | auto]. }
    destruct ((ntohs_at query (Z.to_nat e) =? 1)
              && (ntohs_at query (Z.to_nat (e + 2)) =? 1)).
    + destruct (IH (e + 4) (response ++ dns_answer ip) ltac:(lia)) as [k [K1 [K2 K3]]].
      exists (S k). split; [lia|]. split.
      * rewrite K2. cbn [repeat concat]. now rewrite <- app_assoc.
      * right. rewrite length_app, length_dns_answer in K3.
        destruct K3 as [->|K3]; lia.
    + destruct (IH (e + 4) response ltac:(lia)) as [k [K1 [K2 K3]]].
      exists k. split; [lia | auto].
Qed.

Lemma length_dns_response_header query :
  (2 <= length query)%nat -> length (dns_response_header query) = 12%nat.
Proof.
  intros H. unfold dns_response_header, htons_bytes.
  rewrite !length_app, length_firstn. cbn [length]. lia.
Qed.

(** [create_dns_response] on any query.  It declines a query shorter
    than a header or longer than the response array; otherwise it
    returns, with a response made of the rewritten header, the rest of
    the query as received, and [k] answers of sixteen octets, where [k]
    is at most the question count.  The response fits the array.  The
    answer count of its header is the question count of the query
    whatever [k] is: a question that is not for an address, that cannot
    be parsed, or that finds the array full is counted nonetheless. *)
Theorem create_dns_response_shape
    (query : list byte) (query_len response_max_len : Z) (s_ap_ip : ip4_addr_t) :
  (12 <= length query)%nat ->
  0 <= query_len <= Z.of_nat (length query) ->
  response_max_len <= INT_MAX ->
  (query_len < 12 \/ response_max_len < query_len ->
     create_dns_response query query_len response_max_len s_ap_ip = no_reply) /\
  (12 <= query_len <= response_max_len ->
     exists k, (k <= Z.to_nat (ntohs_at query 4))%nat /\
       let response := dns_response_with k query query_len s_ap_ip in
       create_dns_response query query_len response_max_len s_ap_ip = reply response /\
       ntohs_at response 6 = ntohs_at query 4 /\
       Z.of_nat (length response) = query_len + 16 * Z.of_nat k /\
       Z.of_nat (length response) <= response_max_len).
Proof.
  intros Hbuf Hlen Hmax. unfold create_dns_response, sizeof_dns_header_t. split.
  - intros [H|H].
    + rewrite wrap_u32_id by lia.
      replace (query_len <? 12) with true by (symmetry; apply Z.ltb_lt; lia).
      reflexivity.
    + destruct (wrap_u32 query_len <? 12); [reflexivity|].
      replace (query_len >? response_max_len) with true
        by (symmetry; rewrite Z.gtb_ltb; apply Z.ltb_lt; lia).
      reflexivity.
  - intros H. unfold INT_MAX in Hmax.
    rewrite wrap_u32_id by lia.
    replace (query_len <? 12) with false by (symmetry; apply Z.ltb_ge; lia).
    replace (query_len >? response_max_len) with false
      by (symmetry; rewrite Z.gtb_ltb; apply Z.ltb_ge; lia).
    set (base := dns_response_header query ++ skipn 12 (firstn (Z.to_nat query_len) query)).
    destruct (answer_questions_shape (Z.to_nat (ntohs_at query 4)) query query_len
                response_max_len s_ap_ip 12 base ltac:(lia)) as [k [K1 [K2 K3]]].
    exists k. split; [exact K1|]. cbv zeta.
    rewrite K2. unfold dns_response_with, base. rewrite <- app_assoc.
    split; [reflexivity|].
    assert (Hb : Z.of_nat (length base) = query_len).
    { unfold base. rewrite length_app, length_dns_response_header by lia.
      rewrite length_skipn, length_firstn. lia. }
    split; [|split].
    + destruct (header_split query Hbuf)
        as (b0 & b1 & b2 & b3 & b4 & b5 & b6 & b7 & b8 & b9 & b10 & b11 & rest & ->).
      unfold dns_response_header, htons_bytes, ntohs_at.
      cbn [firstn app nth]. reflexivity.
    + rewrite app_assoc. fold base. rewrite length_app, length_answers. lia.
    + rewrite app_assoc. fold base. rewrite length_app, length_answers.
      destruct K3 as [->|K3]; lia.
Qed.

Lemma create_dns_response_shape_witness :
  let query :=
    one_question_header ++ encode_name www_example_com ++ [x00; x01; x00; x01] in
  create_dns_response query 5 512 portal_ip = no_reply /\
  exists k, (k <= Z.to_nat (ntohs_at query 4))%nat /\
    let response := dns_response_with k query 33 portal_ip in
    create_dns_response query 33 512 portal_ip = reply response /\
    ntohs_at response 6 = ntohs_at query 4 /\
    Z.of_nat (length response) = 33 + 16 * Z.of_nat k /\
    Z.of_nat (length response) <= 512.
Proof.
  cbv zeta. split.
  - refine (proj1 (create_dns_response_shape
      (one_question_header ++ encode_name www_example_com ++ [x00; x01; x00; x01])
      5 512 portal_ip _ _ _) _).
    + simpl. lia.
    + simpl. lia.
    + unfold INT_MAX. lia.
    + left. lia.
  - refine (proj2 (create_dns_response_shape
      (one_question_header ++ encode_name www_example_com ++ [x00; x01; x00; x01])
      33 512 portal_ip _ _ _) _).
    + simpl. lia.
    + simpl. lia.
    + unfold INT_MAX. lia.
    + lia.
Defined.

Lemma dns_response_header_app header rest :
  length header = 12%nat ->
  dns_response_header (header ++ rest) = dns_response_header header.
Proof.
  intros H. do 12 (destruct header as [|? header]; [discriminate H|]).
  destruct header; [|discriminate H]. reflexivity.
Qed.

Lemma ntohs_at_app_l header rest off :
  (S off < length header)%nat -> ntohs_at (header ++ rest) off = ntohs_at header off.
Proof. intros H. unfold ntohs_at. now rewrite !app_nth1 by lia. Qed.

Lemma ntohs_at_app_r pre rest :
  ntohs_at (pre ++ rest) (length pre) = ntohs_at rest 0.
Proof.
  unfold ntohs_at. rewrite !app_nth2 by lia.
  now replace (S (length pre) - length pre)%nat with 1%nat by lia;
    rewrite Nat.sub_diag.
Qed.

(** The usual query: a header announcing one question, a name written
    out in labels, a type and a class.  The response is the rewritten
    header and the question, followed by one answer with the address of
    the access point exactly when the question is for type A in class
    IN; for any other type or class the response carries no answer
    (while its header announces one). *)
Theorem create_dns_response_single
    (header stale : list byte) (labels : list (list byte)) (qtype qclass : Z)
    (response_max_len : Z) (s_ap_ip : ip4_addr_t) :
  length header = 12%nat ->
  ntohs_at header 4 = 1 ->
  labels_ok labels ->
  (length (encode_name labels) <= 255)%nat ->
  0 <= qtype < 65536 ->
  0 <= qclass < 65536 ->
  let question := encode_name labels ++ htons_bytes qtype ++ htons_bytes qclass in
  Z.of_nat (length (header ++ question)) < response_max_len - 16 ->
  response_max_len <= INT_MAX ->
  create_dns_response ((header ++ question) ++ stale)
    (Z.of_nat (length (header ++ question))) response_max_len s_ap_ip
  = reply (dns_response_header header ++ question
           ++ (if (qtype =? 1) && (qclass =? 1) then dns_answer s_ap_ip else [])).
Proof.
  intros Hh Hq Hok Hn Ht Hc question Hroom Hmax.
  pose proof (length_encode_name labels) as Henc.
  assert (Hql : length question = (length (encode_name labels) + 4)%nat).
  { unfold question, htons_bytes. rewrite !length_app. cbn [length]. lia. }
  assert (Hlen : length (header ++ question) = (16 + length (encode_name labels))%nat).
  { rewrite length_app, Hql, Hh. lia. }
  unfold create_dns_response, sizeof_dns_header_t. unfold INT_MAX in Hmax.
  rewrite wrap_u32_id by lia.
  replace (Z.of_nat (length (header ++ question)) <? 12) with false
    by (symmetry; apply Z.ltb_ge; lia).
  replace (Z.of_nat (length (header ++ question)) >? response_max_len) with false
    by (symmetry; rewrite Z.gtb_ltb; apply Z.ltb_ge; lia).
  rewrite Nat2Z.id, firstn_app, firstn_all, Nat.sub_diag. cbn [firstn].
  rewrite app_nil_r.
  rewrite <- (app_assoc header question stale).
  rewrite dns_response_header_app by assumption.
  rewrite (ntohs_at_app_l header _ 4) by lia. rewrite Hq.
  change (Z.to_nat 1) with 1%nat.
  replace (skipn 12 (header ++ question)) with question
    by (rewrite skipn_app, skipn_all2, Hh by lia; reflexivity).
  cbn [answer_questions].
  replace (Z.of_nat (length (dns_response_header header ++ question))
           <? response_max_len - 16) with true.
  2:{ symmetry. apply Z.ltb_lt.
      rewrite length_app, length_dns_response_header by lia. lia. }
  unfold parse_dns_name.
  replace 12 with (Z.of_nat (length header)) at 1 2 by (rewrite Hh; reflexivity).
  unfold question at 1 2. rewrite <- !app_assoc.
  rewrite parse_dns_name_loop_labels; try assumption; try lia.
  2:{ cbn [length]. lia. }
  2:{ unfold parse_passes.
      assert (length labels <= length (labels_with_dots labels))%nat.
      { clear. unfold labels_with_dots.
        induction labels as [|l labels IH]; [simpl; lia|].
        cbn [map concat length]. rewrite !length_app. cbn [length]. lia. }
      fold question. lia. }
  set (e := Z.of_nat (length header) + Z.of_nat (length (encode_name labels))).
  replace (e <? 0) with false by (symmetry; apply Z.ltb_ge; lia).
  replace (e + 4 >? Z.of_nat (length (header ++ question))) with false
    by (symmetry; rewrite Z.gtb_ltb; apply Z.ltb_ge; lia).
  assert (Ee : Z.to_nat e = length (header ++ encode_name labels))
    by (rewrite length_app; lia).
  assert (Ee2 : Z.to_nat (e + 2)
                = length ((header ++ encode_name labels) ++ htons_bytes qtype)).
  { rewrite !length_app. unfold htons_bytes. cbn [length]. lia. }
  rewrite Ee, Ee2.
  assert (T1 : ntohs_at (header ++ question ++ stale)
                 (length (header ++ encode_name labels)) = qtype).
  { replace (header ++ question ++ stale)
      with ((header ++ encode_name labels)
            ++ htons_bytes qtype ++ htons_bytes qclass ++ stale)
      by (unfold question; rewrite <- !app_assoc; reflexivity).
    rewrite ntohs_at_app_r. now apply ntohs_htons. }
  assert (T2 : ntohs_at (header ++ question ++ stale)
                 (length ((header ++ encode_name labels) ++ htons_bytes qtype)) = qclass).
  { replace (header ++ question ++ stale)
      with (((header ++ encode_name labels) ++ htons_bytes qtype)
            ++ htons_bytes qclass ++ stale)
      by (unfold question; rewrite <- !app_assoc; reflexivity).
    rewrite ntohs_at_app_r. now apply ntohs_htons. }
  rewrite T1, T2.
  destruct ((qtype =? 1) && (qclass =? 1)).
  - reflexivity.
  - rewrite app_nil_r. reflexivity.
Qed.

Lemma create_dns_response_single_witness :
  create_dns_response
    ((one_question_header
        ++ encode_name www_example_com ++ htons_bytes 28 ++ htons_bytes 1) ++ [xff; xff])
    (Z.of_nat (length (one_question_header
        ++ encode_name www_example_com ++ htons_bytes 28 ++ htons_bytes 1)))
    512 portal_ip
  = reply (dns_response_header one_question_header
           ++ (encode_name www_example_com ++ htons_bytes 28 ++ htons_bytes 1)
           ++ []).
Proof.
  apply (create_dns_response_single one_question_header [xff; xff] www_example_com
           28 1 512 portal_ip).
  - reflexivity.
  - reflexivity.
  - repeat constructor; simpl; lia.
  - simpl. lia.
  - lia.
  - lia.
  - simpl. lia.
  - unfold INT_MAX. lia.
Defined.

(** * Teardown, call by call *)

Lemma calls_of_bind {A B} (c : Op A) (k : A -> Op B) m :
  calls_of (bind c k m)
  = calls_of (c m) ++ calls_of (k (result_of (c m)) (manager_of (c m))).
Proof.
  unfold bind, calls_of, result_of, manager_of.
  destruct (c m) as [[a m1] l1]. simpl.
  destruct (k a m1) as [[b m2] l2]. reflexivity.
Qed.

Lemma stopHTTPServer_calls m :
  calls_of (stopHTTPServer m)
  = match _httpServer m with Some srv => [httpd_stop srv] | None => [] end.
Proof. unfold stopHTTPServer. op_simpl. destruct (_httpServer m); reflexivity. Qed.

(** The calls of [stopDNSServer]: nothing for a responder that is not
    running; otherwise the socket is closed if it is open, and a task
    that is alive is waited for and, failing that, deleted. *)
Lemma stopDNSServer_calls exit_during m :
  calls_of (stopDNSServer exit_during m)
  = if _dnsRunning m
    then (if _dnsSocket m >=? 0 then [close (_dnsSocket m)] else [])
         ++ match _dnsTaskHandle m with
            | Some task => stop_wait_calls task exit_during
            | None => []
            end
    else [].
Proof.
  unfold stopDNSServer.
  unfold bind at 1. unfold get at 1.
  destruct (_dnsRunning m) eqn:Hr;
    [change (negb true) with false | change (negb false) with true]; cbv iota;
    [|reflexivity].
  unfold bind at 1. unfold modify at 1.
  unfold bind at 1. unfold get at 1.
  change (_dnsSocket (set_dnsRunning false m)) with (_dnsSocket m).
  destruct (_dnsSocket m >=? 0) eqn:Hs.
  - unfold bind at 1. unfold bind at 1. unfold emit at 1. unfold modify at 1.
    set (m2 := set_dnsSocket (-1) (set_dnsRunning false m)).
    assert (S2 : _dnsSocket m2 < 0) by (simpl; lia).
    unfold bind at 1.
    destruct (_dnsTaskHandle m) as [task|] eqn:Ht.
    + assert (H2 : _dnsTaskHandle m2 = Some task) by exact Ht.
      unfold stop_wait_calls. destruct exit_during as [n|].
      * rewrite (stopDNSServer_wait_alive 50 n m2 task H2 S2).
        destruct (n <? 50)%nat.
        -- op_simpl. rewrite app_nil_r. reflexivity.
        -- op_simpl. rewrite H2. reflexivity.
      * rewrite (stopDNSServer_wait_never 50 m2 task H2).
        op_simpl. rewrite H2. reflexivity.
    + assert (H2 : _dnsTaskHandle m2 = None) by exact Ht.
      rewrite (stopDNSServer_wait_dead 50 exit_during m2 H2).
      op_simpl. rewrite H2. reflexivity.
  - rewrite Z.geb_leb in Hs. apply Z.leb_gt in Hs.
    unfold bind at 1. unfold ret at 1.
    set (m2 := set_dnsRunning false m).
    assert (S2 : _dnsSocket m2 < 0) by exact Hs.
    unfold bind at 1.
    destruct (_dnsTaskHandle m) as [task|] eqn:Ht.
    + assert (H2 : _dnsTaskHandle m2 = Some task) by exact Ht.
      unfold stop_wait_calls. destruct exit_during as [n|].
      * rewrite (stopDNSServer_wait_alive 50 n m2 task H2 S2).
        destruct (n <? 50)%nat.
        -- op_simpl. rewrite app_nil_r. reflexivity.
        -- op_simpl. rewrite H2. reflexivity.
      * rewrite (stopDNSServer_wait_never 50 m2 task H2).
        op_simpl. rewrite H2. reflexivity.
    + assert (H2 : _dnsTaskHandle m2 = None) by exact Ht.
      rewrite (stopDNSServer_wait_dead 50 exit_during m2 H2).
      op_simpl. rewrite H2. reflexivity.
Qed.

Lemma stopServers_calls exit_during m :
  _cleanupInProgress m = false ->
  calls_of (stopServers exit_during m)
  = match _httpServer m with Some srv => [httpd_stop srv] | None => [] end
    ++ (if _dnsRunning m
        then (if _dnsSocket m >=? 0 then [close (_dnsSocket m)] else [])
             ++ match _dnsTaskHandle m with
                | Some task => stop_wait_calls task exit_during
                | None => []
                end
        else []).
Proof.
  intros Hc. unfold stopServers.
  rewrite calls_of_bind.
  change (calls_of (get _cleanupInProgress m)) with (@nil effect).
  change (result_of (get _cleanupInProgress m)) with (_cleanupInProgress m).
  change (manager_of (get _cleanupInProgress m)) with m.
  rewrite Hc. change (negb false) with true. cbv iota.
  rewrite calls_of_bind.
  change (calls_of (modify (set_cleanupInProgress true) m)) with (@nil effect).
  change (manager_of (modify (set_cleanupInProgress true) m))
    with (set_cleanupInProgress true m).
  rewrite calls_of_bind, stopHTTPServer_calls.
  rewrite calls_of_bind, stopDNSServer_calls.
  change (calls_of (modify (set_cleanupInProgress false) ?x)) with (@nil effect).
  destruct (stopHTTPServer_post (set_cleanupInProgress true m)) as [_ [P2 [P3 _]]].
  cbv zeta in P2, P3.
  assert (P4 : _dnsTaskHandle (manager_of (stopHTTPServer (set_cleanupInProgress true m)))
               = _dnsTaskHandle m).
  { unfold stopHTTPServer. op_simpl. destruct (_httpServer m); reflexivity. }
  rewrite P2, P3, P4.
  change (_httpServer (set_cleanupInProgress true m)) with (_httpServer m).
  change (_dnsRunning (set_cleanupInProgress true m)) with (_dnsRunning m).
  change (_dnsSocket (set_cleanupInProgress true m)) with (_dnsSocket m).
  cbn [app]. unfold calls_of, modify. cbn [snd]. now rewrite app_nil_r.
Qed.

(** C8.  [stopServers()] stops what runs: it calls [httpd_stop] on the
    HTTP server if there is one and, if the DNS responder is running,
    closes its socket if that is open and waits for its task, deleting
    it when it has not exited after fifty delays; it makes no other call.
    Afterwards the HTTP handle is null, the DNS-running flag is false
    and the DNS socket is closed, and a second [stopServers()] (or any
    later one while the servers stay stopped) changes nothing and makes
    no platform call: the final state is that of the single call.  The
    function has no failure result.  Assumed of the state before the
    first call: no teardown is in flight, and the DNS socket is open only
    while the responder is marked running. *)
Theorem stopServers_idempotent (m : WiFiManager) (exit1 exit2 : option nat) :
  _cleanupInProgress m = false ->
  dns_socket_owned m ->
  let m1 := manager_of (stopServers exit1 m) in
  calls_of (stopServers exit1 m)
  = match _httpServer m with Some srv => [httpd_stop srv] | None => [] end
    ++ (if _dnsRunning m
        then (if _dnsSocket m >=? 0 then [close (_dnsSocket m)] else [])
             ++ match _dnsTaskHandle m with
                | Some task => stop_wait_calls task exit1
                | None => []
                end
        else []) /\
  _httpServer m1 = None /\
  _dnsRunning m1 = false /\
  _dnsSocket m1 < 0 /\
  _cleanupInProgress m1 = false /\
  dns_socket_owned m1 /\
  stopServers exit2 m1 = (tt, m1, []) /\
  (forall m' : WiFiManager,
     _cleanupInProgress m' = false -> _httpServer m' = None -> _dnsRunning m' = false ->
     stopServers exit2 m' = (tt, m', [])).
Proof.
  intros Hc Hinv. cbv zeta.
  destruct (stopServers_post exit1 m Hc) as [P1 [P2 [P3 P4]]].
  specialize (P4 Hinv).
  split; [now apply stopServers_calls|].
  repeat split; auto.
  - intros _. exact P4.
  - now apply stopServers_when_stopped.
  - intros m'. apply stopServers_when_stopped.
Qed.

Lemma stopServers_idempotent_witness :
  let m1 := manager_of (stopServers (Some 0%nat) portal_running) in
  calls_of (stopServers (Some 0%nat) portal_running)
  = [httpd_stop 1; close 54; vTaskDelay_ms 100] /\
  _httpServer m1 = None /\
  _dnsRunning m1 = false /\
  _dnsSocket m1 < 0 /\
  _cleanupInProgress m1 = false /\
  dns_socket_owned m1 /\
  stopServers None m1 = (tt, m1, []).
Proof.
  pose proof (stopServers_idempotent portal_running (Some 0%nat) None
                ltac:(reflexivity) ltac:(intros H; discriminate H)) as W.
  cbv zeta in W. cbv zeta.
  destruct W as (W0 & W1 & W2 & W3 & W4 & W5 & W6 & _).
  repeat split; assumption.
Defined.

(** * The socket blocks of the stop and of the task *)

Lemma open_test fd : 0 <= fd -> (fd >=? 0) = true.
Proof. intros H. rewrite Z.geb_leb. now apply Z.leb_le. Qed.

Lemma closes_of_close fd fd' :
  closes_of fd [close fd'] = if fd' =? fd then 1%nat else 0%nat.
Proof. unfold closes_of. simpl. destruct (fd' =? fd); reflexivity. Qed.

Lemma race_inv_step fd st who :
  0 <= fd -> race_inv fd st -> race_inv fd (race_step st who).
Proof.
  intros Hfd Inv. destruct st as [a b m l].
  unfold race_inv in *. cbn [stop_at task_at shared made] in *.
  destruct Inv as [(Hs & Ha & Hb & Hc) | (Hs & Hc)].
  - destruct who; cbn [race_step block_step stop_at task_at shared made].
    + destruct a; try contradiction;
        cbn [block_step stop_at task_at shared made at_clear_count past_close] in *.
      * rewrite Hs, (open_test fd Hfd). cbn [stop_at task_at shared made].
        left. rewrite app_nil_r. repeat split; auto; discriminate.
      * left. rewrite closes_of_app, closes_of_close, Hs, Z.eqb_refl.
        cbn [stop_at task_at shared made at_clear_count].
        repeat split; auto; try discriminate. lia.
      * right. rewrite app_nil_r. cbn [stop_at task_at shared made past_close].
        split; [reflexivity|].
        destruct b; try contradiction; cbn [at_clear_count past_close] in *; lia.
    + destruct b; try contradiction;
        cbn [block_step stop_at task_at shared made at_clear_count past_close] in *.
      * rewrite Hs, (open_test fd Hfd). cbn [stop_at task_at shared made].
        left. rewrite app_nil_r. repeat split; auto; discriminate.
      * left. rewrite closes_of_app, closes_of_close, Hs, Z.eqb_refl.
        cbn [stop_at task_at shared made at_clear_count].
        repeat split; auto; try discriminate. lia.
      * right. rewrite app_nil_r. cbn [stop_at task_at shared made past_close].
        split; [reflexivity|].
        destruct a; try contradiction; cbn [at_clear_count past_close] in *; lia.
  - assert (Hneg : (-1 >=? 0) = false) by reflexivity.
    assert (Hne : (-1 =? fd) = false) by (apply Z.eqb_neq; lia).
    right.
    destruct who; [destruct a | destruct b];
      cbn [race_step block_step stop_at task_at shared made]; rewrite ?Hs, ?Hneg;
      cbn [stop_at task_at shared made past_close] in *;
      rewrite ?app_nil_r, ?closes_of_app, ?closes_of_close, ?Hne;
      (split; [assumption || reflexivity | lia]).
Qed.

Lemma race_inv_run fd schedule : forall st,
  0 <= fd -> race_inv fd st -> race_inv fd (interleave schedule st).
Proof.
  unfold interleave.
  induction schedule as [|who schedule IH]; intros st Hfd Inv; [exact Inv|].
  cbn [fold_left]. apply IH; [assumption|]. now apply race_inv_step.
Qed.

(** Once the field is cleared no statement closes [fd] any more. *)
Lemma cleared_stays fd schedule : forall st,
  0 <= fd -> _dnsSocket (shared st) = -1 ->
  closes_of fd (made (interleave schedule st)) = closes_of fd (made st).
Proof.
  unfold interleave.
  induction schedule as [|who schedule IH]; intros st Hfd Hs; [reflexivity|].
  cbn [fold_left].
  assert (Hne : (-1 =? fd) = false) by (apply Z.eqb_neq; lia).
  assert (Hneg : (-1 >=? 0) = false) by reflexivity.
  rewrite IH; [|assumption|].
  - destruct st as [a b m l]. cbn [shared] in Hs.
    destruct who; [destruct a | destruct b];
      cbn [race_step block_step stop_at task_at shared made]; rewrite ?Hs, ?Hneg;
      cbn [made]; rewrite ?app_nil_r, ?closes_of_app, ?closes_of_close, ?Hne;
      cbn [made]; lia.
  - destruct st as [a b m l]. cbn [shared] in Hs.
    destruct who; [destruct a | destruct b];
      cbn [race_step block_step stop_at task_at shared made]; rewrite ?Hs, ?Hneg;
      cbn [shared]; auto.
Qed.

(** The calls made are never taken back. *)
Lemma closes_grow fd schedule : forall st,
  (closes_of fd (made st) <= closes_of fd (made (interleave schedule st)))%nat.
Proof.
  unfold interleave.
  induction schedule as [|who schedule IH]; intros st; [cbn; lia|].
  cbn [fold_left]. etransitivity; [|apply IH].
  destruct st as [a b m l].
  destruct who; [destruct a | destruct b];
    cbn [race_step block_step stop_at task_at shared made];
    try (destruct (_dnsSocket m >=? 0)); cbn [made];
    rewrite ?app_nil_r, ?closes_of_app; lia.
Qed.

Lemma interleave_app s1 s2 st :
  interleave (s1 ++ s2) st = interleave s2 (interleave s1 st).
Proof. unfold interleave. apply fold_left_app. Qed.

(** The socket block of [stopDNSServer] and that of the task's
    [cleanup:], run on an open socket in any interleaving of their
    statements.  When both have finished the field is -1 and the socket
    has been closed at least once and at most twice.  It has been closed
    exactly once when one block runs whole before the other takes its
    next step, and twice when each context has run two of the first four
    statements, so that both tests come before either assignment: the
    second [close] then acts on a descriptor already closed. *)
Theorem dns_socket_close_race (m : WiFiManager) (schedule : list context) :
  0 <= _dnsSocket m ->
  let fd := _dnsSocket m in
  let st := socket_blocks m schedule in
  (stop_at st = block_done -> task_at st = block_done ->
     _dnsSocket (shared st) = -1 /\
     (1 <= closes_of fd (made st) <= 2)%nat) /\
  (forall who rest, schedule = who :: who :: who :: rest ->
     closes_of fd (made st) = 1%nat) /\
  (forall first rest, schedule = first ++ rest ->
     length first = 4%nat -> stop_steps first = 2%nat ->
     closes_of fd (made st) = 2%nat).
Proof.
  intros Hfd. cbv zeta.
  assert (Inv0 : race_inv (_dnsSocket m) (mk_race at_test at_test m [])).
  { left. cbn. repeat split; auto; discriminate. }
  pose proof (open_test _ Hfd) as Ht.
  split; [|split].
  - intros Ha Hb.
    pose proof (race_inv_run (_dnsSocket m) schedule _ Hfd Inv0) as Inv.
    fold (socket_blocks m schedule) in Inv.
    destruct Inv as [(_ & Hn & _) | (Hs & Hc)]; [contradiction|].
    rewrite Ha, Hb in Hc. cbn [past_close] in Hc. split; [assumption | lia].
  - intros who rest ->. unfold socket_blocks.
    change (who :: who :: who :: rest) with ([who; who; who] ++ rest).
    rewrite interleave_app, cleared_stays; try assumption.
    + destruct who; unfold interleave;
        cbn [fold_left race_step block_step stop_at task_at shared made];
        rewrite Ht; cbn [fold_left race_step block_step stop_at task_at shared made app];
        rewrite closes_of_close, Z.eqb_refl; reflexivity.
    + destruct who; unfold interleave;
        cbn [fold_left race_step block_step stop_at task_at shared made];
        rewrite Ht; reflexivity.
  - intros first rest -> Hl Hn. unfold socket_blocks.
    rewrite interleave_app.
    assert (H4 : closes_of (_dnsSocket m)
                   (made (interleave first (mk_race at_test at_test m []))) = 2%nat).
    { destruct first as [|a [|b [|c [|d [|? ?]]]]]; try discriminate Hl.
      destruct a, b, c, d; try discriminate Hn; unfold interleave;
        cbn [fold_left race_step block_step stop_at task_at shared made];
        rewrite ?Ht; cbn [fold_left race_step block_step stop_at task_at shared made app];
        rewrite ?Ht; cbn [fold_left race_step block_step stop_at task_at shared made app];
        unfold closes_of; cbn [filter is_close]; rewrite !Z.eqb_refl; reflexivity. }
    pose proof (closes_grow (_dnsSocket m) rest
                  (interleave first (mk_race at_test at_test m []))) as G.
    pose proof (race_inv_run (_dnsSocket m) (first ++ rest) _ Hfd Inv0) as Inv.
    rewrite interleave_app in Inv.
    assert (U : (closes_of (_dnsSocket m)
                   (made (interleave rest
                            (interleave first (mk_race at_test at_test m [])))) <= 2)%nat).
    { destruct Inv as [(_ & _ & _ & Hc) | (_ & Hc)].
      - rewrite Hc.
        destruct (stop_at _), (task_at _); cbn [at_clear_count]; lia.
      - destruct (stop_at _), (task_at _); cbn [past_close] in Hc; lia. }
    lia.
Qed.

Lemma dns_socket_close_race_witness :
  closes_of 54
    (made (socket_blocks portal_running
             [in_stopDNSServer; in_stopDNSServer; in_dnsServerTask; in_dnsServerTask;
              in_stopDNSServer; in_dnsServerTask]))
  = 2%nat.
Proof.
  refine (proj2 (proj2
    (dns_socket_close_race portal_running
       [in_stopDNSServer; in_stopDNSServer; in_dnsServerTask; in_dnsServerTask;
        in_stopDNSServer; in_dnsServerTask] _))
    [in_stopDNSServer; in_stopDNSServer; in_dnsServerTask; in_dnsServerTask]
    [in_stopDNSServer; in_dnsServerTask] _ _ _).
  - simpl. lia.
  - reflexivity.
  - reflexivity.
  - reflexivity.
Defined.
